(** * TaskFlow: ownership-scoped CRUD over SQLite, verified against its source

    The repository holds two Express servers over the same SQLite schema:

    - [src/server.js]: the multi-user server.  Every data route sits behind
      [requireAuth], an in-memory [sessions] map resolves bearer tokens to
      user ids, and the SQL statements are scoped to the caller.
      Module [Auth].
    - [src/unnamed/part_000]: the single-tenant server, without users or
      sessions, which additionally offers [POST /api/import].
      Module [Legacy].

    Both are embedded shallowly: a table is the list of its rows in rowid
    order, a SQL statement is a function on the store that either fails with
    the constraint SQLite reports or yields the new store, and a route handler
    is a function from the request and the store to a response and the store,
    with the handler's [try]/[catch] written out.  Nothing is wrapped in a
    transaction in the source, so the effects of the statements that ran
    before a failing one are kept.

    What the program reads from its environment ([Date.now()],
    [CURRENT_TIMESTAMP], [crypto.randomBytes], [new Date().toISOString()]) is
    an explicit argument of every handler.

    Modelling notes.
    - Values.  A request body is a JSON object whose fields are arbitrary
      JSON values; numbers have integer values, fractions are left out.  A
      column holds NULL, a number with an integer value, or text.  The
      driver's binding of JavaScript values and SQLite's column affinities
      are written out: a number outside the 32-bit range is bound as a
      REAL, and an INTEGER read back becomes a double, so it is rounded
      above 2^53 ([to_double]).  The conversion of numeric-looking text in
      the [deadline] and [completed] columns, the text SQLite makes of a
      REAL and the text bound for an array or object are parameters
      ([SqlDriver]).
    - Keys.  [id TEXT PRIMARY KEY] does not imply NOT NULL in SQLite: a NULL
      id is accepted and never conflicts; the model follows this.
    - Foreign keys.  The source never issues [PRAGMA foreign_keys = ON], so
      the FOREIGN KEY clauses of the schema are not enforced and nothing
      cascades at the store level; the handlers' own statements are all
      there is.  The concrete sessions used below only ever point to rows
      that exist, so they run the same with enforcement on.
    - The startup code (table creation, the sample rows the single-tenant
      server inserts into an empty database, static files) is not part of
      the model. *)

From Stdlib Require Import ZArith List String Ascii Bool Lia DecimalString.
From Stdlib Require Import Sorted Permutation.
From stdpp Require Import gmap strings.

#[local] Set Warnings "-register-all".
Local Open Scope string_scope.
Local Open Scope Z_scope.

(** * JavaScript values *)

(** The values a parsed JSON body holds, plus [undefined].  [JNum] stands for
    an integer-valued number; fractional numbers are outside the model. *)
Inductive jsval :=
| JUndefined
| JNull
| JBool (b : bool)
| JNum (n : Z)
| JStr (s : string)
| JArr (elems : list jsval)
| JObj (fields : list (string * jsval)).

Definition jsobject := list (string * jsval).

(** JavaScript truthiness, the test behind [!x], [x ? a : b], [x || y] and
    [if (x)]. *)
Definition truthy (v : jsval) : bool :=
  match v with
  | JUndefined | JNull => false
  | JBool b => b
  | JNum n => negb (n =? 0)
  | JStr s => negb (String.eqb s EmptyString)
  | JArr _ | JObj _ => true
  end.

(** [x || y] *)
Definition js_or (x y : jsval) : jsval := if truthy x then x else y.

(** The fields of an object, by name.  A parsed object holds each name
    once; of a name listed twice the first entry is read. *)
Fixpoint assoc (k : string) (fields : jsobject) : option jsval :=
  match fields with
  | [] => None
  | (k', v) :: rest => if String.eqb k k' then Some v else assoc k rest
  end.

(** [o.k] for an object [o]: the field, or [undefined] when it is absent. *)
Definition field (o : jsobject) (k : string) : jsval :=
  match assoc k o with
  | Some v => v
  | None => JUndefined
  end.

(** [v.k] for an arbitrary value: [None] is the TypeError JavaScript throws
    on [null] and [undefined]; primitives and arrays have none of the
    properties the source reads ([id], [name], [project_id], ...). *)
Definition prop (v : jsval) (k : string) : option jsval :=
  match v with
  | JUndefined | JNull => None
  | JObj o => Some (field o k)
  | _ => Some JUndefined
  end.

(** [Object.keys(v)]: the names of the fields of a document. *)
Definition object_keys (v : jsval) : list string :=
  match v with
  | JObj o => map fst o
  | _ => []
  end.

(** What [JSON.stringify] followed by [JSON.parse] makes of a value: fields
    holding [undefined] are dropped, [undefined] array elements become
    [null]. *)
Definition wire_element (wire : jsval -> jsval) (x : jsval) : jsval :=
  match wire x with
  | JUndefined => JNull
  | y => y
  end.

Definition wire_fields (wire : jsval -> jsval) : jsobject -> jsobject :=
  fix go (o : jsobject) : jsobject :=
    match o with
    | [] => []
    | (k, x) :: o' =>
        match wire x with
        | JUndefined => go o'
        | y => (k, y) :: go o'
        end
    end.

Fixpoint wire (v : jsval) : jsval :=
  match v with
  | JArr l => JArr (map (wire_element wire) l)
  | JObj o => JObj (wire_fields wire o)
  | _ => v
  end.

(** Decimal rendering of an integer, as [String(n)] and SQLite's
    integer-to-text conversion produce it. *)
Definition Z_to_string (n : Z) : string := NilZero.string_of_int (Z.to_int n).

(** ** Strings *)

Fixpoint string_drop (n : nat) (s : string) : string :=
  match n, s with
  | O, _ => s
  | S n', String _ s' => string_drop n' s'
  | S _, EmptyString => EmptyString
  end.

(** [s.replace(pat, rep)] with a string pattern: the first occurrence of
    [pat] is replaced.  ([rep] is the empty string at every use, so the [$]
    patterns of a replacement string play no role.) *)
Fixpoint js_replace (pat rep s : string) : string :=
  match s with
  | EmptyString => if String.prefix pat EmptyString then rep else EmptyString
  | String c s' =>
      if String.prefix pat s then rep +:+ string_drop (String.length pat) s
      else String c (js_replace pat rep s')
  end.

(** [s.includes(pat)] *)
Fixpoint js_includes (pat s : string) : bool :=
  String.prefix pat s ||
  match s with
  | EmptyString => false
  | String _ s' => js_includes pat s'
  end.

(** ** Hexadecimal rendering of random bytes *)

Definition hex_digit (n : N) : ascii :=
  match n with
  | 0%N => "0" | 1%N => "1" | 2%N => "2" | 3%N => "3"
  | 4%N => "4" | 5%N => "5" | 6%N => "6" | 7%N => "7"
  | 8%N => "8" | 9%N => "9" | 10%N => "a" | 11%N => "b"
  | 12%N => "c" | 13%N => "d" | 14%N => "e" | _ => "f"
  end%char.

(** [buf.toString('hex')] *)
Fixpoint to_hex (bytes : list Byte.byte) : string :=
  match bytes with
  | [] => EmptyString
  | b :: rest =>
      let n := Byte.to_N b in
      String (hex_digit (n / 16)) (String (hex_digit (n mod 16)) (to_hex rest))
  end.

(** * SQLite values *)

(** The values the program can store: NULL, text, and numbers.  [SInt n] is
    a number with the integer value [n], of storage class INTEGER or, for a
    number the driver bound as a double that a column keeps as such, REAL;
    SQLite compares and orders the two classes by value.  Numbers with a
    fraction are outside the model. *)
Inductive sqlval :=
| SNull
| SInt (n : Z)
| SText (s : string).

Definition sqlval_eqb (a b : sqlval) : bool :=
  match a, b with
  | SNull, SNull => true
  | SInt x, SInt y => x =? y
  | SText x, SText y => String.eqb x y
  | _, _ => false
  end.

(** The comparison [a = b] of a WHERE clause: true only for two non-NULL
    values of the same storage class that are equal (text by bytes). *)
Definition sql_eq (a b : sqlval) : bool :=
  match a, b with
  | SInt x, SInt y => x =? y
  | SText x, SText y => String.eqb x y
  | _, _ => false
  end.

Definition is_null (v : sqlval) : bool :=
  match v with SNull => true | _ => false end.

(** The order of ORDER BY: NULL first, then numbers, then text by bytes. *)
Definition sql_leb (a b : sqlval) : bool :=
  match a, b with
  | SNull, _ => true
  | SInt _, SNull => false
  | SInt x, SInt y => x <=? y
  | SInt _, SText _ => true
  | SText x, SText y => String.leb x y
  | SText _, _ => false
  end.

(** The double nearest to an integer, ties to the even significand: what
    a 64-bit integer becomes as a JavaScript number.  Integers up to 2^53
    in magnitude are kept; above, the 53 leading bits are rounded. *)
Definition to_double (n : Z) : Z :=
  let a := Z.abs n in
  if a <=? 2 ^ 53 then n
  else
    let e := Z.log2 a - 52 in
    let q := a / 2 ^ e in
    let r := a mod 2 ^ e in
    let half := 2 ^ (e - 1) in
    let m := if r <? half then q
             else if half <? r then q + 1
             else if Z.even q then q else q + 1 in
    Z.sgn n * (m * 2 ^ e).

Arguments to_double n : simpl never.

(** A row read back by the driver: column values as JavaScript values.
    The driver reads a number of a row into a double. *)
Definition to_js (v : sqlval) : jsval :=
  match v with
  | SNull => JNull
  | SInt n => JNum (to_double n)
  | SText s => JStr s
  end.



(** The parts of the database engine and its driver that are not this
    repository's code.  [numeric_affinity] is the conversion SQLite applies
    to a value stored in a column of INTEGER or NUMERIC affinity
    ([completed INTEGER], [deadline DATE]): NULL and numbers are kept, text
    is kept or, when it reads as a number, becomes that number (text that
    reads as a number with a fraction is outside the model).
    [real_to_text] is the text SQLite makes of a REAL with the given
    integer value when it is stored in a TEXT column, such as
    [3000000000.0].  [object_to_text] is the text the driver binds for a
    parameter that is an array or an object. *)
Class SqlDriver := {
  numeric_affinity : sqlval -> sqlval;
  real_to_text : Z -> string;
  object_to_text : jsval -> string;
  numeric_affinity_null : numeric_affinity SNull = SNull;
  numeric_affinity_int : forall n, numeric_affinity (SInt n) = SInt n;
  numeric_affinity_text : forall s,
      numeric_affinity (SText s) = SText s \/
      exists n, numeric_affinity (SText s) = SInt n
}.

(** A driver for running the model on the concrete requests of this file.
    Text made of decimal digits, with or without a sign in front, is
    stored as that number, as a REAL (the nearest double) when it does not
    fit 64 bits; other text is kept.  Blanks around a number, a decimal
    point and an exponent are not read, so text such as [1e2] or [1.0],
    which SQLite stores as a number, is outside this driver.  A REAL below
    10^15 is written with [.0]. *)
Fixpoint digits_value (acc : Z) (s : string) : option Z :=
  match s with
  | EmptyString => Some acc
  | String c s' =>
      let d := Z.of_nat (nat_of_ascii c) - 48 in
      if (0 <=? d) && (d <=? 9) then digits_value (10 * acc + d) s' else None
  end.

Definition signed_value (s : string) : option Z :=
  match s with
  | EmptyString => None
  | String c s' =>
      if Ascii.eqb c "-" then
        match s' with
        | EmptyString => None
        | _ => option_map Z.opp (digits_value 0 s')
        end
      else if Ascii.eqb c "+" then
        match s' with
        | EmptyString => None
        | _ => digits_value 0 s'
        end
      else digits_value 0 s
  end.

(** A number as SQLite stores it: a 64-bit INTEGER, or the nearest REAL. *)
Definition stored_number (n : Z) : Z :=
  if (- 2 ^ 63 <=? n) && (n <? 2 ^ 63) then n else to_double n.

Definition digits_affinity (v : sqlval) : sqlval :=
  match v with
  | SText s =>
      match signed_value s with
      | Some n => SInt (stored_number n)
      | None => v
      end
  | _ => v
  end.

#[export] Instance sample_driver : SqlDriver := {|
  numeric_affinity := digits_affinity;
  real_to_text := fun n => Z_to_string n +:+ ".0";
  object_to_text := fun _ => "[object Object]";
  numeric_affinity_null := eq_refl;
  numeric_affinity_int := fun _ => eq_refl;
  numeric_affinity_text := fun s =>
    match signed_value s as o
      return (match o with Some n => SInt (stored_number n) | None => SText s end
                = SText s \/
              exists n, match o with Some n => SInt (stored_number n)
                                | None => SText s end = SInt n)
    with
    | Some n => or_intror (ex_intro _ (stored_number n) eq_refl)
    | None => or_introl eq_refl
    end
|}.

(** PRIMARY KEY and UNIQUE as SQLite checks them: no two rows hold equal
    non-NULL keys (NULL is distinct from every value, itself included). *)
Fixpoint unique_keys (keys : list sqlval) : bool :=
  match keys with
  | [] => true
  | k :: ks => negb (existsb (sql_eq k) ks) && unique_keys ks
  end.

Definition is_text (v : sqlval) : bool :=
  match v with SText _ => true | _ => false end.

Definition is_int (v : sqlval) : bool :=
  match v with SInt _ => true | _ => false end.

(** [SELECT COUNT( * )] over the rows a predicate selects. *)
Definition count {A} (f : A -> bool) (l : list A) : nat :=
  length (List.filter f l).

(** ** Parameter binding *)

Section Binding.
Context {driver : SqlDriver}.

(** The value the driver binds for a JavaScript parameter: [undefined] and
    [null] as NULL, a boolean as 0 or 1, a number by its value (as INTEGER
    when it is a 32-bit integer, as REAL otherwise), a string as TEXT,
    anything else as the text the driver makes of it. *)
Definition bind (v : jsval) : sqlval :=
  match v with
  | JUndefined | JNull => SNull
  | JBool b => SInt (if b then 1 else 0)
  | JNum n => SInt n
  | JStr s => SText s
  | JArr _ | JObj _ => SText (object_to_text v)
  end.

(** The numbers the driver binds as INTEGER. *)
Definition is_int32 (n : Z) : bool := (- 2 ^ 31 <=? n) && (n <? 2 ^ 31).

(** TEXT column affinity applied to a bound parameter: an INTEGER is
    stored as its decimal text, a REAL as the text SQLite makes of it. *)
Definition text_affinity (v : sqlval) : sqlval :=
  match v with
  | SInt n => SText (if is_int32 n then Z_to_string n else real_to_text n)
  | _ => v
  end.

(** A parameter stored in, or compared with, a TEXT column. *)
Definition bind_text (v : jsval) : sqlval := text_affinity (bind v).

(** A parameter stored in an INTEGER or DATE column. *)
Definition bind_numeric (v : jsval) : sqlval := numeric_affinity (bind v).
End Binding.

(** * Errors, responses and handler plumbing *)

Inductive sql_error :=
| UniqueFailed (column : string)
| NotNullFailed (column : string).

Inductive exn :=
| SqlError (e : sql_error)
| TypeError (msg : string).

(** [error.message] *)
Definition message (e : exn) : string :=
  match e with
  | SqlError (UniqueFailed c) => "SQLITE_CONSTRAINT: UNIQUE constraint failed: " +:+ c
  | SqlError (NotNullFailed c) => "SQLITE_CONSTRAINT: NOT NULL constraint failed: " +:+ c
  | TypeError m => m
  end.

Record response := {
  status : Z;
  headers : list (string * string);
  body : jsval
}.

(** [res.json(v)] *)
Definition json (v : jsval) : response :=
  {| status := 200; headers := []; body := v |}.

(** [res.status(code).json({ error: msg })] *)
Definition fail (code : Z) (msg : string) : response :=
  {| status := code; headers := []; body := JObj [("error", JStr msg)] |}.

Definition success : jsval := JObj [("success", JBool true)].

(** A handler body between [try {] and [} catch]: it returns a value or
    throws, and leaves the store as it was at that point. *)
Inductive outcome (A : Type) :=
| Return (a : A)
| Throw (e : exn).
Arguments Return {A} a.
Arguments Throw {A} e.

Definition action (S A : Type) : Type := S -> outcome A * S.

Definition ret {S A} (a : A) : action S A := fun s => (Return a, s).

Definition and_then {S A B} (m : action S A) (k : A -> action S B) : action S B :=
  fun s =>
    match m s with
    | (Return a, s') => k a s'
    | (Throw e, s') => (Throw e, s')
    end.

Notation "'let*' x ':=' m 'in' k" := (and_then m (fun x => k))
  (at level 10, x name, m at level 100, k at level 200).

(** A SQL statement that writes: it fails as a whole or yields the new
    store. *)
Definition stmt (S : Type) : Type := S -> sql_error + S.

(** [await run(sql, params)] *)
Definition run {S} (q : stmt S) : action S unit :=
  fun s =>
    match q s with
    | inl e => (Throw (SqlError e), s)
    | inr s' => (Return tt, s')
    end.

(** [try { body } catch (error) { handler }] *)
Definition try_catch {S} (body : action S response) (handler : exn -> response)
  : S -> response * S :=
  fun s =>
    match body s with
    | (Return r, s') => (r, s')
    | (Throw e, s') => (handler e, s')
    end.

(** The catch block shared by all routes but registration. *)
Definition internal_error (e : exn) : response := fail 500 (message e).

(** ORDER BY as a stable insertion sort; SQLite leaves the order of ties
    open, the model keeps them in rowid order. *)
Fixpoint insert_sorted {A} (le : A -> A -> bool) (x : A) (l : list A) : list A :=
  match l with
  | [] => [x]
  | y :: l' => if le x y then x :: l else y :: insert_sorted le x l'
  end.

Definition order_by {A} (le : A -> A -> bool) (l : list A) : list A :=
  fold_right (insert_sorted le) [] l.

(** [a !== b] between a value read from a row and a body value: equal
    primitives of the same type; an array or object is never identical to
    a value read from the store. *)
Definition strict_eq (a b : jsval) : bool :=
  match a, b with
  | JUndefined, JUndefined | JNull, JNull => true
  | JBool x, JBool y => Bool.eqb x y
  | JNum x, JNum y => x =? y
  | JStr x, JStr y => String.eqb x y
  | _, _ => false
  end.

(** * The multi-user server ([src/server.js]) *)

Module Auth.

(** ** The store *)

(** [CREATE TABLE users]: id TEXT PRIMARY KEY, username TEXT UNIQUE NOT
    NULL, nickname and password TEXT NOT NULL, created_at. *)
Record user_row := {
  u_id : sqlval;
  u_username : sqlval;
  u_nickname : sqlval;
  u_password : sqlval;
  u_created_at : sqlval
}.

(** [CREATE TABLE projects]: id TEXT PRIMARY KEY, user_id and name TEXT NOT
    NULL, created_at. *)
Record project_row := {
  p_id : sqlval;
  p_user_id : sqlval;
  p_name : sqlval;
  p_created_at : sqlval
}.

(** [CREATE TABLE tasks]: id TEXT PRIMARY KEY, user_id, project_id and name
    TEXT NOT NULL, description TEXT, priority TEXT, deadline DATE NOT NULL,
    completed INTEGER DEFAULT 0, created_at. *)
Record task_row := {
  t_id : sqlval;
  t_user_id : sqlval;
  t_project_id : sqlval;
  t_name : sqlval;
  t_description : sqlval;
  t_priority : sqlval;
  t_deadline : sqlval;
  t_completed : sqlval;
  t_created_at : sqlval
}.

(** The three tables, each in rowid order, and the in-memory [sessions]
    map from token to user id. *)
Record state := {
  users : list user_row;
  projects : list project_row;
  tasks : list task_row;
  sessions : gmap string jsval
}.

Definition init : state :=
  {| users := []; projects := []; tasks := []; sessions := ∅ |}.

Definition with_users (f : list user_row -> list user_row) (s : state) : state :=
  {| users := f (users s); projects := projects s; tasks := tasks s;
     sessions := sessions s |}.

Definition with_projects (f : list project_row -> list project_row) (s : state) : state :=
  {| users := users s; projects := f (projects s); tasks := tasks s;
     sessions := sessions s |}.

Definition with_tasks (f : list task_row -> list task_row) (s : state) : state :=
  {| users := users s; projects := projects s; tasks := f (tasks s);
     sessions := sessions s |}.

Definition with_sessions (f : gmap string jsval -> gmap string jsval) (s : state) : state :=
  {| users := users s; projects := projects s; tasks := tasks s;
     sessions := f (sessions s) |}.

(** What a request reads from outside the program. *)
Record world := {
  date_now : Z;                      (* Date.now() *)
  current_timestamp : string;        (* CURRENT_TIMESTAMP *)
  random_bytes : list Byte.byte      (* crypto.randomBytes(32) *)
}.

(** Rows as the driver hands them to JavaScript. *)
Definition user_public (u : user_row) : jsval :=
  JObj [("id", to_js (u_id u)); ("username", to_js (u_username u));
        ("nickname", to_js (u_nickname u))].

Definition project_json (p : project_row) : jsval :=
  JObj [("id", to_js (p_id p)); ("user_id", to_js (p_user_id p));
        ("name", to_js (p_name p)); ("created_at", to_js (p_created_at p))].

Definition task_json (t : task_row) : jsval :=
  JObj [("id", to_js (t_id t)); ("user_id", to_js (t_user_id t));
        ("project_id", to_js (t_project_id t)); ("name", to_js (t_name t));
        ("description", to_js (t_description t));
        ("priority", to_js (t_priority t));
        ("deadline", to_js (t_deadline t));
        ("completed", to_js (t_completed t));
        ("created_at", to_js (t_created_at t))].

Section WithDriver.
Context {driver : SqlDriver}.

(** ** SQL statements of the source, one definition each *)

(** [INSERT INTO users (id, username, nickname, password) VALUES (?, ?, ?, ?)] *)
Definition insert_user (w : world) (id username nickname password : jsval)
  : stmt state := fun s =>
  let row := {| u_id := bind_text id; u_username := bind_text username;
                u_nickname := bind_text nickname;
                u_password := bind_text password;
                u_created_at := SText (current_timestamp w) |} in
  if is_null (u_username row) then inl (NotNullFailed "users.username")
  else if is_null (u_nickname row) then inl (NotNullFailed "users.nickname")
  else if is_null (u_password row) then inl (NotNullFailed "users.password")
  else if existsb (fun r => sql_eq (u_id r) (u_id row)) (users s)
    then inl (UniqueFailed "users.id")
  else if existsb (fun r => sql_eq (u_username r) (u_username row)) (users s)
    then inl (UniqueFailed "users.username")
  else inr (with_users (fun l => (l ++ [row])%list) s).

(** [SELECT * FROM users WHERE username = ?] *)
Definition select_user_by_username (username : jsval) (s : state) : option user_row :=
  find (fun r => sql_eq (u_username r) (bind_text username)) (users s).

(** [SELECT id, username, nickname FROM users WHERE id = ?] *)
Definition select_user_by_id (id : jsval) (s : state) : option user_row :=
  find (fun r => sql_eq (u_id r) (bind_text id)) (users s).

(** An UPDATE of one column: every row the WHERE clause selects gets the
    new value; a NULL for a NOT NULL column fails the statement when at
    least one row is selected. *)
Definition update_where {R} (sel : R -> bool) (upd : R -> R) (l : list R) : list R :=
  map (fun r => if sel r then upd r else r) l.

(** [UPDATE users SET nickname = ? WHERE id = ?] *)
Definition update_user_nickname (nickname id : jsval) : stmt state := fun s =>
  let sel r := sql_eq (u_id r) (bind_text id) in
  if existsb sel (users s) && is_null (bind_text nickname)
  then inl (NotNullFailed "users.nickname")
  else inr (with_users (update_where sel (fun r =>
         {| u_id := u_id r; u_username := u_username r;
            u_nickname := bind_text nickname; u_password := u_password r;
            u_created_at := u_created_at r |})) s).

(** [UPDATE users SET password = ? WHERE id = ?] *)
Definition update_user_password (password id : jsval) : stmt state := fun s =>
  let sel r := sql_eq (u_id r) (bind_text id) in
  if existsb sel (users s) && is_null (bind_text password)
  then inl (NotNullFailed "users.password")
  else inr (with_users (update_where sel (fun r =>
         {| u_id := u_id r; u_username := u_username r;
            u_nickname := u_nickname r; u_password := bind_text password;
            u_created_at := u_created_at r |})) s).

(** [SELECT * FROM projects WHERE user_id = ?] *)
Definition select_projects_of (userId : jsval) (s : state) : list project_row :=
  List.filter (fun r => sql_eq (p_user_id r) (bind_text userId)) (projects s).

(** [INSERT INTO projects (id, user_id, name) VALUES (?, ?, ?)] *)
Definition insert_project (w : world) (id userId name : jsval) : stmt state := fun s =>
  let row := {| p_id := bind_text id; p_user_id := bind_text userId;
                p_name := bind_text name;
                p_created_at := SText (current_timestamp w) |} in
  if is_null (p_user_id row) then inl (NotNullFailed "projects.user_id")
  else if is_null (p_name row) then inl (NotNullFailed "projects.name")
  else if existsb (fun r => sql_eq (p_id r) (p_id row)) (projects s)
    then inl (UniqueFailed "projects.id")
  else inr (with_projects (fun l => (l ++ [row])%list) s).

(** [SELECT * FROM projects WHERE id = ? AND user_id = ?] *)
Definition select_project (id userId : jsval) (s : state) : option project_row :=
  find (fun r => sql_eq (p_id r) (bind_text id) &&
                 sql_eq (p_user_id r) (bind_text userId)) (projects s).

(** [DELETE FROM tasks WHERE project_id = ?] *)
Definition delete_tasks_of_project (id : jsval) : stmt state := fun s =>
  inr (with_tasks
         (List.filter (fun r => negb (sql_eq (t_project_id r) (bind_text id)))) s).

(** [DELETE FROM projects WHERE id = ?] *)
Definition delete_project (id : jsval) : stmt state := fun s =>
  inr (with_projects
         (List.filter (fun r => negb (sql_eq (p_id r) (bind_text id)))) s).

(** [UPDATE projects SET name = ? WHERE id = ?] *)
Definition update_project_name (name id : jsval) : stmt state := fun s =>
  let sel r := sql_eq (p_id r) (bind_text id) in
  if existsb sel (projects s) && is_null (bind_text name)
  then inl (NotNullFailed "projects.name")
  else inr (with_projects (update_where sel (fun r =>
         {| p_id := p_id r; p_user_id := p_user_id r;
            p_name := bind_text name; p_created_at := p_created_at r |})) s).

(** [SELECT * FROM tasks WHERE user_id = ?] *)
Definition select_tasks_of (userId : jsval) (s : state) : list task_row :=
  List.filter (fun r => sql_eq (t_user_id r) (bind_text userId)) (tasks s).

(** [SELECT * FROM tasks WHERE user_id = ? AND project_id = ?] *)
Definition select_tasks_of_in (userId project_id : jsval) (s : state) : list task_row :=
  List.filter (fun r => sql_eq (t_user_id r) (bind_text userId) &&
                        sql_eq (t_project_id r) (bind_text project_id)) (tasks s).

(** [INSERT INTO tasks (id, user_id, project_id, name, description,
    priority, deadline) VALUES (?, ?, ?, ?, ?, ?, ?)]; [completed] takes
    its default 0. *)
Definition insert_task (w : world)
    (id userId project_id name description priority deadline : jsval)
  : stmt state := fun s =>
  let row := {| t_id := bind_text id; t_user_id := bind_text userId;
                t_project_id := bind_text project_id;
                t_name := bind_text name;
                t_description := bind_text description;
                t_priority := bind_text priority;
                t_deadline := bind_numeric deadline;
                t_completed := SInt 0;
                t_created_at := SText (current_timestamp w) |} in
  if is_null (t_user_id row) then inl (NotNullFailed "tasks.user_id")
  else if is_null (t_project_id row) then inl (NotNullFailed "tasks.project_id")
  else if is_null (t_name row) then inl (NotNullFailed "tasks.name")
  else if is_null (t_deadline row) then inl (NotNullFailed "tasks.deadline")
  else if existsb (fun r => sql_eq (t_id r) (t_id row)) (tasks s)
    then inl (UniqueFailed "tasks.id")
  else inr (with_tasks (fun l => (l ++ [row])%list) s).

(** [SELECT * FROM tasks WHERE id = ? AND user_id = ?] *)
Definition select_task (id userId : jsval) (s : state) : option task_row :=
  find (fun r => sql_eq (t_id r) (bind_text id) &&
                 sql_eq (t_user_id r) (bind_text userId)) (tasks s).

(** [UPDATE tasks SET name = ?, description = ?, priority = ?,
    deadline = ?, completed = ?, project_id = ? WHERE id = ?]; SQLite
    checks NOT NULL in the order of the table's columns: [project_id],
    [name], [deadline]. *)
Definition update_task (name description priority deadline completed project_id id : jsval)
  : stmt state := fun s =>
  let sel r := sql_eq (t_id r) (bind_text id) in
  if existsb sel (tasks s) && is_null (bind_text project_id)
  then inl (NotNullFailed "tasks.project_id")
  else if existsb sel (tasks s) && is_null (bind_text name)
  then inl (NotNullFailed "tasks.name")
  else if existsb sel (tasks s) && is_null (bind_numeric deadline)
  then inl (NotNullFailed "tasks.deadline")
  else inr (with_tasks (update_where sel (fun r =>
         {| t_id := t_id r; t_user_id := t_user_id r;
            t_project_id := bind_text project_id;
            t_name := bind_text name;
            t_description := bind_text description;
            t_priority := bind_text priority;
            t_deadline := bind_numeric deadline;
            t_completed := bind_numeric completed;
            t_created_at := t_created_at r |})) s).

(** [UPDATE tasks SET completed = ? WHERE id = ?] *)
Definition update_task_completed (completed id : jsval) : stmt state := fun s =>
  let sel r := sql_eq (t_id r) (bind_text id) in
  inr (with_tasks (update_where sel (fun r =>
         {| t_id := t_id r; t_user_id := t_user_id r;
            t_project_id := t_project_id r; t_name := t_name r;
            t_description := t_description r; t_priority := t_priority r;
            t_deadline := t_deadline r;
            t_completed := bind_numeric completed;
            t_created_at := t_created_at r |})) s).

(** [DELETE FROM tasks WHERE id = ?] *)
Definition delete_task (id : jsval) : stmt state := fun s =>
  inr (with_tasks
         (List.filter (fun r => negb (sql_eq (t_id r) (bind_text id)))) s).

(** [await get(...)], [await all(...)]: a read of the store. *)
Definition query {A} (q : state -> A) : action state A :=
  fun s => (Return (q s), s).

(** ** The authorization gate *)

(** [req.headers.authorization?.replace('Bearer ', '')]; [None] is
    [undefined], the header being absent. *)
Definition bearer_token (authorization : option string) : option string :=
  js_replace "Bearer " EmptyString <$> authorization.

Definition unauthorized : response := fail 401 "Unauthorized".

(** [requireAuth(req, res, next)]: [next] receives [req.userId]. *)
Definition requireAuth (authorization : option string)
    (next : jsval -> state -> response * state) : state -> response * state :=
  fun s =>
    match bearer_token authorization with
    | None => (unauthorized, s)
    | Some token =>
        if String.eqb token EmptyString then (unauthorized, s)
        else match sessions s !! token with
             | None => (unauthorized, s)
             | Some userId => next userId s
             end
    end.

(** ** Auth routes *)

(** [POST /api/auth/register] *)
Definition register (w : world) (body : jsobject) : state -> response * state :=
  let username := field body "username" in
  let nickname := field body "nickname" in
  let password := field body "password" in
  try_catch
    (if negb (truthy username) || negb (truthy nickname) || negb (truthy password)
     then ret (fail 400 "All fields required")
     else
       let id := JStr ("u" +:+ Z_to_string (date_now w)) in
       let hashedPassword := password in
       let* _ := run (insert_user w id username nickname hashedPassword) in
       ret (json (JObj [("id", id); ("username", username);
                        ("nickname", nickname)])))
    (fun error =>
       if js_includes "UNIQUE constraint" (message error)
       then fail 400 "Username already exists"
       else fail 500 (message error)).

(** [POST /api/auth/login] *)
Definition login (w : world) (body : jsobject) : state -> response * state :=
  let username := field body "username" in
  let password := field body "password" in
  try_catch
    (let* user := query (select_user_by_username username) in
     match user with
     | None => ret (fail 401 "Invalid credentials")
     | Some user =>
         if negb (strict_eq (to_js (u_password user)) password)
         then ret (fail 401 "Invalid credentials")
         else
           let token := to_hex (random_bytes w) in
           fun s =>
             (Return (json (JObj [("token", JStr token);
                                  ("user", user_public user)])),
              with_sessions (insert token (to_js (u_id user))) s)
     end)
    internal_error.

(** The handlers behind [requireAuth] take [req.userId] as their first
    argument. *)

(** [POST /api/auth/logout] *)
Definition logout (authorization : option string) (userId : jsval)
  : state -> response * state := fun s =>
  match bearer_token authorization with
  | Some token => (json success, with_sessions (delete token) s)
  | None => (json success, s)
  end.

(** [GET /api/auth/me] *)
Definition me (userId : jsval) : state -> response * state :=
  try_catch
    (let* user := query (select_user_by_id userId) in
     ret (json (match user with
                | Some u => user_public u
                | None => JUndefined
                end)))
    internal_error.

(** [PUT /api/auth/profile] *)
Definition profile (userId : jsval) (body : jsobject) : state -> response * state :=
  let nickname := field body "nickname" in
  let password := field body "password" in
  try_catch
    (let* _ := (if truthy nickname
                then run (update_user_nickname nickname userId)
                else ret tt) in
     let* _ := (if truthy password
                then run (update_user_password password userId)
                else ret tt) in
     ret (json success))
    internal_error.

(** ** Project routes *)

(** [GET /api/projects] *)
Definition list_projects (userId : jsval) : state -> response * state :=
  try_catch
    (let* projects := query (fun s =>
         order_by (fun a b => sql_leb (p_created_at b) (p_created_at a))
                  (select_projects_of userId s)) in
     ret (json (JArr (map project_json projects))))
    internal_error.

(** [POST /api/projects] *)
Definition create_project (w : world) (userId : jsval) (body : jsobject)
  : state -> response * state :=
  let name := field body "name" in
  let id := JStr ("p" +:+ Z_to_string (date_now w)) in
  try_catch
    (let* _ := run (insert_project w id userId name) in
     ret (json (JObj [("id", id); ("name", name)])))
    internal_error.

(** [DELETE /api/projects/:id] *)
Definition remove_project (userId : jsval) (id : string) : state -> response * state :=
  try_catch
    (let* project := query (select_project (JStr id) userId) in
     match project with
     | None => ret (fail 404 "Project not found")
     | Some _ =>
         let* _ := run (delete_tasks_of_project (JStr id)) in
         let* _ := run (delete_project (JStr id)) in
         ret (json success)
     end)
    internal_error.

(** [PUT /api/projects/:id] *)
Definition rename_project (userId : jsval) (id : string) (body : jsobject)
  : state -> response * state :=
  let name := field body "name" in
  try_catch
    (let* project := query (select_project (JStr id) userId) in
     match project with
     | None => ret (fail 404 "Project not found")
     | Some _ =>
         let* _ := run (update_project_name name (JStr id)) in
         ret (json (JObj [("id", JStr id); ("name", name)]))
     end)
    internal_error.

(** ** Task routes *)

(** [GET /api/tasks]; [project_id] is [req.query.project_id]. *)
Definition list_tasks (userId : jsval) (project_id : option string)
  : state -> response * state :=
  try_catch
    (let by_deadline a b := sql_leb (t_deadline a) (t_deadline b) in
     let* tasks :=
       match project_id with
       | Some p =>
           if negb (String.eqb p EmptyString)
           then query (fun s => order_by by_deadline
                                  (select_tasks_of_in userId (JStr p) s))
           else query (fun s => order_by by_deadline (select_tasks_of userId s))
       | None => query (fun s => order_by by_deadline (select_tasks_of userId s))
       end in
     ret (json (JArr (map task_json tasks))))
    internal_error.

(** [POST /api/tasks] *)
Definition create_task (w : world) (userId : jsval) (body : jsobject)
  : state -> response * state :=
  let id := field body "id" in
  let project_id := field body "project_id" in
  let name := field body "name" in
  let description := field body "description" in
  let priority := field body "priority" in
  let deadline := field body "deadline" in
  try_catch
    (let* project := query (select_project project_id userId) in
     match project with
     | None => ret (fail 400 "Invalid project")
     | Some _ =>
         let* _ := run (insert_task w id userId project_id name
                          (js_or description (JStr EmptyString)) priority deadline) in
         ret (json (JObj [("id", id); ("project_id", project_id);
                          ("name", name); ("description", description);
                          ("priority", priority); ("deadline", deadline);
                          ("completed", JNum 0)]))
     end)
    internal_error.

(** [PUT /api/tasks/:id] *)
Definition put_task (userId : jsval) (id : string) (body : jsobject)
  : state -> response * state :=
  let name := field body "name" in
  let description := field body "description" in
  let priority := field body "priority" in
  let deadline := field body "deadline" in
  let completed := field body "completed" in
  let project_id := field body "project_id" in
  let flag := JNum (if truthy completed then 1 else 0) in
  try_catch
    (let* task := query (select_task (JStr id) userId) in
     match task with
     | None => ret (fail 404 "Task not found")
     | Some _ =>
         let* _ := run (update_task name description priority deadline
                          flag project_id (JStr id)) in
         ret (json (JObj [("id", JStr id); ("project_id", project_id);
                          ("name", name); ("description", description);
                          ("priority", priority); ("deadline", deadline);
                          ("completed", flag)]))
     end)
    internal_error.

(** [PATCH /api/tasks/:id/toggle] *)
Definition toggle_task (userId : jsval) (id : string) : state -> response * state :=
  try_catch
    (let* task := query (select_task (JStr id) userId) in
     match task with
     | None => ret (fail 404 "Task not found")
     | Some task =>
         let newStatus := JNum (if truthy (to_js (t_completed task)) then 0 else 1) in
         let* _ := run (update_task_completed newStatus (JStr id)) in
         ret (json (JObj [("success", JBool true); ("completed", newStatus)]))
     end)
    internal_error.

(** [DELETE /api/tasks/:id] *)
Definition remove_task (userId : jsval) (id : string) : state -> response * state :=
  try_catch
    (let* task := query (select_task (JStr id) userId) in
     match task with
     | None => ret (fail 404 "Task not found")
     | Some _ =>
         let* _ := run (delete_task (JStr id)) in
         ret (json success)
     end)
    internal_error.

(** [GET /api/export] *)
Definition export (userId : jsval) : state -> response * state :=
  try_catch
    (let* projects := query (select_projects_of userId) in
     let* tasks := query (select_tasks_of userId) in
     ret {| status := 200;
            headers := [("Content-Type", "application/json");
                        ("Content-Disposition",
                         "attachment; filename=" +:+ String "034"%char
                           ("taskflow-backup.json" +:+ String "034"%char EmptyString))];
            body := JObj [("projects", JArr (map project_json projects));
                          ("tasks", JArr (map task_json tasks))] |})
    internal_error.

(** ** The API as a transition system *)

(** The routes registered with [requireAuth] in front. *)
Inductive call :=
| Logout
| Me
| Profile (body : jsobject)
| ListProjects
| CreateProject (body : jsobject)
| DeleteProject (id : string)
| UpdateProject (id : string) (body : jsobject)
| ListTasks (project_id : option string)
| CreateTask (body : jsobject)
| UpdateTask (id : string) (body : jsobject)
| ToggleTask (id : string)
| DeleteTask (id : string)
| Export.

Inductive request :=
| Register (body : jsobject)
| Login (body : jsobject)
| Protected (authorization : option string) (c : call).

(** The handler of a protected route, run by [next()] with
    [req.userId] set. *)
Definition handler (w : world) (authorization : option string) (c : call)
    (userId : jsval) : state -> response * state :=
  match c with
  | Logout => logout authorization userId
  | Me => me userId
  | Profile body => profile userId body
  | ListProjects => list_projects userId
  | CreateProject body => create_project w userId body
  | DeleteProject id => remove_project userId id
  | UpdateProject id body => rename_project userId id body
  | ListTasks p => list_tasks userId p
  | CreateTask body => create_task w userId body
  | UpdateTask id body => put_task userId id body
  | ToggleTask id => toggle_task userId id
  | DeleteTask id => remove_task userId id
  | Export => export userId
  end.

Definition handle (w : world) (r : request) : state -> response * state :=
  match r with
  | Register body => register w body
  | Login body => login w body
  | Protected authorization c =>
      requireAuth authorization (handler w authorization c)
  end.

(** [crypto.randomBytes(32)] yields 32 bytes. *)
Definition world_ok (w : world) : Prop := length (random_bytes w) = 32%nat.

(** A restart of the process: the database file stays, [sessions] is a
    fresh empty map. *)
Definition restart (s : state) : state := with_sessions (fun _ => ∅) s.

(** The states of a server started on an empty database: it serves
    requests and may be restarted. *)
Inductive reachable : state -> Prop :=
| reachable_init : reachable init
| reachable_step s w r :
    reachable s -> world_ok w -> reachable (snd (handle w r s))
| reachable_restart s :
    reachable s -> reachable (restart s).

(** Running a list of requests, for concrete scenarios. *)
Fixpoint run_trace (tr : list (world * request)) (s : state) : state :=
  match tr with
  | [] => s
  | (w, r) :: tr' => run_trace tr' (snd (handle w r s))
  end.

(** The user a request is made as: the registry's entry for the token
    left after the first [Bearer ] is cut from the header, if the header
    is there, the token is not empty and the registry has it. *)
Definition caller (s : state) (authorization : option string) : option jsval :=
  match bearer_token authorization with
  | None => None
  | Some token =>
      if String.eqb token EmptyString then None else sessions s !! token
  end.

(** ** Predicates on the store *)

(** The project a task points to exists and has the task's owner. *)
Definition project_of_owner (s : state) (t : task_row) : bool :=
  existsb (fun p => sql_eq (p_id p) (t_project_id t) &&
                    sql_eq (p_user_id p) (t_user_id t)) (projects s).

(** The data model's invariant: every task's project belongs to the
    task's user. *)
Definition tasks_in_own_projects (s : state) : bool :=
  forallb (project_of_owner s) (tasks s).

(** The same, as a proposition over the two tables. *)
Definition owned_tasks (ps : list project_row) (ts : list task_row) : Prop :=
  forall t, In t ts ->
  exists p, In p ps /\
            sql_eq (p_id p) (t_project_id t) = true /\
            sql_eq (p_user_id p) (t_user_id t) = true.

(** The one route that rewrites a task's [project_id]. *)
Definition is_task_update (r : request) : bool :=
  match r with
  | Protected _ (UpdateTask _ _) => true
  | _ => false
  end.

(** The completed flag is 0 or 1. *)
Definition is_flag (v : sqlval) : bool :=
  sqlval_eqb v (SInt 0) || sqlval_eqb v (SInt 1).

Definition hex_char (c : ascii) : bool :=
  let n := nat_of_ascii c in
  ((48 <=? n) && (n <=? 57) || (97 <=? n) && (n <=? 102))%nat.

Fixpoint hex_string (s : string) : bool :=
  match s with
  | EmptyString => true
  | String c s' => hex_char c && hex_string s'
  end.

(** What holds of every store the server can reach: the keys SQLite
    keeps unique, the two values of the completed flag, and the shape of
    the tokens [login] issues. *)
Record consistent (s : state) : Prop := {
  user_ids_unique : unique_keys (map u_id (users s)) = true;
  usernames_unique : unique_keys (map u_username (users s)) = true;
  project_ids_unique : unique_keys (map p_id (projects s)) = true;
  task_ids_unique : unique_keys (map t_id (tasks s)) = true;
  task_flags : forallb (fun t => is_flag (t_completed t)) (tasks s) = true;
  session_tokens : forall token userId,
      sessions s !! token = Some userId ->
      hex_string token = true /\ String.length token = 64%nat
}.

(** The rows of a project and of a user, for counting. *)
Definition in_project (id : sqlval) (t : task_row) : bool :=
  sql_eq (t_project_id t) id.

Definition owned_by (userId : sqlval) (t : task_row) : bool :=
  sql_eq (t_user_id t) userId.

(** Every user row has a text id, and every session is that of a user
    row: the registry holds the row's id. *)
Definition sessions_known (s : state) : Prop :=
  (forall u, In u (users s) -> is_text (u_id u) = true) /\
  (forall token userId, sessions s !! token = Some userId ->
     exists u, In u (users s) /\ userId = to_js (u_id u)).

(** A row of somebody else than [userId]. *)
Definition foreign_project (userId : jsval) (p : project_row) : Prop :=
  sql_eq (p_user_id p) (bind_text userId) = false.

Definition foreign_task (userId : jsval) (t : task_row) : Prop :=
  sql_eq (t_user_id t) (bind_text userId) = false.

Definition foreign_user (userId : jsval) (u : user_row) : Prop :=
  sql_eq (u_id u) (bind_text userId) = false.

(** The rows of everybody else than [userId] are the same in [s] and
    [s']: none is added, removed or changed. *)
Definition spared (userId : jsval) (s s' : state) : Prop :=
  (forall u, foreign_user userId u -> (In u (users s') <-> In u (users s))) /\
  (forall p, foreign_project userId p ->
     (In p (projects s') <-> In p (projects s))) /\
  (forall t, foreign_task userId t -> (In t (tasks s') <-> In t (tasks s))).

(** The order of the two listings. *)
Definition newest_first (a b : project_row) : Prop :=
  sql_leb (p_created_at b) (p_created_at a) = true.

Definition soonest_first (a b : task_row) : Prop :=
  sql_leb (t_deadline a) (t_deadline b) = true.

(** Whether [userId] owns a project with key [id]. *)
Definition owns_project (s : state) (userId id : sqlval) : bool :=
  existsb (fun p => sql_eq (p_id p) id && sql_eq (p_user_id p) userId)
          (projects s).

End WithDriver.

End Auth.

(** * The single-tenant server ([src/unnamed/part_000]) *)

Module Legacy.

(** [CREATE TABLE projects]: id TEXT PRIMARY KEY, name TEXT NOT NULL,
    created_at. *)
Record project_row := {
  p_id : sqlval;
  p_name : sqlval;
  p_created_at : sqlval
}.

(** [CREATE TABLE tasks]: id TEXT PRIMARY KEY, project_id and name TEXT NOT
    NULL, description TEXT, priority TEXT, deadline DATE NOT NULL, completed
    INTEGER DEFAULT 0, created_at. *)
Record task_row := {
  t_id : sqlval;
  t_project_id : sqlval;
  t_name : sqlval;
  t_description : sqlval;
  t_priority : sqlval;
  t_deadline : sqlval;
  t_completed : sqlval;
  t_created_at : sqlval
}.

Record state := {
  projects : list project_row;
  tasks : list task_row
}.

Definition with_projects (f : list project_row -> list project_row) (s : state) : state :=
  {| projects := f (projects s); tasks := tasks s |}.

Definition with_tasks (f : list task_row -> list task_row) (s : state) : state :=
  {| projects := projects s; tasks := f (tasks s) |}.

Record world := {
  current_timestamp : string;    (* CURRENT_TIMESTAMP *)
  iso_string : string;           (* new Date().toISOString(), for exportedAt *)
  iso_string_again : string      (* the same, read again for the file name *)
}.

Definition project_json (p : project_row) : jsval :=
  JObj [("id", to_js (p_id p)); ("name", to_js (p_name p));
        ("created_at", to_js (p_created_at p))].

Definition task_json (t : task_row) : jsval :=
  JObj [("id", to_js (t_id t)); ("project_id", to_js (t_project_id t));
        ("name", to_js (t_name t)); ("description", to_js (t_description t));
        ("priority", to_js (t_priority t)); ("deadline", to_js (t_deadline t));
        ("completed", to_js (t_completed t));
        ("created_at", to_js (t_created_at t))].

(** [s.split('T')[0]] *)
Fixpoint before_T (s : string) : string :=
  match s with
  | EmptyString => EmptyString
  | String c s' => if Ascii.eqb c "T" then EmptyString else String c (before_T s')
  end.



Section WithDriver.
Context {driver : SqlDriver}.

Definition query {A} (q : state -> A) : action state A :=
  fun s => (Return (q s), s).

(** [v.k] inside a [try] block: reading a property of [null] or
    [undefined] throws. *)
Definition member (v : jsval) (k : string) : action state jsval :=
  fun s =>
    match prop v k with
    | Some x => (Return x, s)
    | None =>
        (Throw (TypeError
           ("Cannot read properties of " +:+
            (match v with JNull => "null" | _ => "undefined" end) +:+
            " (reading '" +:+ k +:+ "')")), s)
    end.

(** [INSERT INTO projects (id, name) VALUES (?, ?)] *)
Definition insert_project (w : world) (id name : jsval) : stmt state := fun s =>
  let row := {| p_id := bind_text id; p_name := bind_text name;
                p_created_at := SText (current_timestamp w) |} in
  if is_null (p_name row) then inl (NotNullFailed "projects.name")
  else if existsb (fun r => sql_eq (p_id r) (p_id row)) (projects s)
    then inl (UniqueFailed "projects.id")
  else inr (with_projects (fun l => (l ++ [row])%list) s).

(** [DELETE FROM tasks WHERE project_id = ?] *)
Definition delete_tasks_of_project (id : jsval) : stmt state := fun s =>
  inr (with_tasks
         (List.filter (fun r => negb (sql_eq (t_project_id r) (bind_text id)))) s).

(** [DELETE FROM projects WHERE id = ?] *)
Definition delete_project (id : jsval) : stmt state := fun s =>
  inr (with_projects
         (List.filter (fun r => negb (sql_eq (p_id r) (bind_text id)))) s).

(** [DELETE FROM tasks] *)
Definition delete_all_tasks : stmt state := fun s =>
  inr (with_tasks (fun _ => []) s).

(** [DELETE FROM projects] *)
Definition delete_all_projects : stmt state := fun s =>
  inr (with_projects (fun _ => []) s).

(** The NOT NULL and PRIMARY KEY checks of an INSERT INTO tasks. *)
Definition add_task (row : task_row) : stmt state := fun s =>
  if is_null (t_project_id row) then inl (NotNullFailed "tasks.project_id")
  else if is_null (t_name row) then inl (NotNullFailed "tasks.name")
  else if is_null (t_deadline row) then inl (NotNullFailed "tasks.deadline")
  else if existsb (fun r => sql_eq (t_id r) (t_id row)) (tasks s)
    then inl (UniqueFailed "tasks.id")
  else inr (with_tasks (fun l => (l ++ [row])%list) s).

(** [INSERT INTO tasks (id, project_id, name, description, priority,
    deadline) VALUES (?, ?, ?, ?, ?, ?)]; [completed] takes its default. *)
Definition insert_task (w : world)
    (id project_id name description priority deadline : jsval) : stmt state :=
  add_task {| t_id := bind_text id; t_project_id := bind_text project_id;
              t_name := bind_text name;
              t_description := bind_text description;
              t_priority := bind_text priority;
              t_deadline := bind_numeric deadline;
              t_completed := SInt 0;
              t_created_at := SText (current_timestamp w) |}.

(** [INSERT INTO tasks (id, project_id, name, description, priority,
    deadline, completed) VALUES (?, ?, ?, ?, ?, ?, ?)] *)
Definition insert_task_completed (w : world)
    (id project_id name description priority deadline completed : jsval)
  : stmt state :=
  add_task {| t_id := bind_text id; t_project_id := bind_text project_id;
              t_name := bind_text name;
              t_description := bind_text description;
              t_priority := bind_text priority;
              t_deadline := bind_numeric deadline;
              t_completed := bind_numeric completed;
              t_created_at := SText (current_timestamp w) |}.

(** [UPDATE tasks SET name = ?, description = ?, priority = ?,
    deadline = ?, completed = ?, project_id = ? WHERE id = ?]; SQLite
    checks NOT NULL in the order of the table's columns: [project_id],
    [name], [deadline]. *)
Definition update_task (name description priority deadline completed project_id id : jsval)
  : stmt state := fun s =>
  let sel r := sql_eq (t_id r) (bind_text id) in
  if existsb sel (tasks s) && is_null (bind_text project_id)
  then inl (NotNullFailed "tasks.project_id")
  else if existsb sel (tasks s) && is_null (bind_text name)
  then inl (NotNullFailed "tasks.name")
  else if existsb sel (tasks s) && is_null (bind_numeric deadline)
  then inl (NotNullFailed "tasks.deadline")
  else inr (with_tasks (map (fun r => if sel r then
         {| t_id := t_id r;
            t_project_id := bind_text project_id;
            t_name := bind_text name;
            t_description := bind_text description;
            t_priority := bind_text priority;
            t_deadline := bind_numeric deadline;
            t_completed := bind_numeric completed;
            t_created_at := t_created_at r |} else r)) s).

(** [UPDATE tasks SET completed = ? WHERE id = ?] *)
Definition update_task_completed (completed id : jsval) : stmt state := fun s =>
  let sel r := sql_eq (t_id r) (bind_text id) in
  inr (with_tasks (map (fun r => if sel r then
         {| t_id := t_id r; t_project_id := t_project_id r;
            t_name := t_name r; t_description := t_description r;
            t_priority := t_priority r; t_deadline := t_deadline r;
            t_completed := bind_numeric completed;
            t_created_at := t_created_at r |} else r)) s).

(** [DELETE FROM tasks WHERE id = ?] *)
Definition delete_task (id : jsval) : stmt state := fun s =>
  inr (with_tasks
         (List.filter (fun r => negb (sql_eq (t_id r) (bind_text id)))) s).

(** ** Routes *)

(** [GET /api/projects] *)
Definition list_projects : state -> response * state :=
  try_catch
    (let* projects := query (fun s =>
         order_by (fun a b => sql_leb (p_created_at b) (p_created_at a))
                  (projects s)) in
     ret (json (JArr (map project_json projects))))
    internal_error.

(** [POST /api/projects] *)
Definition create_project (w : world) (body : jsobject) : state -> response * state :=
  let id := field body "id" in
  let name := field body "name" in
  try_catch
    (let* _ := run (insert_project w id name) in
     ret (json (JObj [("id", id); ("name", name)])))
    internal_error.

(** [DELETE /api/projects/:id] *)
Definition remove_project (id : string) : state -> response * state :=
  try_catch
    (let* _ := run (delete_tasks_of_project (JStr id)) in
     let* _ := run (delete_project (JStr id)) in
     ret (json success))
    internal_error.

(** [GET /api/tasks] *)
Definition list_tasks (project_id : option string) : state -> response * state :=
  try_catch
    (let by_deadline a b := sql_leb (t_deadline a) (t_deadline b) in
     let* tasks :=
       match project_id with
       | Some p =>
           if negb (String.eqb p EmptyString)
           then query (fun s => order_by by_deadline
                     (List.filter (fun r => sql_eq (t_project_id r) (bind_text (JStr p)))
                                  (tasks s)))
           else query (fun s => order_by by_deadline (tasks s))
       | None => query (fun s => order_by by_deadline (tasks s))
       end in
     ret (json (JArr (map task_json tasks))))
    internal_error.

(** [POST /api/tasks] *)
Definition create_task (w : world) (body : jsobject) : state -> response * state :=
  let id := field body "id" in
  let project_id := field body "project_id" in
  let name := field body "name" in
  let description := field body "description" in
  let priority := field body "priority" in
  let deadline := field body "deadline" in
  try_catch
    (let* _ := run (insert_task w id project_id name
                      (js_or description (JStr EmptyString)) priority deadline) in
     ret (json (JObj [("id", id); ("project_id", project_id);
                      ("name", name); ("description", description);
                      ("priority", priority); ("deadline", deadline);
                      ("completed", JNum 0)])))
    internal_error.

(** [PUT /api/tasks/:id] *)
Definition put_task (id : string) (body : jsobject) : state -> response * state :=
  let name := field body "name" in
  let description := field body "description" in
  let priority := field body "priority" in
  let deadline := field body "deadline" in
  let completed := field body "completed" in
  let project_id := field body "project_id" in
  let flag := JNum (if truthy completed then 1 else 0) in
  try_catch
    (let* _ := run (update_task name description priority deadline
                      flag project_id (JStr id)) in
     ret (json (JObj [("id", JStr id); ("project_id", project_id);
                      ("name", name); ("description", description);
                      ("priority", priority); ("deadline", deadline);
                      ("completed", flag)])))
    internal_error.

(** [PATCH /api/tasks/:id/toggle] *)
Definition toggle_task (id : string) : state -> response * state :=
  try_catch
    (let* task := query (fun s =>
         List.filter (fun r => sql_eq (t_id r) (bind_text (JStr id))) (tasks s)) in
     match task with
     | task0 :: _ =>
         let newStatus := JNum (if truthy (to_js (t_completed task0)) then 0 else 1) in
         let* _ := run (update_task_completed newStatus (JStr id)) in
         ret (json (JObj [("success", JBool true); ("completed", newStatus)]))
     | [] => ret (fail 404 "Task not found")
     end)
    internal_error.

(** [DELETE /api/tasks/:id] *)
Definition remove_task (id : string) : state -> response * state :=
  try_catch
    (let* _ := run (delete_task (JStr id)) in
     ret (json success))
    internal_error.

(** [GET /api/export] *)
Definition export (w : world) : state -> response * state :=
  try_catch
    (let* projects := query projects in
     let* tasks := query tasks in
     let data := JObj [("projects", JArr (map project_json projects));
                       ("tasks", JArr (map task_json tasks));
                       ("exportedAt", JStr (iso_string w))] in
     ret {| status := 200;
            headers := [("Content-Type", "application/json");
                        ("Content-Disposition",
                         "attachment; filename=" +:+ String "034"%char
                           ("taskflow-backup-" +:+ before_T (iso_string_again w)
                              +:+ ".json" +:+ String "034"%char EmptyString))];
            body := data |})
    internal_error.

(** [for (const p of projects) await run('INSERT INTO projects ...')] *)
Fixpoint import_projects (w : world) (ps : list jsval) : action state unit :=
  match ps with
  | [] => ret tt
  | p :: rest =>
      let* id := member p "id" in
      let* name := member p "name" in
      let* _ := run (insert_project w id name) in
      import_projects w rest
  end.

(** [for (const t of tasks) await run('INSERT INTO tasks ...')] *)
Fixpoint import_tasks (w : world) (ts : list jsval) : action state unit :=
  match ts with
  | [] => ret tt
  | t :: rest =>
      let* id := member t "id" in
      let* project_id := member t "project_id" in
      let* name := member t "name" in
      let* description := member t "description" in
      let* priority := member t "priority" in
      let* deadline := member t "deadline" in
      let* completed := member t "completed" in
      let* _ := run (insert_task_completed w id project_id name description
                       priority deadline completed) in
      import_tasks w rest
  end.

(** [POST /api/import] *)
Definition import (w : world) (body : jsobject) : state -> response * state :=
  let projects := field body "projects" in
  let tasks := field body "tasks" in
  try_catch
    (match projects, tasks with
     | JArr ps, JArr ts =>
         let* _ := run delete_all_tasks in
         let* _ := run delete_all_projects in
         let* _ := import_projects w ps in
         let* _ := import_tasks w ts in
         ret (json success)
     | _, _ => ret (fail 400 "Invalid data format")
     end)
    internal_error.


Inductive request :=
| ListProjects
| CreateProject (body : jsobject)
| DeleteProject (id : string)
| ListTasks (project_id : option string)
| CreateTask (body : jsobject)
| UpdateTask (id : string) (body : jsobject)
| ToggleTask (id : string)
| DeleteTask (id : string)
| Export
| Import (body : jsobject).

Definition handle (w : world) (r : request) : state -> response * state :=
  match r with
  | ListProjects => list_projects
  | CreateProject body => create_project w body
  | DeleteProject id => remove_project id
  | ListTasks p => list_tasks p
  | CreateTask body => create_task w body
  | UpdateTask id body => put_task id body
  | ToggleTask id => toggle_task id
  | DeleteTask id => remove_task id
  | Export => export w
  | Import body => import w body
  end.

(** The rows an import writes, read off the supplied array elements: a
    property the element lacks is [undefined], bound as NULL. *)
Definition element_prop (v : jsval) (k : string) : jsval :=
  match prop v k with
  | Some x => x
  | None => JUndefined
  end.

Definition project_row_of (w : world) (p : jsval) : project_row :=
  {| p_id := bind_text (element_prop p "id");
     p_name := bind_text (element_prop p "name");
     p_created_at := SText (current_timestamp w) |}.

Definition task_row_of (w : world) (t : jsval) : task_row :=
  {| t_id := bind_text (element_prop t "id");
     t_project_id := bind_text (element_prop t "project_id");
     t_name := bind_text (element_prop t "name");
     t_description := bind_text (element_prop t "description");
     t_priority := bind_text (element_prop t "priority");
     t_deadline := bind_numeric (element_prop t "deadline");
     t_completed := bind_numeric (element_prop t "completed");
     t_created_at := SText (current_timestamp w) |}.

Definition empty : state := {| projects := []; tasks := [] |}.

(** ** The constraints of the schema *)

(** A value as a TEXT column holds it: NULL or text. *)
Definition text_stored (v : sqlval) : bool := negb (is_int v).

(** A value as an INTEGER or DATE column holds it. *)
Definition numeric_stored (v : sqlval) : bool :=
  sqlval_eqb (numeric_affinity v) v.

Definition project_ok (p : project_row) : bool :=
  text_stored (p_id p) && is_text (p_name p).

Definition task_ok (t : task_row) : bool :=
  text_stored (t_id t) && is_text (t_project_id t) && is_text (t_name t) &&
  text_stored (t_description t) && text_stored (t_priority t) &&
  numeric_stored (t_deadline t) && negb (is_null (t_deadline t)) &&
  numeric_stored (t_completed t).

(** What SQLite guarantees of the two tables at any time: the column
    affinities, NOT NULL and PRIMARY KEY. *)
Definition schema_ok (s : state) : bool :=
  forallb project_ok (projects s) && unique_keys (map p_id (projects s)) &&
  forallb task_ok (tasks s) && unique_keys (map t_id (tasks s)).



End WithDriver.

End Legacy.

(** * A sample session *)

(** Two users, each with a session and a project; Bob has one task. *)
Module Scenario.
Import Auth.

Definition world_at (now : Z) (b : Byte.byte) : world :=
  {| date_now := now;
     current_timestamp := "2025-06-01 10:00:00";
     random_bytes := repeat b 32 |}.

Definition alice_world : world := world_at 1000 Byte.x0a.
Definition bob_world : world := world_at 2000 Byte.xb0.

Definition alice_token : string := to_hex (random_bytes alice_world).
Definition bob_token : string := to_hex (random_bytes bob_world).

Definition as_alice : option string := Some ("Bearer " +:+ alice_token).
Definition as_bob : option string := Some ("Bearer " +:+ bob_token).

Definition alice : jsval := JStr "u1000".
Definition bob : jsval := JStr "u2000".

Definition credentials (username nickname password : string) : jsobject :=
  [("username", JStr username); ("nickname", JStr nickname);
   ("password", JStr password)].

Definition new_task (id project_id : string) : jsobject :=
  [("id", JStr id); ("project_id", JStr project_id); ("name", JStr "Report");
   ("priority", JStr "high"); ("deadline", JStr "2025-12-31")].

Definition setup : list (world * request) :=
  [(alice_world, Register (credentials "alice" "Alice" "pw1"));
   (bob_world, Register (credentials "bob" "Bob" "pw2"));
   (alice_world, Login (credentials "alice" "Alice" "pw1"));
   (bob_world, Login (credentials "bob" "Bob" "pw2"));
   (alice_world, Protected as_alice (CreateProject [("name", JStr "Home")]));
   (bob_world, Protected as_bob (CreateProject [("name", JStr "Work")]));
   (bob_world, Protected as_bob (CreateTask (new_task "t1" "p2000")))].

(** The store after [setup]: projects [p1000] (Alice's) and [p2000]
    (Bob's), and Bob's task [t1] in [p2000]. *)
Definition store : state := run_trace setup init.

Definition home : project_row :=
  {| p_id := SText "p1000"; p_user_id := SText "u1000";
     p_name := SText "Home"; p_created_at := SText "2025-06-01 10:00:00" |}.

Definition work : project_row :=
  {| p_id := SText "p2000"; p_user_id := SText "u2000";
     p_name := SText "Work"; p_created_at := SText "2025-06-01 10:00:00" |}.

Definition report : task_row :=
  {| t_id := SText "t1"; t_user_id := SText "u2000";
     t_project_id := SText "p2000"; t_name := SText "Report";
     t_description := SText EmptyString; t_priority := SText "high";
     t_deadline := SText "2025-12-31"; t_completed := SInt 0;
     t_created_at := SText "2025-06-01 10:00:00" |}.

(** Bob's update of his task [t1], naming Alice's project. *)
Definition move_to_home : jsobject :=
  [("name", JStr "Report"); ("deadline", JStr "2025-12-31");
   ("project_id", JStr "p1000")].

(** The store after Bob has moved his task into Alice's project. *)
Definition moved : state :=
  run_trace [(bob_world, Protected as_bob (UpdateTask "t1" move_to_home))] store.

(** Alice alone: registered and logged in. *)
Definition alice_only : state :=
  run_trace [(alice_world, Register (credentials "alice" "Alice" "pw1"));
             (alice_world, Login (credentials "alice" "Alice" "pw1"))] init.

(** A store of the single-tenant server: part of the sample data it
    inserts into an empty database. *)
Definition legacy_store : Legacy.state :=
  {| Legacy.projects :=
       [ {| Legacy.p_id := SText "p1"; Legacy.p_name := SText "Personal";
            Legacy.p_created_at := SText "2025-06-01 09:00:00" |};
         {| Legacy.p_id := SText "p2"; Legacy.p_name := SText "Work";
            Legacy.p_created_at := SText "2025-06-01 09:00:00" |} ];
     Legacy.tasks :=
       [ {| Legacy.t_id := SText "t1"; Legacy.t_project_id := SText "p1";
            Legacy.t_name := SText "Buy groceries";
            Legacy.t_description := SText "Milk, eggs, bread";
            Legacy.t_priority := SText "high";
            Legacy.t_deadline := SText "2025-06-02";
            Legacy.t_completed := SInt 0;
            Legacy.t_created_at := SText "2025-06-01 09:00:00" |};
         {| Legacy.t_id := SText "t6"; Legacy.t_project_id := SText "p1";
            Legacy.t_name := SText "Call mom";
            Legacy.t_description := SText "Wish her happy birthday";
            Legacy.t_priority := SText "high";
            Legacy.t_deadline := SText "2025-05-31";
            Legacy.t_completed := SInt 1;
            Legacy.t_created_at := SText "2025-06-01 09:00:00" |} ] |}.

Definition legacy_world : Legacy.world :=
  {| Legacy.current_timestamp := "2025-07-01 12:00:00";
     Legacy.iso_string := "2025-07-01T12:00:00.000Z";
     Legacy.iso_string_again := "2025-07-01T12:00:00.001Z" |}.



End Scenario.

(** * Verification *)

Import Auth.

(** ** SQL comparison and keys *)

Lemma sql_eq_eq a b : sql_eq a b = true -> a = b.
Proof.
  destruct a, b; simpl; try discriminate.
  - intros H. apply Z.eqb_eq in H. congruence.
  - intros H. apply String.eqb_eq in H. congruence.
Qed.

Lemma sql_eq_sym a b : sql_eq a b = sql_eq b a.
Proof.
  destruct a, b; simpl; auto using Z.eqb_sym, String.eqb_sym.
Qed.

Lemma sql_eq_text s : sql_eq (SText s) (SText s) = true.
Proof. simpl. apply String.eqb_refl. Qed.

Lemma sql_eq_not_null a b : sql_eq a b = true -> is_null a = false.
Proof. destruct a, b; simpl; congruence. Qed.


Lemma to_double_eq_0 n : (to_double n =? 0) = (n =? 0).
Proof.
  unfold to_double. destruct (Z.abs n <=? 2 ^ 53) eqn:E; [reflexivity|].
  apply Z.leb_gt in E.
  assert (0 < Z.abs n) as Hpos by lia.
  pose proof (Z.log2_spec (Z.abs n) Hpos) as [Hlow _].
  assert (53 <= Z.log2 (Z.abs n)) as Hlog
    by (apply Z.log2_le_pow2; lia).
  set (e := Z.log2 (Z.abs n) - 52) in *.
  assert (0 < 2 ^ e) as Hpow by (apply Z.pow_pos_nonneg; lia).
  assert (2 ^ e <= Z.abs n) as Hle.
  { transitivity (2 ^ Z.log2 (Z.abs n)); [|exact Hlow].
    apply Z.pow_le_mono_r; lia. }
  assert (1 <= Z.abs n / 2 ^ e) as Hq
    by (apply Z.div_le_lower_bound; lia).
  set (q := Z.abs n / 2 ^ e) in *.
  set (m := if Z.abs n mod 2 ^ e <? 2 ^ (e - 1) then q
            else if 2 ^ (e - 1) <? Z.abs n mod 2 ^ e then q + 1
            else if Z.even q then q else q + 1).
  assert (1 <= m) as Hm.
  { subst m. destruct (_ <? _); [lia|]. destruct (_ <? _); [lia|].
    destruct (Z.even q); lia. }
  assert (n <> 0) as Hn by lia.
  apply Z.eqb_neq in Hn as Hn'. rewrite Hn'. apply Z.eqb_neq.
  assert (0 < m * 2 ^ e) by nia.
  destruct n; simpl; lia.
Qed.

Lemma sql_eq_neq a b : a <> b -> sql_eq a b = false.
Proof.
  intros Hne. destruct (sql_eq a b) eqn:E; [|reflexivity].
  apply sql_eq_eq in E. contradiction.
Qed.

Section Keys.
Context {R : Type} (key : R -> sqlval).

Lemma existsb_key (k : sqlval) (l : list R) :
  existsb (sql_eq k) (map key l) = existsb (fun r => sql_eq (key r) k) l.
Proof.
  induction l as [|r l IH]; simpl; [reflexivity|].
  rewrite IH, (sql_eq_sym k). reflexivity.
Qed.

(** An INSERT that passed the key check keeps the keys unique. *)
Lemma unique_keys_insert (l : list R) (row : R) :
  unique_keys (map key l) = true ->
  existsb (fun r => sql_eq (key r) (key row)) l = false ->
  unique_keys (map key (l ++ [row])) = true.
Proof.
  induction l as [|r l IH]; simpl; intros Hu Hfresh; [reflexivity|].
  apply andb_true_iff in Hu as [Hr Hl].
  apply orb_false_iff in Hfresh as [Hne Hfresh].
  apply andb_true_iff. split; [|auto].
  rewrite negb_true_iff in *.
  rewrite existsb_key in *. rewrite existsb_app. simpl.
  rewrite Hr, orb_false_r. simpl. rewrite sql_eq_sym. exact Hne.
Qed.

(** A DELETE keeps the keys unique. *)
Lemma unique_keys_filter (f : R -> bool) (l : list R) :
  unique_keys (map key l) = true ->
  unique_keys (map key (List.filter f l)) = true.
Proof.
  induction l as [|r l IH]; simpl; intros Hu; [reflexivity|].
  apply andb_true_iff in Hu as [Hr Hl].
  destruct (f r); simpl; [|auto].
  apply andb_true_iff. split; [|auto].
  rewrite negb_true_iff in *. rewrite existsb_key in *.
  apply not_true_iff_false. intros Hex.
  apply existsb_exists in Hex as (x & Hx & Hxk).
  apply filter_In in Hx as [Hx _].
  assert (existsb (fun r0 => sql_eq (key r0) (key r)) l = true) as Hc
    by (apply existsb_exists; eauto).
  congruence.
Qed.

(** An UPDATE that leaves the key column alone keeps the keys. *)
Lemma map_key_update (sel : R -> bool) (upd : R -> R) (l : list R) :
  (forall r, key (upd r) = key r) ->
  map key (update_where sel upd l) = map key l.
Proof.
  intros Hk. unfold update_where. rewrite map_map.
  apply map_ext. intros r. destruct (sel r); auto.
Qed.

(** With unique keys a key selects at most one row. *)
Lemma unique_keys_select (l : list R) (r r' : R) (k : sqlval) :
  unique_keys (map key l) = true ->
  In r l -> In r' l ->
  sql_eq (key r) k = true -> sql_eq (key r') k = true ->
  r = r'.
Proof.
  induction l as [|x l IH]; simpl; intros Hu Hr Hr' Hk Hk'; [contradiction|].
  apply andb_true_iff in Hu as [Hx Hl].
  rewrite negb_true_iff, existsb_key in Hx.
  assert (forall y, In y l -> sql_eq (key y) k = true ->
                    sql_eq (key x) k = true -> False) as Hno.
  { intros y Hy Hyk Hxk.
    assert (existsb (fun r0 => sql_eq (key r0) (key x)) l = true) as Hc.
    { apply existsb_exists. exists y. split; [exact Hy|].
      apply sql_eq_eq in Hxk. rewrite Hxk. exact Hyk. }
    congruence. }
  destruct Hr as [-> | Hr], Hr' as [-> | Hr']; auto.
  - exfalso. eauto.
  - exfalso. eauto.
Qed.
End Keys.

(** ** Tokens are hexadecimal *)

Lemma hex_digit_hex n : hex_char (hex_digit n) = true.
Proof.
  destruct n as [|p]; [reflexivity|].
  do 4 (destruct p as [p|p|]; try reflexivity).
Qed.

Lemma to_hex_hex bytes : hex_string (to_hex bytes) = true.
Proof.
  induction bytes as [|b bytes IH]; simpl; [reflexivity|].
  rewrite !hex_digit_hex, IH. reflexivity.
Qed.

Lemma to_hex_length bytes :
  String.length (to_hex bytes) = (2 * length bytes)%nat.
Proof.
  induction bytes as [|b bytes IH]; simpl; [reflexivity|].
  rewrite IH. lia.
Qed.

(** ** Every reachable store is consistent *)

Create HintDb taskflow.

Ltac split_ifs H :=
  repeat match type of H with
         | context [if ?c then _ else _] => destruct c eqn:?
         end;
  try discriminate H.

Ltac run_handler :=
  unfold try_catch, and_then, run, query, ret; simpl.

Section Consistency.
Context {driver : SqlDriver}.

Lemma flag_zero : is_flag (bind_numeric (JNum 0)) = true.
Proof. unfold bind_numeric. simpl. rewrite numeric_affinity_int. reflexivity. Qed.

Lemma flag_one : is_flag (bind_numeric (JNum 1)) = true.
Proof. unfold bind_numeric. simpl. rewrite numeric_affinity_int. reflexivity. Qed.

Lemma flag_of_bool (b : bool) :
  is_flag (bind_numeric (JNum (if b then 1 else 0))) = true.
Proof. destruct b; [apply flag_one | apply flag_zero]. Qed.

Lemma insert_user_consistent w id username nickname password s s' :
  insert_user w id username nickname password s = inr s' ->
  consistent s -> consistent s'.
Proof.
  unfold insert_user. intros H [Hu Hn Hp Ht Hf Hs].
  split_ifs H. injection H as <-.
  constructor; simpl; auto.
  - apply (unique_keys_insert u_id); assumption.
  - apply (unique_keys_insert u_username); assumption.
Qed.

Lemma update_user_nickname_consistent nickname id s s' :
  update_user_nickname nickname id s = inr s' ->
  consistent s -> consistent s'.
Proof.
  unfold update_user_nickname. intros H [Hu Hn Hp Ht Hf Hs].
  split_ifs H. injection H as <-.
  constructor; simpl; auto; rewrite map_key_update; auto.
Qed.

Lemma update_user_password_consistent password id s s' :
  update_user_password password id s = inr s' ->
  consistent s -> consistent s'.
Proof.
  unfold update_user_password. intros H [Hu Hn Hp Ht Hf Hs].
  split_ifs H. injection H as <-.
  constructor; simpl; auto; rewrite map_key_update; auto.
Qed.

Lemma insert_project_consistent w id userId name s s' :
  insert_project w id userId name s = inr s' ->
  consistent s -> consistent s'.
Proof.
  unfold insert_project. intros H [Hu Hn Hp Ht Hf Hs].
  split_ifs H. injection H as <-.
  constructor; simpl; auto.
  apply (unique_keys_insert p_id); assumption.
Qed.

Lemma delete_tasks_of_project_consistent id s s' :
  delete_tasks_of_project id s = inr s' ->
  consistent s -> consistent s'.
Proof.
  unfold delete_tasks_of_project. intros H [Hu Hn Hp Ht Hf Hs].
  injection H as <-.
  constructor; simpl; auto.
  - apply unique_keys_filter. assumption.
  - apply forallb_forall. intros t Hin. apply filter_In in Hin as [Hin _].
    rewrite forallb_forall in Hf. auto.
Qed.

Lemma delete_project_consistent id s s' :
  delete_project id s = inr s' ->
  consistent s -> consistent s'.
Proof.
  unfold delete_project. intros H [Hu Hn Hp Ht Hf Hs].
  injection H as <-.
  constructor; simpl; auto.
  apply unique_keys_filter. assumption.
Qed.

Lemma update_project_name_consistent name id s s' :
  update_project_name name id s = inr s' ->
  consistent s -> consistent s'.
Proof.
  unfold update_project_name. intros H [Hu Hn Hp Ht Hf Hs].
  split_ifs H. injection H as <-.
  constructor; simpl; auto; rewrite map_key_update; auto.
Qed.

Lemma insert_task_consistent w id userId project_id name description priority deadline s s' :
  insert_task w id userId project_id name description priority deadline s = inr s' ->
  consistent s -> consistent s'.
Proof.
  unfold insert_task. intros H [Hu Hn Hp Ht Hf Hs].
  split_ifs H. injection H as <-.
  constructor; simpl; auto.
  - apply (unique_keys_insert t_id); assumption.
  - rewrite forallb_app, Hf. reflexivity.
Qed.

Lemma forallb_update {R} (P sel : R -> bool) (upd : R -> R) (l : list R) :
  forallb P l = true ->
  (forall r, P (upd r) = true) ->
  forallb P (update_where sel upd l) = true.
Proof.
  intros Hl Hupd. apply forallb_forall. intros r Hin.
  unfold update_where in Hin. apply in_map_iff in Hin as (r0 & <- & Hin).
  rewrite forallb_forall in Hl.
  destruct (sel r0); auto.
Qed.

Lemma update_task_consistent name description priority deadline completed project_id id s s' :
  update_task name description priority deadline completed project_id id s = inr s' ->
  is_flag (bind_numeric completed) = true ->
  consistent s -> consistent s'.
Proof.
  unfold update_task. intros H Hflag [Hu Hn Hp Ht Hf Hs].
  split_ifs H; injection H as <-.
  all: constructor; simpl; auto;
    [ rewrite map_key_update; auto | apply forallb_update; auto ].
Qed.

Lemma update_task_completed_consistent completed id s s' :
  update_task_completed completed id s = inr s' ->
  is_flag (bind_numeric completed) = true ->
  consistent s -> consistent s'.
Proof.
  unfold update_task_completed. intros H Hflag [Hu Hn Hp Ht Hf Hs].
  injection H as <-.
  constructor; simpl; auto;
    [ rewrite map_key_update; auto | apply forallb_update; auto ].
Qed.

Lemma delete_task_consistent id s s' :
  delete_task id s = inr s' ->
  consistent s -> consistent s'.
Proof.
  unfold delete_task. intros H [Hu Hn Hp Ht Hf Hs].
  injection H as <-.
  constructor; simpl; auto.
  - apply unique_keys_filter. assumption.
  - apply forallb_forall. intros t Hin. apply filter_In in Hin as [Hin _].
    rewrite forallb_forall in Hf. auto.
Qed.

Lemma session_set_consistent (bytes : list Byte.byte) userId s :
  length bytes = 32%nat ->
  consistent s ->
  consistent (with_sessions (insert (to_hex bytes) userId) s).
Proof.
  intros Hlen [Hu Hn Hp Ht Hf Hs].
  constructor; simpl; auto.
  intros token u Hlook.
  destruct (decide (to_hex bytes = token)) as [<- | Hne].
  - split; [apply to_hex_hex | rewrite to_hex_length, Hlen; reflexivity].
  - rewrite lookup_insert_ne in Hlook by assumption. eauto.
Qed.

Lemma session_delete_consistent token s :
  consistent s -> consistent (with_sessions (delete token) s).
Proof.
  intros [Hu Hn Hp Ht Hf Hs].
  constructor; simpl; auto.
  intros token' u Hlook.
  apply lookup_delete_Some in Hlook as [_ Hlook]. eauto.
Qed.

Lemma init_consistent : consistent init.
Proof.
  constructor; simpl; auto.
  intros token userId H. rewrite lookup_empty in H. discriminate.
Qed.

Hint Resolve insert_user_consistent update_user_nickname_consistent
  update_user_password_consistent insert_project_consistent
  delete_tasks_of_project_consistent delete_project_consistent
  update_project_name_consistent insert_task_consistent
  update_task_consistent update_task_completed_consistent
  delete_task_consistent session_set_consistent session_delete_consistent
  flag_of_bool : taskflow.

Lemma handler_consistent w a c userId s :
  consistent s -> consistent (snd (handler w a c userId s)).
Proof.
  intros Hc.
  destruct c as [| |b| |b|id|id b|project_id|b|id b|id|id|]; simpl.
  - unfold logout. destruct (bearer_token a); simpl; eauto with taskflow.
  - unfold me. run_handler. exact Hc.
  - unfold profile. run_handler.
    destruct (truthy (field b "nickname"));
      [destruct (update_user_nickname _ _ s) as [e|s1] eqn:E1|]; simpl; auto.
    all: destruct (truthy (field b "password")); simpl; eauto with taskflow.
    + destruct (update_user_password _ _ s1) as [e|s2] eqn:E2; simpl;
        eauto with taskflow.
    + destruct (update_user_password _ _ s) as [e|s2] eqn:E2; simpl;
        eauto with taskflow.
  - unfold list_projects. run_handler. exact Hc.
  - unfold create_project. run_handler.
    destruct (insert_project _ _ _ _ s) eqn:E; simpl; eauto with taskflow.
  - unfold remove_project. run_handler.
    destruct (select_project _ _ s); simpl; auto.
    eapply delete_project_consistent; [reflexivity|].
    eapply delete_tasks_of_project_consistent; [reflexivity|]. exact Hc.
  - unfold rename_project. run_handler.
    destruct (select_project _ _ s); simpl; auto.
    destruct (update_project_name _ _ s) eqn:E; simpl; eauto with taskflow.
  - unfold list_tasks. run_handler.
    destruct project_id as [p|]; [destruct (negb (String.eqb p EmptyString))|];
      simpl; exact Hc.
  - unfold create_task. run_handler.
    destruct (select_project _ _ s); simpl; auto.
    destruct (insert_task _ _ _ _ _ _ _ _ s) eqn:E; simpl; eauto with taskflow.
  - unfold put_task. run_handler.
    destruct (select_task _ _ s); simpl; auto.
    destruct (update_task _ _ _ _ _ _ _ s) eqn:E; simpl; eauto with taskflow.
  - unfold toggle_task. run_handler.
    destruct (select_task _ _ s); simpl; auto.
    eapply update_task_completed_consistent; [reflexivity| |exact Hc].
    destruct (truthy _); [apply flag_zero | apply flag_one].
  - unfold remove_task. run_handler.
    destruct (select_task _ _ s); simpl; auto.
    eapply delete_task_consistent; [reflexivity|]. exact Hc.
  - unfold export. run_handler. exact Hc.
Qed.

Lemma requireAuth_caller a next s :
  requireAuth a next s =
  match caller s a with
  | Some userId => next userId s
  | None => (unauthorized, s)
  end.
Proof.
  unfold requireAuth, caller.
  destruct (bearer_token a) as [token|]; [|reflexivity].
  destruct (String.eqb token EmptyString); [reflexivity|].
  destruct (sessions s !! token); reflexivity.
Qed.

Lemma handle_consistent w r s :
  world_ok w -> consistent s -> consistent (snd (handle w r s)).
Proof.
  intros Hw Hc. destruct r; simpl.
  - unfold register. run_handler.
    destruct (negb _ || negb _ || negb _); simpl; auto.
    destruct (insert_user _ _ _ _ _ s) eqn:E; simpl; eauto with taskflow.
  - unfold login. run_handler.
    destruct (select_user_by_username _ s) as [user|]; simpl; auto.
    destruct (negb _); simpl; eauto with taskflow.
  - rewrite requireAuth_caller.
    destruct (caller s authorization); simpl; auto using handler_consistent.
Qed.

Lemma restart_consistent s : consistent s -> consistent (restart s).
Proof.
  intros [Hu Hn Hp Ht Hf Hs].
  constructor; simpl; auto.
  intros token userId H. rewrite lookup_empty in H. discriminate.
Qed.

Theorem reachable_consistent s : reachable s -> consistent s.
Proof.
  induction 1;
    auto using init_consistent, handle_consistent, restart_consistent.
Qed.

Lemma run_trace_reachable tr s :
  reachable s -> Forall (fun x => world_ok (fst x)) tr ->
  reachable (run_trace tr s).
Proof.
  revert s. induction tr as [|[w r] tr IH]; simpl; intros s Hs Hall; [exact Hs|].
  inversion Hall; subst. apply IH; [|assumption].
  apply reachable_step; assumption.
Qed.
End Consistency.

(** ** The authorization gate *)

Lemma replace_bearer_prefix token :
  js_replace "Bearer " EmptyString ("Bearer " +:+ token) = token.
Proof. destruct token; reflexivity. Qed.

Lemma prefix_bearer_hex c s :
  hex_char c = true -> String.prefix "Bearer " (String c s) = false.
Proof.
  intros Hc. cbn [String.prefix].
  destruct (ascii_dec "B" c) as [<- | _]; [discriminate Hc | reflexivity].
Qed.

(** A hexadecimal string holds no [Bearer ], so the cut leaves it as it
    is. *)
Lemma replace_bearer_hex token :
  hex_string token = true ->
  js_replace "Bearer " EmptyString token = token.
Proof.
  induction token as [|c token IH]; intros Hhex; [reflexivity|].
  simpl in Hhex. apply andb_true_iff in Hhex as [Hc Hhex].
  unfold js_replace; fold js_replace.
  rewrite (prefix_bearer_hex c token Hc), IH by assumption. reflexivity.
Qed.

Lemma length_64_not_empty token :
  String.length token = 64%nat -> String.eqb token EmptyString = false.
Proof. destruct token; [discriminate | reflexivity]. Qed.

(** A string that does not hold the pattern is left as it is. *)
Lemma replace_absent pat s :
  js_includes pat s = false -> js_replace pat EmptyString s = s.
Proof.
  induction s as [|c s IH]; simpl; intros H.
  - apply orb_false_iff in H as [H _]. rewrite H. reflexivity.
  - apply orb_false_iff in H as [Hp Hrest]. rewrite Hp, IH by assumption.
    reflexivity.
Qed.

Section Gate.
Context {driver : SqlDriver}.

(** C7.  The gate in terms of the authorization header.  A request
    without the header gets 401.  A request with the header [Bearer t]
    gets 401 when [t] is empty or not in the session registry; when the
    registry maps [t] to a user id, the handler runs with that user id.
    For an arbitrary header the token is what is left of it once the first
    [Bearer ] is cut (the whole header when it holds no [Bearer ]), and the
    same two cases cover every request.
    On 401 nothing else happens: the answer and the state do not depend on
    the handler, and the state, registry included, is the one before the
    request.  Otherwise the handler runs on that same state.  Every
    protected route is its handler behind this gate. *)
Theorem requireAuth_gate (a : option string) (s : state)
    (next : jsval -> state -> response * state) :
  requireAuth None next s = (fail 401 "Unauthorized", s) /\
  requireAuth (Some "Bearer ") next s = (fail 401 "Unauthorized", s) /\
  (forall token,
     sessions s !! token = None ->
     requireAuth (Some ("Bearer " +:+ token)) next s
     = (fail 401 "Unauthorized", s)) /\
  (forall token userId,
     token <> EmptyString ->
     sessions s !! token = Some userId ->
     requireAuth (Some ("Bearer " +:+ token)) next s = next userId s) /\
  bearer_token None = None /\
  (forall token, bearer_token (Some ("Bearer " +:+ token)) = Some token) /\
  (forall header,
     bearer_token (Some header) = Some (js_replace "Bearer " EmptyString header)) /\
  (forall header,
     js_includes "Bearer " header = false ->
     bearer_token (Some header) = Some header) /\
  ((bearer_token a = None \/
    bearer_token a = Some EmptyString \/
    (exists token, bearer_token a = Some token /\ sessions s !! token = None)) ->
     requireAuth a next s = (fail 401 "Unauthorized", s)) /\
  (forall token userId,
     bearer_token a = Some token -> token <> EmptyString ->
     sessions s !! token = Some userId ->
     requireAuth a next s = next userId s) /\
  ((bearer_token a = None \/
    bearer_token a = Some EmptyString \/
    (exists token, bearer_token a = Some token /\ sessions s !! token = None)) \/
   (exists token userId,
      bearer_token a = Some token /\ token <> EmptyString /\
      sessions s !! token = Some userId)) /\
  (a = None <-> bearer_token a = None) /\
  (forall w c, handle w (Protected a c) = requireAuth a (handler w a c)).
Proof.
  assert (forall token, bearer_token (Some ("Bearer " +:+ token)) = Some token)
    as Hcut.
  { intros token.
    change (Some (js_replace "Bearer " EmptyString ("Bearer " +:+ token))
            = Some token).
    rewrite replace_bearer_prefix. reflexivity. }
  split; [reflexivity|].
  split; [reflexivity|].
  split.
  { intros token Hnone. unfold requireAuth. rewrite Hcut, Hnone.
    destruct (String.eqb token EmptyString); reflexivity. }
  split.
  { intros token userId Hne Hsome. unfold requireAuth. rewrite Hcut.
    apply String.eqb_neq in Hne. rewrite Hne, Hsome. reflexivity. }
  split; [reflexivity|].
  split; [exact Hcut|].
  split; [reflexivity|].
  split.
  { intros header Habsent.
    change (Some (js_replace "Bearer " EmptyString header) = Some header).
    rewrite (replace_absent _ _ Habsent). reflexivity. }
  unfold requireAuth. repeat split.
  - intros [-> | [-> | (token & -> & Hnone)]]; [reflexivity..|].
    rewrite Hnone. destruct (String.eqb token EmptyString); reflexivity.
  - intros token userId -> Hne Hsome.
    apply String.eqb_neq in Hne. rewrite Hne, Hsome. reflexivity.
  - destruct (bearer_token a) as [token|]; [|auto].
    destruct (String.eqb_spec token EmptyString) as [-> | Hne]; [auto|].
    destruct (sessions s !! token) as [userId|] eqn:Hlook.
    + right. eauto 6.
    + left. right. right. eauto.
  - intros ->. reflexivity.
  - destruct a; [discriminate | reflexivity].
Qed.

(** C10.  In a reachable state, a token of the registry sent as the whole
    authorization header, without [Bearer ] in front, passes the gate as
    the same user as the header with the prefix: the gate cuts the first
    [Bearer ] out of the header and looks up what is left, and a token,
    being 64 hexadecimal digits, holds none. *)
Theorem bare_token_accepted (s : state) (token : string) (userId : jsval)
    (next : jsval -> state -> response * state) :
  reachable s ->
  sessions s !! token = Some userId ->
  bearer_token (Some token) = Some token /\
  bearer_token (Some ("Bearer " +:+ token)) = Some token /\
  requireAuth (Some token) next s = next userId s /\
  requireAuth (Some ("Bearer " +:+ token)) next s = next userId s /\
  caller s (Some token) = Some userId /\
  caller s (Some ("Bearer " +:+ token)) = Some userId.
Proof.
  intros Hreach Hlook.
  destruct (session_tokens s (reachable_consistent s Hreach) token userId Hlook)
    as [Hhex Hlen].
  assert (bearer_token (Some token) = Some token) as Hbare.
  { change (Some (js_replace "Bearer " EmptyString token) = Some token).
    rewrite replace_bearer_hex by assumption. reflexivity. }
  assert (bearer_token (Some ("Bearer " +:+ token)) = Some token) as Hpre.
  { change (Some (js_replace "Bearer " EmptyString ("Bearer " +:+ token))
            = Some token).
    rewrite replace_bearer_prefix. reflexivity. }
  rewrite !requireAuth_caller. unfold caller.
  rewrite Hbare, Hpre, (length_64_not_empty token Hlen), Hlook.
  repeat split; reflexivity.
Qed.
End Gate.

(** ** Lookups scoped to the caller *)

Lemma sql_eq_right_refl a b : sql_eq a b = true -> sql_eq b b = true.
Proof.
  destruct a, b; simpl; try discriminate; intros _;
    [apply Z.eqb_refl | apply String.eqb_refl].
Qed.

Section Lookups.
Context {driver : SqlDriver}.

Lemma select_project_Some id userId s p :
  select_project id userId s = Some p ->
  In p (projects s) /\
  sql_eq (p_id p) (bind_text id) = true /\
  sql_eq (p_user_id p) (bind_text userId) = true.
Proof.
  unfold select_project. intros H. apply find_some in H as [Hin H].
  apply andb_true_iff in H. tauto.
Qed.

Lemma select_project_owns id userId s :
  owns_project s (bind_text userId) (bind_text id) =
  match select_project id userId s with Some _ => true | None => false end.
Proof.
  unfold owns_project, select_project.
  induction (projects s) as [|p l IH]; simpl; [reflexivity|].
  destruct (sql_eq (p_id p) (bind_text id) &&
            sql_eq (p_user_id p) (bind_text userId)); simpl; auto.
Qed.

(** A project of another user is not found, whatever id is asked for:
    the id is a key, so no second row can carry it. *)
Lemma select_project_foreign s P id userId :
  consistent s -> In P (projects s) ->
  p_id P = bind_text id -> p_user_id P <> bind_text userId ->
  select_project id userId s = None.
Proof.
  intros Hc HP Hid Howner.
  destruct (select_project id userId s) as [q|] eqn:Hsel; [|reflexivity].
  apply select_project_Some in Hsel as (Hq & Hqid & Hquser).
  assert (q = P) as ->.
  { apply (unique_keys_select p_id (projects s) q P (bind_text id));
      auto using project_ids_unique.
    rewrite Hid. eapply sql_eq_right_refl; eauto. }
  apply sql_eq_eq in Hquser. contradiction.
Qed.

Lemma select_task_Some id userId s t :
  select_task id userId s = Some t ->
  In t (tasks s) /\
  sql_eq (t_id t) (bind_text id) = true /\
  sql_eq (t_user_id t) (bind_text userId) = true.
Proof.
  unfold select_task. intros H. apply find_some in H as [Hin H].
  apply andb_true_iff in H. tauto.
Qed.

Lemma select_task_found s t id userId :
  consistent s -> In t (tasks s) ->
  sql_eq (t_id t) (bind_text id) = true ->
  sql_eq (t_user_id t) (bind_text userId) = true ->
  select_task id userId s = Some t.
Proof.
  intros Hc Ht Hid Huser.
  destruct (select_task id userId s) as [q|] eqn:Hsel.
  - apply select_task_Some in Hsel as (Hq & Hqid & _).
    f_equal.
    apply (unique_keys_select t_id (tasks s) q t (bind_text id));
      auto using task_ids_unique.
  - unfold select_task in Hsel.
    apply (find_none _ _ Hsel) in Ht. simpl in Ht.
    rewrite Hid, Huser in Ht. discriminate.
Qed.

Lemma select_task_foreign s t id userId :
  consistent s -> In t (tasks s) ->
  sql_eq (t_id t) (bind_text id) = true ->
  sql_eq (t_user_id t) (bind_text userId) = false ->
  select_task id userId s = None.
Proof.
  intros Hc Ht Hid Huser.
  destruct (select_task id userId s) as [q|] eqn:Hsel; [|reflexivity].
  apply select_task_Some in Hsel as (Hq & Hqid & Hquser).
  assert (q = t) as ->
    by (apply (unique_keys_select t_id (tasks s) q t (bind_text id));
        auto using task_ids_unique).
  congruence.
Qed.

(** C2.  In a reachable state, a task creation by caller A whose
    [project_id] names a project P of another user answers 400 (Invalid
    project) and leaves the store as it was: no task row is inserted.  A
    task creation answers 200, or adds a row to the task table, only if
    the caller owns a project with the id named in the request. *)
Theorem create_task_needs_own_project (w : world) (s : state)
    (a : option string) (userId : jsval) (body : jsobject) :
  reachable s ->
  caller s a = Some userId ->
  let result := handle w (Protected a (CreateTask body)) s in
  (forall P, In P (projects s) ->
             p_id P = bind_text (field body "project_id") ->
             p_user_id P <> bind_text userId ->
             result = (fail 400 "Invalid project", s)) /\
  (owns_project s (bind_text userId) (bind_text (field body "project_id")) = false ->
   result = (fail 400 "Invalid project", s)) /\
  (status (fst result) = 200 ->
   owns_project s (bind_text userId) (bind_text (field body "project_id")) = true) /\
  (tasks (snd result) <> tasks s ->
   owns_project s (bind_text userId) (bind_text (field body "project_id")) = true).
Proof.
  intros Hreach Hcaller result.
  assert (select_project (field body "project_id") userId s = None ->
          result = (fail 400 "Invalid project", s)) as Hnone.
  { intros Hsel. subst result. simpl. rewrite requireAuth_caller, Hcaller.
    simpl. unfold create_task. run_handler. rewrite Hsel. reflexivity. }
  repeat split.
  - intros P HP Hid Howner. apply Hnone.
    eapply select_project_foreign; eauto using reachable_consistent.
  - intros Hown. apply Hnone. rewrite select_project_owns in Hown.
    destruct (select_project _ _ s); [discriminate | reflexivity].
  - rewrite select_project_owns.
    destruct (select_project _ _ s) eqn:Hsel; [reflexivity|].
    rewrite (Hnone eq_refl). simpl. discriminate.
  - rewrite select_project_owns.
    destruct (select_project _ _ s) eqn:Hsel; [reflexivity|].
    rewrite (Hnone eq_refl). simpl. congruence.
Qed.

(** C8.  A project update or delete by a caller who owns no project with
    the requested id answers 404 (Project not found) and leaves the store
    as it was; in a reachable state this is the case whenever the id is
    that of another user's project.  Whenever either route changes the
    store, the caller owns a project with that id. *)
Theorem project_routes_check_owner (w : world) (s : state)
    (a : option string) (userId : jsval) (id : string) (body : jsobject) :
  reachable s ->
  caller s a = Some userId ->
  (owns_project s (bind_text userId) (SText id) = false ->
   handle w (Protected a (UpdateProject id body)) s
     = (fail 404 "Project not found", s) /\
   handle w (Protected a (DeleteProject id)) s
     = (fail 404 "Project not found", s)) /\
  (forall P, In P (projects s) -> p_id P = SText id ->
             p_user_id P <> bind_text userId ->
             owns_project s (bind_text userId) (SText id) = false) /\
  (snd (handle w (Protected a (UpdateProject id body)) s) <> s ->
   owns_project s (bind_text userId) (SText id) = true) /\
  (snd (handle w (Protected a (DeleteProject id)) s) <> s ->
   owns_project s (bind_text userId) (SText id) = true).
Proof.
  intros Hreach Hcaller.
  change (SText id) with (bind_text (JStr id)).
  rewrite select_project_owns.
  simpl handle. rewrite !requireAuth_caller, Hcaller. simpl handler.
  unfold rename_project, remove_project. run_handler.
  repeat split.
  - destruct (select_project _ _ s); [discriminate | reflexivity].
  - destruct (select_project _ _ s); [discriminate | reflexivity].
  - intros P HP Hid Howner.
    erewrite select_project_foreign; eauto using reachable_consistent.
  - destruct (select_project _ _ s); [reflexivity | simpl; congruence].
  - destruct (select_project _ _ s); [reflexivity | simpl; congruence].
Qed.
End Lookups.

(** ** Profile update *)

Section ProfileUpdate.
Context {driver : SqlDriver}.

Lemma truthy_not_null v : truthy v = true -> is_null (bind_text v) = false.
Proof. destruct v; simpl; try discriminate; reflexivity. Qed.

Lemma update_user_nickname_runs nickname id s :
  truthy nickname = true ->
  exists s', update_user_nickname nickname id s = inr s' /\
             projects s' = projects s /\ tasks s' = tasks s /\
             sessions s' = sessions s /\
             users s' = map (fun u =>
               if sql_eq (u_id u) (bind_text id)
               then {| u_id := u_id u; u_username := u_username u;
                       u_nickname := bind_text nickname;
                       u_password := u_password u;
                       u_created_at := u_created_at u |}
               else u) (users s).
Proof.
  intros Ht. unfold update_user_nickname.
  rewrite (truthy_not_null _ Ht), andb_false_r.
  eexists. repeat split; reflexivity.
Qed.

Lemma update_user_password_runs password id s :
  truthy password = true ->
  exists s', update_user_password password id s = inr s' /\
             projects s' = projects s /\ tasks s' = tasks s /\
             sessions s' = sessions s /\
             users s' = map (fun u =>
               if sql_eq (u_id u) (bind_text id)
               then {| u_id := u_id u; u_username := u_username u;
                       u_nickname := u_nickname u;
                       u_password := bind_text password;
                       u_created_at := u_created_at u |}
               else u) (users s).
Proof.
  intros Ht. unfold update_user_password.
  rewrite (truthy_not_null _ Ht), andb_false_r.
  eexists. repeat split; reflexivity.
Qed.

(** C9.  A profile update answers success and touches the user table
    only: the projects, the tasks and the registry stay, every row whose
    id is not the caller's stays, and in the caller's row the nickname
    becomes the supplied one if the body holds a (truthy) nickname and
    stays otherwise, the password likewise, and no other column changes.
    With neither field the whole store is unchanged. *)
Theorem profile_update_frame (w : world) (s : state) (a : option string)
    (userId : jsval) (body : jsobject) :
  caller s a = Some userId ->
  let nickname := field body "nickname" in
  let password := field body "password" in
  let result := handle w (Protected a (Profile body)) s in
  fst result = json success /\
  projects (snd result) = projects s /\
  tasks (snd result) = tasks s /\
  sessions (snd result) = sessions s /\
  users (snd result) =
    map (fun u =>
           if sql_eq (u_id u) (bind_text userId)
           then {| u_id := u_id u; u_username := u_username u;
                   u_nickname := if truthy nickname then bind_text nickname
                                 else u_nickname u;
                   u_password := if truthy password then bind_text password
                                 else u_password u;
                   u_created_at := u_created_at u |}
           else u) (users s) /\
  (forall u, In u (users s) -> sql_eq (u_id u) (bind_text userId) = false ->
             In u (users (snd result))) /\
  (truthy nickname = false -> truthy password = false -> snd result = s).
Proof.
  intros Hcaller nickname password result.
  assert (fst result = json success /\
          projects (snd result) = projects s /\
          tasks (snd result) = tasks s /\
          sessions (snd result) = sessions s /\
          users (snd result) =
            map (fun u =>
                   if sql_eq (u_id u) (bind_text userId)
                   then {| u_id := u_id u; u_username := u_username u;
                           u_nickname := if truthy nickname then bind_text nickname
                                         else u_nickname u;
                           u_password := if truthy password then bind_text password
                                         else u_password u;
                           u_created_at := u_created_at u |}
                   else u) (users s)) as H.
  { subst result. simpl handle. rewrite requireAuth_caller, Hcaller.
    simpl handler. unfold profile. fold nickname password. run_handler.
    destruct (truthy nickname) eqn:Hn.
    - destruct (update_user_nickname_runs nickname userId s Hn)
        as (s1 & -> & Hp1 & Ht1 & Hs1 & Hu1).
      destruct (truthy password) eqn:Hpw.
      + destruct (update_user_password_runs password userId s1 Hpw)
          as (s2 & -> & Hp2 & Ht2 & Hs2 & Hu2).
        simpl. repeat split; try congruence.
        rewrite Hu2, Hu1, map_map. apply map_ext. intros u.
        destruct (sql_eq (u_id u) (bind_text userId)) eqn:E; simpl; rewrite E;
          reflexivity.
      + simpl. repeat split; congruence.
    - destruct (truthy password) eqn:Hpw.
      + destruct (update_user_password_runs password userId s Hpw)
          as (s2 & -> & Hp2 & Ht2 & Hs2 & Hu2).
        simpl. repeat split; congruence.
      + simpl. repeat split; try reflexivity.
        rewrite <- (map_id (users s)) at 1. apply map_ext.
        intros [i un nn pw c]. simpl.
        destruct (sql_eq i (bind_text userId)); reflexivity. }
  destruct H as (Hr & Hp & Ht & Hs & Hu).
  repeat split; auto.
  - intros u Hin Hother. rewrite Hu. apply in_map_iff.
    exists u. rewrite Hother. auto.
  - intros Hn Hpw.
    destruct (snd result) as [us ps ts ss], s as [us0 ps0 ts0 ss0].
    simpl in *. rewrite Hn, Hpw in Hu. subst. f_equal.
    rewrite <- (map_id us0) at 2. apply map_ext.
    intros [i un nn pw c]. simpl.
    destruct (sql_eq i (bind_text userId)); reflexivity.
Qed.
End ProfileUpdate.

(** ** Toggle *)

Section Toggle.
Context {driver : SqlDriver}.

Lemma flag_cases v : is_flag v = true -> v = SInt 0 \/ v = SInt 1.
Proof.
  destruct v as [|n|]; simpl; try discriminate.
  intros H. apply orb_true_iff in H as [H | H]; apply Z.eqb_eq in H; subst; auto.
Qed.

(** One toggle of a task the caller owns. *)
Lemma toggle_task_owned s userId id t c :
  consistent s -> In t (tasks s) -> t_id t = SText id ->
  sql_eq (t_user_id t) (bind_text userId) = true ->
  t_completed t = SInt c ->
  toggle_task userId id s =
  (json (JObj [("success", JBool true);
               ("completed", JNum (if c =? 0 then 1 else 0))]),
   with_tasks (update_where (fun r => sql_eq (t_id r) (SText id)) (fun r =>
     {| t_id := t_id r; t_user_id := t_user_id r;
        t_project_id := t_project_id r; t_name := t_name r;
        t_description := t_description r; t_priority := t_priority r;
        t_deadline := t_deadline r;
        t_completed := SInt (if c =? 0 then 1 else 0);
        t_created_at := t_created_at r |})) s).
Proof.
  intros Hc Hin Hid Hown Hflag.
  unfold toggle_task. run_handler.
  rewrite (select_task_found s t (JStr id) userId Hc Hin);
    [|simpl; rewrite Hid; apply sql_eq_text|assumption].
  simpl. rewrite Hflag. simpl. rewrite to_double_eq_0.
  unfold bind_numeric. simpl.
  destruct (c =? 0); simpl; rewrite numeric_affinity_int; reflexivity.
Qed.

(** Writing the flag and writing the old value back restores the table. *)
Lemma update_completed_back (l : list task_row) (t : task_row) id c c' :
  unique_keys (map t_id l) = true ->
  In t l -> t_id t = SText id -> t_completed t = SInt c ->
  update_where (fun r => sql_eq (t_id r) (SText id)) (fun r =>
     {| t_id := t_id r; t_user_id := t_user_id r;
        t_project_id := t_project_id r; t_name := t_name r;
        t_description := t_description r; t_priority := t_priority r;
        t_deadline := t_deadline r; t_completed := SInt c;
        t_created_at := t_created_at r |})
    (update_where (fun r => sql_eq (t_id r) (SText id)) (fun r =>
     {| t_id := t_id r; t_user_id := t_user_id r;
        t_project_id := t_project_id r; t_name := t_name r;
        t_description := t_description r; t_priority := t_priority r;
        t_deadline := t_deadline r; t_completed := SInt c';
        t_created_at := t_created_at r |}) l) = l.
Proof.
  intros Hu Hin Hid Hflag. unfold update_where. rewrite map_map.
  rewrite <- (map_id l) at 2. apply map_ext_in. intros r Hr.
  destruct (sql_eq (t_id r) (SText id)) eqn:E; simpl; rewrite E; [|reflexivity].
  assert (r = t) as ->.
  { apply (unique_keys_select t_id l r t (SText id)); auto.
    rewrite Hid. apply sql_eq_text. }
  destruct t; simpl in *; subst; reflexivity.
Qed.

Lemma toggle_route_owned w s a userId id t c :
  consistent s -> caller s a = Some userId ->
  In t (tasks s) -> t_id t = SText id ->
  sql_eq (t_user_id t) (bind_text userId) = true ->
  t_completed t = SInt c -> c = 0 \/ c = 1 ->
  handle w (Protected a (ToggleTask id)) s =
  (json (JObj [("success", JBool true); ("completed", JNum (1 - c))]),
   with_tasks (update_where (fun r => sql_eq (t_id r) (SText id)) (fun r =>
     {| t_id := t_id r; t_user_id := t_user_id r;
        t_project_id := t_project_id r; t_name := t_name r;
        t_description := t_description r; t_priority := t_priority r;
        t_deadline := t_deadline r; t_completed := SInt (1 - c);
        t_created_at := t_created_at r |})) s).
Proof.
  intros Hc Hcaller Hin Hid Hown Hcompl Hc01.
  simpl handle. rewrite requireAuth_caller, Hcaller. simpl handler.
  rewrite (toggle_task_owned s userId id t c) by assumption.
  replace (if c =? 0 then 1 else 0) with (1 - c)
    by (destruct Hc01; subst; reflexivity).
  reflexivity.
Qed.

(** C4.  In a reachable state, for a task the caller owns: its completed
    flag is 0 or 1; one toggle answers with the other value and stores it,
    leaving all else as it was; a second toggle answers with the original
    value and the store is again the one before the first toggle.  For a
    task with the requested id that is not the caller's, toggle answers
    404 (Task not found) and the store is unchanged. *)
Theorem toggle_involution (w w' : world) (s : state) (a : option string)
    (userId : jsval) (id : string) (t : task_row) :
  reachable s ->
  caller s a = Some userId ->
  In t (tasks s) ->
  t_id t = SText id ->
  let first := handle w (Protected a (ToggleTask id)) s in
  let second := handle w' (Protected a (ToggleTask id)) (snd first) in
  (sql_eq (t_user_id t) (bind_text userId) = true ->
   exists c, (c = 0 \/ c = 1) /\ t_completed t = SInt c /\
     fst first = json (JObj [("success", JBool true); ("completed", JNum (1 - c))]) /\
     snd first = with_tasks (update_where (fun r => sql_eq (t_id r) (SText id))
       (fun r =>
          {| t_id := t_id r; t_user_id := t_user_id r;
             t_project_id := t_project_id r; t_name := t_name r;
             t_description := t_description r; t_priority := t_priority r;
             t_deadline := t_deadline r; t_completed := SInt (1 - c);
             t_created_at := t_created_at r |})) s /\
     fst second = json (JObj [("success", JBool true); ("completed", JNum c)]) /\
     snd second = s) /\
  (sql_eq (t_user_id t) (bind_text userId) = false ->
   first = (fail 404 "Task not found", s)).
Proof.
  intros Hreach Hcaller Hin Hid first second.
  pose proof (reachable_consistent s Hreach) as Hc.
  split.
  - intros Hown.
    assert (is_flag (t_completed t) = true) as Hflag.
    { pose proof (task_flags s Hc) as Hall. rewrite forallb_forall in Hall. auto. }
    assert (exists c, (c = 0 \/ c = 1) /\ t_completed t = SInt c) as (c & Hc01 & Hcompl).
    { destruct (flag_cases _ Hflag); eauto. }
    exists c. split; [assumption|]. split; [assumption|].
    pose proof (toggle_route_owned w s a userId id t c
                  Hc Hcaller Hin Hid Hown Hcompl Hc01) as E1.
    assert (consistent (snd (handle w (Protected a (ToggleTask id)) s))) as Hc1.
    { simpl handle. rewrite requireAuth_caller, Hcaller.
      apply handler_consistent. assumption. }
    subst second first. rewrite E1 in *. cbn [fst snd] in *.
    split; [reflexivity|]. split; [reflexivity|].
    match goal with
    | |- context [handle w' _ ?st] => set (s1 := st) in *
    end.
    set (t1 := {| t_id := t_id t; t_user_id := t_user_id t;
                  t_project_id := t_project_id t; t_name := t_name t;
                  t_description := t_description t; t_priority := t_priority t;
                  t_deadline := t_deadline t; t_completed := SInt (1 - c);
                  t_created_at := t_created_at t |}).
    assert (In t1 (tasks s1)) as Hin1.
    { subst s1. simpl. unfold update_where. apply in_map_iff.
      exists t. split; [|exact Hin].
      replace (sql_eq (t_id t) (SText id)) with true; [reflexivity|].
      rewrite Hid. symmetry. apply sql_eq_text. }
    assert (1 - c = 0 \/ 1 - c = 1) as Hc01' by lia.
    rewrite (toggle_route_owned w' s1 a userId id t1 (1 - c)
               Hc1 Hcaller Hin1 Hid Hown eq_refl Hc01').
    replace (1 - (1 - c)) with c by lia.
    cbn [fst snd]. split; [reflexivity|].
    subst s1. unfold with_tasks. simpl.
    rewrite (update_completed_back (tasks s) t id c (1 - c));
      auto using task_ids_unique.
    destruct s; reflexivity.
  - intros Hforeign. subst first. simpl handle.
    rewrite requireAuth_caller, Hcaller. simpl handler.
    unfold toggle_task. run_handler.
    rewrite (select_task_foreign s t (JStr id) userId Hc Hin);
      [reflexivity| |assumption].
    simpl. rewrite Hid. apply sql_eq_text.
Qed.
End Toggle.

(** ** Export *)

Section ExportRoute.
Context {driver : SqlDriver}.

(** C5, amended.  For an authenticated caller, export answers 200 with one
    document of exactly two fields: [projects], the rows of the project
    table owned by the caller, and [tasks], the rows of the task table
    owned by the caller, each complete and in table order.  The document
    has no timestamp field, and the store is unchanged. *)
Theorem export_document (w : world) (s : state) (a : option string)
    (userId : jsval) :
  caller s a = Some userId ->
  let result := handle w (Protected a Export) s in
  let mine_p := List.filter (fun p => sql_eq (p_user_id p) (bind_text userId))
                            (projects s) in
  let mine_t := List.filter (fun t => sql_eq (t_user_id t) (bind_text userId))
                            (tasks s) in
  status (fst result) = 200 /\
  body (fst result) = JObj [("projects", JArr (map project_json mine_p));
                            ("tasks", JArr (map task_json mine_t))] /\
  object_keys (body (fst result)) = ["projects"; "tasks"] /\
  (forall p, In p (projects s) ->
             sql_eq (p_user_id p) (bind_text userId) = true -> In p mine_p) /\
  (forall t, In t (tasks s) ->
             sql_eq (t_user_id t) (bind_text userId) = true -> In t mine_t) /\
  snd result = s.
Proof.
  intros Hcaller result mine_p mine_t. subst result.
  simpl handle. rewrite requireAuth_caller, Hcaller. simpl handler.
  unfold export. run_handler.
  repeat split.
  - intros p Hin Hown. apply filter_In. auto.
  - intros t Hin Hown. apply filter_In. auto.
Qed.
End ExportRoute.

(** C5, as stated, fails: Alice's export in the sample session is a
    document whose only fields are [projects] and [tasks]; there is no
    [exportedAt] or any other timestamp field. *)
Lemma export_has_no_timestamp :
  let doc := body (fst (handle Scenario.alice_world
                          (Protected Scenario.as_alice Export) Scenario.store)) in
  caller Scenario.store Scenario.as_alice = Some Scenario.alice /\
  object_keys doc = ["projects"; "tasks"] /\
  ~ In "exportedAt" (object_keys doc).
Proof.
  vm_compute. repeat split. intros [H | [H | []]]; discriminate H.
Qed.

Lemma export_document_witness :
  let result := handle Scenario.alice_world
                  (Protected Scenario.as_alice Export) Scenario.store in
  status (fst result) = 200 /\
  object_keys (body (fst result)) = ["projects"; "tasks"] /\
  snd result = Scenario.store.
Proof.
  assert (caller Scenario.store Scenario.as_alice = Some Scenario.alice) as Hcaller
    by (vm_compute; reflexivity).
  pose proof (export_document Scenario.alice_world Scenario.store
                Scenario.as_alice Scenario.alice Hcaller) as H.
  cbv zeta in H. destruct H as (H1 & _ & H3 & _ & _ & H6).
  cbv zeta. repeat split; assumption.
Defined.

(** ** Which routes keep tasks in their owner's projects *)

Section OwnershipInvariant.
Context {driver : SqlDriver}.

Lemma tasks_in_own_projects_spec s :
  tasks_in_own_projects s = true <-> owned_tasks (projects s) (tasks s).
Proof.
  unfold tasks_in_own_projects, owned_tasks, project_of_owner.
  rewrite forallb_forall. split; intros H t Hin.
  - apply H in Hin. apply existsb_exists in Hin as (p & Hp & Hc).
    apply andb_true_iff in Hc. eauto.
  - destruct (H t Hin) as (p & Hp & Hid & Hu).
    apply existsb_exists. exists p. rewrite Hid, Hu. auto.
Qed.

Lemma owned_tasks_more_projects ps ps' ts :
  (forall p, In p ps ->
     exists p', In p' ps' /\ p_id p' = p_id p /\ p_user_id p' = p_user_id p) ->
  owned_tasks ps ts -> owned_tasks ps' ts.
Proof.
  intros Hps H t Hin. destruct (H t Hin) as (p & Hp & Hid & Hu).
  destruct (Hps p Hp) as (p' & Hp' & Eid & Eu).
  exists p'. rewrite Eid, Eu. auto.
Qed.

Lemma owned_tasks_fewer_tasks ps ts ts' :
  (forall t', In t' ts' ->
     exists t, In t ts /\ t_project_id t = t_project_id t' /\
               t_user_id t = t_user_id t') ->
  owned_tasks ps ts -> owned_tasks ps ts'.
Proof.
  intros Hts H t' Hin. destruct (Hts t' Hin) as (t & Ht & Eid & Eu).
  destruct (H t Ht) as (p & Hp & Hid & Hu).
  exists p. rewrite <- Eid, <- Eu. auto.
Qed.

Lemma in_update_where {R} (sel : R -> bool) (upd : R -> R) (l : list R) (r' : R) :
  In r' (update_where sel upd l) ->
  exists r, In r l /\ r' = if sel r then upd r else r.
Proof.
  unfold update_where. intros H. apply in_map_iff in H as (r & <- & Hin). eauto.
Qed.

(** Deleting a project together with the tasks that point to it. *)
Lemma owned_tasks_delete_project k ps ts :
  owned_tasks ps ts ->
  owned_tasks (List.filter (fun p => negb (sql_eq (p_id p) k)) ps)
              (List.filter (fun t => negb (sql_eq (t_project_id t) k)) ts).
Proof.
  intros H t Hin. apply filter_In in Hin as [Hin Hk].
  destruct (H t Hin) as (p & Hp & Hid & Hu).
  exists p. repeat split; auto.
  apply filter_In. split; [assumption|].
  apply sql_eq_eq in Hid. rewrite Hid. exact Hk.
Qed.

Lemma handler_keeps_ownership w a c userId s :
  (forall id b, c <> UpdateTask id b) ->
  tasks_in_own_projects s = true ->
  tasks_in_own_projects (snd (handler w a c userId s)) = true.
Proof.
  intros Hc. rewrite !tasks_in_own_projects_spec. intros Hown.
  destruct c as [| |b| |b|id|id b|project_id|b|id b|id|id|]; simpl.
  - unfold logout. destruct (bearer_token a); exact Hown.
  - exact Hown.
  - unfold profile. run_handler.
    destruct (truthy (field b "nickname"));
      [destruct (update_user_nickname _ _ s) as [e|s1] eqn:E1|]; simpl; auto.
    + unfold update_user_nickname in E1. split_ifs E1. injection E1 as <-.
      destruct (truthy (field b "password")); simpl; auto.
      match goal with
      | |- context [update_user_password ?x ?y ?z] =>
          destruct (update_user_password x y z) as [e|s2] eqn:E2
      end; simpl; auto.
      unfold update_user_password in E2. split_ifs E2. injection E2 as <-.
      exact Hown.
    + destruct (truthy (field b "password")); simpl; auto.
      destruct (update_user_password _ _ s) as [e|s2] eqn:E2; simpl; auto.
      unfold update_user_password in E2. split_ifs E2. injection E2 as <-.
      exact Hown.
  - exact Hown.
  - unfold create_project. run_handler.
    destruct (insert_project _ _ _ _ s) as [e|s1] eqn:E; simpl; auto.
    unfold insert_project in E. split_ifs E. injection E as <-. simpl.
    eapply owned_tasks_more_projects; [|exact Hown].
    intros p Hp. exists p. rewrite in_app_iff. auto.
  - unfold remove_project. run_handler.
    destruct (select_project _ _ s); simpl; auto.
    apply owned_tasks_delete_project. exact Hown.
  - unfold rename_project. run_handler.
    destruct (select_project _ _ s) as [found|]; simpl; auto.
    destruct (update_project_name _ _ s) as [e|s1] eqn:E; simpl; auto.
    unfold update_project_name in E. split_ifs E. injection E as <-. simpl.
    eapply owned_tasks_more_projects; [|exact Hown].
    intros q Hq.
    exists (if sql_eq (p_id q) (bind_text (JStr id))
            then {| p_id := p_id q; p_user_id := p_user_id q;
                    p_name := bind_text (field b "name");
                    p_created_at := p_created_at q |}
            else q).
    split; [|destruct (sql_eq (p_id q) (bind_text (JStr id))); auto].
    unfold update_where. apply in_map_iff. exists q. auto.
  - unfold list_tasks. run_handler.
    destruct project_id as [p|]; [destruct (negb (String.eqb p EmptyString))|];
      exact Hown.
  - unfold create_task. run_handler.
    destruct (select_project _ _ s) as [p|] eqn:Hsel; simpl; auto.
    destruct (insert_task _ _ _ _ _ _ _ _ s) as [e|s1] eqn:E; simpl; auto.
    unfold insert_task in E. split_ifs E. injection E as <-. simpl.
    apply select_project_Some in Hsel as (Hp & Hid & Hu).
    intros t Hin. apply in_app_iff in Hin as [Hin | [<- | []]]; [auto|].
    exists p. simpl. auto.
  - exfalso. eapply Hc. reflexivity.
  - unfold toggle_task. run_handler.
    destruct (select_task _ _ s); simpl; auto.
    eapply owned_tasks_fewer_tasks; [|exact Hown].
    intros t' Hin. apply in_update_where in Hin as (t0 & Hin & ->).
    exists t0. destruct (sql_eq (t_id t0) _); auto.
  - unfold remove_task. run_handler.
    destruct (select_task _ _ s); simpl; auto.
    eapply owned_tasks_fewer_tasks; [|exact Hown].
    intros t' Hin. apply filter_In in Hin as [Hin _]. eauto.
  - exact Hown.
Qed.

(** X22.  Every request other than a task update keeps each task in a
    project of the task's own user. *)
Theorem ownership_kept_without_task_update w r s :
  is_task_update r = false ->
  tasks_in_own_projects s = true ->
  tasks_in_own_projects (snd (handle w r s)) = true.
Proof.
  intros Hr Hown. destruct r as [b|b|a c]; simpl.
  - unfold register. run_handler.
    destruct (negb _ || negb _ || negb _); simpl; auto.
    destruct (insert_user _ _ _ _ _ s) as [e|s1] eqn:E; simpl; auto.
    unfold insert_user in E. split_ifs E. injection E as <-. exact Hown.
  - unfold login. run_handler.
    destruct (select_user_by_username _ s) as [user|]; simpl; auto.
    destruct (negb _); simpl; auto.
  - rewrite requireAuth_caller.
    destruct (caller s a); simpl; auto.
    apply handler_keeps_ownership; [|assumption].
    intros id b ->. discriminate Hr.
Qed.

(** X23.  A task update keeps each task in a project of the task's own
    user as well when the caller owns the project named in the body; the
    route does not check this. *)
Theorem ownership_kept_by_update_into_own_project w s a userId id b :
  consistent s ->
  caller s a = Some userId ->
  owns_project s (bind_text userId) (bind_text (field b "project_id")) = true ->
  tasks_in_own_projects s = true ->
  tasks_in_own_projects (snd (handle w (Protected a (UpdateTask id b)) s)) = true.
Proof.
  intros Hcons Hcaller Hproject.
  rewrite !tasks_in_own_projects_spec. intros Hown.
  simpl handle. rewrite requireAuth_caller, Hcaller. simpl handler.
  unfold put_task. run_handler.
  destruct (select_task _ _ s) as [t0|] eqn:Hsel; simpl; auto.
  destruct (update_task _ _ _ _ _ _ _ s) as [e|s1] eqn:E; simpl; auto.
  apply select_task_Some in Hsel as (Ht0 & Hid0 & Hu0).
  unfold owns_project in Hproject.
  apply existsb_exists in Hproject as (p & Hp & Hpc).
  apply andb_true_iff in Hpc as [Hpid Hpu].
  unfold update_task in E. split_ifs E; injection E as <-; simpl.
  all: intros t' Hin; apply in_update_where in Hin as (t & Hin & ->).
  all: destruct (sql_eq (t_id t) (bind_text (JStr id))) eqn:Hsel_t; [|auto].
  all: assert (t = t0) as ->
    by (apply (unique_keys_select t_id (tasks s) t t0 (bind_text (JStr id)));
        auto using task_ids_unique).
  all: exists p; simpl; repeat split; auto.
  all: apply sql_eq_eq in Hu0; rewrite Hu0; exact Hpu.
Qed.
End OwnershipInvariant.

(** ** What deleting a project removes *)

Lemma count_removed {A} (f : A -> bool) (l : list A) :
  length l = (length (List.filter (fun x => negb (f x)) l) + count f l)%nat.
Proof.
  unfold count. induction l as [|x l IH]; simpl; [reflexivity|].
  destruct (f x); simpl; lia.
Qed.

Lemma count_removed_within {A} (f g : A -> bool) (l : list A) :
  (forall x, In x l -> f x = true -> g x = true) ->
  count g l = (count g (List.filter (fun x => negb (f x)) l) + count f l)%nat.
Proof.
  unfold count. induction l as [|x l IH]; simpl; intros H; [reflexivity|].
  assert (forall y, In y l -> f y = true -> g y = true) as Hl by auto.
  specialize (IH Hl).
  destruct (f x) eqn:Ef; simpl.
  - rewrite (H x) by auto. simpl. lia.
  - destruct (g x); simpl; lia.
Qed.

Section ProjectDeletion.
Context {driver : SqlDriver}.

(** X24.  Deleting a project the caller owns succeeds and removes the
    project's row and every task row pointing to it, and no other row: the other
    projects and tasks, the users and the sessions stay, and the task
    table shrinks by the number N of tasks the project held.  If the
    project's tasks all belong to the project's owner, as the data model
    has it, the owner's task count shrinks by N as well. *)
Theorem remove_project_cascade (w : world) (s : state) (a : option string)
    (userId : jsval) (id : string) (P : project_row) :
  consistent s ->
  caller s a = Some userId ->
  In P (projects s) ->
  p_id P = SText id ->
  sql_eq (p_user_id P) (bind_text userId) = true ->
  let result := handle w (Protected a (DeleteProject id)) s in
  let N := count (in_project (SText id)) (tasks s) in
  fst result = json success /\
  ~ In P (projects (snd result)) /\
  (forall q, In q (projects s) -> q <> P -> In q (projects (snd result))) /\
  (forall q, In q (projects (snd result)) -> In q (projects s)) /\
  (forall t, In t (tasks (snd result)) <->
             In t (tasks s) /\ in_project (SText id) t = false) /\
  length (tasks s) = (length (tasks (snd result)) + N)%nat /\
  users (snd result) = users s /\
  sessions (snd result) = sessions s /\
  (tasks_in_own_projects s = true ->
   count (owned_by (bind_text userId)) (tasks s)
   = (count (owned_by (bind_text userId)) (tasks (snd result)) + N)%nat).
Proof.
  intros Hc Hcaller HP Hid Howner result N.
  assert (sql_eq (p_id P) (SText id) = true) as Hkey
    by (rewrite Hid; apply sql_eq_text).
  assert (result =
          (json success,
           with_projects (List.filter (fun p => negb (sql_eq (p_id p) (SText id))))
             (with_tasks
                (List.filter (fun t => negb (sql_eq (t_project_id t) (SText id))))
                s))) as Hresult.
  { subst result. simpl handle. rewrite requireAuth_caller, Hcaller.
    simpl handler. unfold remove_project. run_handler.
    destruct (select_project (JStr id) userId s) as [found|] eqn:Hsel;
      [reflexivity|].
    unfold select_project in Hsel. apply (find_none _ _ Hsel) in HP.
    cbn beta in HP. change (bind_text (JStr id)) with (SText id) in HP.
    rewrite Hkey, Howner in HP. discriminate. }
  rewrite Hresult. cbn [fst snd]. simpl.
  split; [reflexivity|].
  split.
  { intros Hin. apply filter_In in Hin as [_ Hin].
    rewrite Hkey in Hin. discriminate. }
  split.
  { intros q Hq Hne. apply filter_In. split; [assumption|].
    destruct (sql_eq (p_id q) (SText id)) eqn:E; [|reflexivity].
    exfalso. apply Hne.
    apply (unique_keys_select p_id (projects s) q P (SText id));
      auto using project_ids_unique. }
  split.
  { intros q Hq. apply filter_In in Hq. tauto. }
  split.
  { intros t. rewrite filter_In. unfold in_project.
    rewrite negb_true_iff. tauto. }
  split.
  { subst N. apply (count_removed (in_project (SText id))). }
  split; [reflexivity|].
  split; [reflexivity|].
  intros Hown. subst N.
  apply (count_removed_within (in_project (SText id))).
  intros t Hin Hint. unfold in_project in Hint. unfold owned_by.
  apply tasks_in_own_projects_spec in Hown.
  destruct (Hown t Hin) as (p & Hp & Hpid & Hpu).
  assert (p = P) as ->.
  { apply (unique_keys_select p_id (projects s) p P (SText id));
      auto using project_ids_unique.
    apply sql_eq_eq in Hpid. rewrite Hpid. exact Hint. }
  apply sql_eq_eq in Hpu. rewrite <- Hpu. exact Howner.
Qed.
End ProjectDeletion.

(** ** The sample session *)

Lemma store_reachable : reachable Scenario.store.
Proof.
  apply run_trace_reachable; [constructor|].
  unfold Scenario.setup. repeat constructor.
Qed.

Lemma moved_reachable : reachable Scenario.moved.
Proof.
  apply run_trace_reachable; [apply store_reachable|].
  repeat constructor.
Qed.

Lemma store_tables :
  projects Scenario.store = [Scenario.home; Scenario.work] /\
  tasks Scenario.store = [Scenario.report] /\
  caller Scenario.store Scenario.as_alice = Some Scenario.alice /\
  caller Scenario.store Scenario.as_bob = Some Scenario.bob.
Proof. vm_compute. repeat split. Qed.

(** The walk through the API: with her token Alice sees no projects,
    creates one and gets its generated id, creates a task that starts
    with completed 0, toggles it to 1, deletes the project, and sees no
    tasks any more. *)
Example alice_walk_through :
  let w := Scenario.alice_world in
  let a := Scenario.as_alice in
  let s1 := Scenario.alice_only in
  let listed := handle w (Protected a ListProjects) s1 in
  let created := handle w (Protected a (CreateProject [("name", JStr "Home")]))
                   (snd listed) in
  let added := handle w (Protected a (CreateTask (Scenario.new_task "t1" "p1000")))
                 (snd created) in
  let toggled := handle w (Protected a (ToggleTask "t1")) (snd added) in
  let deleted := handle w (Protected a (DeleteProject "p1000")) (snd toggled) in
  let tasks_left := handle w (Protected a (ListTasks None)) (snd deleted) in
  body (fst listed) = JArr [] /\
  body (fst created) = JObj [("id", JStr "p1000"); ("name", JStr "Home")] /\
  status (fst added) = 200 /\
  field (match body (fst added) with JObj o => o | _ => [] end) "completed"
    = JNum 0 /\
  body (fst toggled) = JObj [("success", JBool true); ("completed", JNum 1)] /\
  body (fst deleted) = success /\
  body (fst tasks_left) = JArr [].
Proof. vm_compute. repeat split. Qed.

(** A login with the wrong password answers 401 and issues no token: the
    registry is the one before. *)
Example wrong_password_rejected :
  let result := handle Scenario.bob_world
                  (Login (Scenario.credentials "alice" "Alice" "guess"))
                  Scenario.alice_only in
  fst result = fail 401 "Invalid credentials" /\
  size (sessions (snd result)) = size (sessions Scenario.alice_only) /\
  map_to_list (sessions (snd result))
    = [(Scenario.alice_token, Scenario.alice)].
Proof. vm_compute. repeat split. Qed.

(** Registering a user name that is taken answers 400. *)
Example duplicate_username_rejected :
  fst (handle Scenario.bob_world
         (Register (Scenario.credentials "alice" "Alice2" "pw9"))
         Scenario.alice_only)
  = fail 400 "Username already exists".
Proof. vm_compute. reflexivity. Qed.

(** ** Task update and the ownership invariant *)

(** C1: the code breaks the invariant.  In the sample session every task
    lies in a project of its own user.  Bob then updates his task [t1]
    with [project_id] set to [p1000], the id of Alice's project: the
    update answers 200, and in the resulting reachable state Bob's task
    points to a project owned by Alice.  The update route checks that the
    task is the caller's and never looks at the project, where task
    creation does. *)
Theorem put_task_breaks_ownership :
  let request := Protected Scenario.as_bob
                   (UpdateTask "t1" Scenario.move_to_home) in
  reachable Scenario.store /\
  tasks_in_own_projects Scenario.store = true /\
  caller Scenario.store Scenario.as_bob = Some Scenario.bob /\
  status (fst (handle Scenario.bob_world request Scenario.store)) = 200 /\
  snd (handle Scenario.bob_world request Scenario.store) = Scenario.moved /\
  reachable Scenario.moved /\
  map (fun p => (p_id p, p_user_id p)) (projects Scenario.moved)
    = [(SText "p1000", SText "u1000"); (SText "p2000", SText "u2000")] /\
  map (fun t => (t_id t, t_user_id t, t_project_id t)) (tasks Scenario.moved)
    = [(SText "t1", SText "u2000", SText "p1000")] /\
  tasks_in_own_projects Scenario.moved = false.
Proof.
  cbv zeta.
  split; [apply store_reachable|].
  split; [vm_compute; reflexivity|].
  split; [vm_compute; reflexivity|].
  split; [vm_compute; reflexivity|].
  split; [reflexivity|].
  split; [apply moved_reachable|].
  vm_compute. repeat split.
Qed.

(** ** Project deletion *)

(** C3: the code breaks the claim, through the defect of C1.  After Bob
    has moved his task into Alice's project [p1000], that project holds
    one task (N = 1) and Alice has no task at all.  Alice deletes the
    project: the delete succeeds, Bob's task is removed with it, and
    Alice's task count is 0 before and after, so it has not decreased
    by N. *)
Theorem delete_project_removes_foreign_task :
  let s := Scenario.moved in
  let result := handle Scenario.alice_world
                  (Protected Scenario.as_alice (DeleteProject "p1000")) s in
  reachable s /\
  caller s Scenario.as_alice = Some Scenario.alice /\
  owns_project s (SText "u1000") (SText "p1000") = true /\
  count (in_project (SText "p1000")) (tasks s) = 1%nat /\
  count (owned_by (SText "u1000")) (tasks s) = 0%nat /\
  count (owned_by (SText "u2000")) (tasks s) = 1%nat /\
  fst result = json success /\
  count (owned_by (SText "u1000")) (tasks (snd result)) = 0%nat /\
  count (owned_by (SText "u2000")) (tasks (snd result)) = 0%nat /\
  tasks (snd result) = [].
Proof.
  cbv zeta. split; [apply moved_reachable|].
  vm_compute. repeat split.
Qed.

(** ** The theorems at work on the sample session *)

(** Alice names Bob's project [p2000] in a task creation. *)
Lemma create_task_needs_own_project_witness :
  handle Scenario.alice_world
    (Protected Scenario.as_alice
       (CreateTask (Scenario.new_task "t9" "p2000"))) Scenario.store
  = (fail 400 "Invalid project", Scenario.store).
Proof.
  destruct store_tables as (Hp & _ & Hcaller & _).
  pose proof (create_task_needs_own_project Scenario.alice_world Scenario.store
                Scenario.as_alice Scenario.alice
                (Scenario.new_task "t9" "p2000") store_reachable Hcaller) as H.
  cbv zeta in H. destruct H as (H & _).
  apply (H Scenario.work).
  - rewrite Hp. simpl. auto.
  - reflexivity.
  - vm_compute. discriminate.
Defined.

(** Alice renames and deletes Bob's project [p2000]. *)
Lemma project_routes_check_owner_witness :
  handle Scenario.alice_world
    (Protected Scenario.as_alice (UpdateProject "p2000" [("name", JStr "Mine")]))
    Scenario.store = (fail 404 "Project not found", Scenario.store) /\
  handle Scenario.alice_world
    (Protected Scenario.as_alice (DeleteProject "p2000"))
    Scenario.store = (fail 404 "Project not found", Scenario.store).
Proof.
  destruct store_tables as (Hp & _ & Hcaller & _).
  pose proof (project_routes_check_owner Scenario.alice_world Scenario.store
                Scenario.as_alice Scenario.alice "p2000" [("name", JStr "Mine")]
                store_reachable Hcaller) as (H & Hforeign & _).
  apply H. apply (Hforeign Scenario.work).
  - rewrite Hp. simpl. auto.
  - reflexivity.
  - vm_compute. discriminate.
Defined.

(** Bob toggles his task [t1] twice. *)
Lemma toggle_involution_witness :
  let first := handle Scenario.bob_world
                 (Protected Scenario.as_bob (ToggleTask "t1")) Scenario.store in
  let second := handle Scenario.bob_world
                  (Protected Scenario.as_bob (ToggleTask "t1")) (snd first) in
  snd second = Scenario.store.
Proof.
  destruct store_tables as (_ & Ht & _ & Hcaller).
  assert (In Scenario.report (tasks Scenario.store)) as Hin
    by (rewrite Ht; simpl; auto).
  pose proof (toggle_involution Scenario.bob_world Scenario.bob_world
                Scenario.store Scenario.as_bob Scenario.bob "t1" Scenario.report
                store_reachable Hcaller Hin eq_refl) as H.
  cbv zeta in H. destruct H as (H & _).
  destruct (H ltac:(vm_compute; reflexivity)) as (c & _ & _ & _ & _ & _ & Hback).
  exact Hback.
Defined.

(** On the sample store: a request without the header and one with a
    token nobody holds get 401; Alice's header runs the handler as Alice. *)
Lemma requireAuth_gate_witness :
  handle Scenario.alice_world (Protected None Export) Scenario.store
  = (fail 401 "Unauthorized", Scenario.store) /\
  handle Scenario.alice_world (Protected (Some "Bearer 0000") Export) Scenario.store
  = (fail 401 "Unauthorized", Scenario.store) /\
  handle Scenario.alice_world (Protected Scenario.as_alice Export) Scenario.store
  = export Scenario.alice Scenario.store.
Proof.
  pose proof (requireAuth_gate None Scenario.store
                (handler Scenario.alice_world None Export))
    as (Habsent & _ & _ & _ & _ & _ & _ & _ & _ & _ & _ & _ & Hroute).
  pose proof (requireAuth_gate (Some "Bearer 0000") Scenario.store
                (handler Scenario.alice_world (Some "Bearer 0000") Export))
    as (_ & _ & Hunknown & _ & _ & _ & _ & _ & _ & _ & _ & _ & Hroute').
  pose proof (requireAuth_gate Scenario.as_alice Scenario.store
                (handler Scenario.alice_world Scenario.as_alice Export))
    as (_ & _ & _ & Hknown & _ & _ & _ & _ & _ & _ & _ & _ & Hroute'').
  split; [rewrite Hroute; exact Habsent|].
  split.
  - rewrite Hroute'. apply (Hunknown "0000"). vm_compute. reflexivity.
  - rewrite Hroute''.
    apply (Hknown Scenario.alice_token Scenario.alice).
    + vm_compute. discriminate.
    + vm_compute. reflexivity.
Defined.

(** Alice sends her token without the prefix. *)
Lemma bare_token_accepted_witness :
  requireAuth (Some Scenario.alice_token) me Scenario.store
  = me Scenario.alice Scenario.store.
Proof.
  pose proof (bare_token_accepted Scenario.store Scenario.alice_token
                Scenario.alice me store_reachable
                ltac:(vm_compute; reflexivity)) as (_ & _ & H & _).
  exact H.
Defined.

(** Alice changes her nickname and nothing else. *)
Lemma profile_update_frame_witness :
  let result := handle Scenario.alice_world
                  (Protected Scenario.as_alice
                     (Profile [("nickname", JStr "Ally")])) Scenario.store in
  fst result = json success /\
  projects (snd result) = projects Scenario.store /\
  tasks (snd result) = tasks Scenario.store /\
  sessions (snd result) = sessions Scenario.store.
Proof.
  destruct store_tables as (_ & _ & Hcaller & _).
  pose proof (profile_update_frame Scenario.alice_world Scenario.store
                Scenario.as_alice Scenario.alice [("nickname", JStr "Ally")]
                Hcaller) as H.
  cbv zeta in H. destruct H as (H1 & H2 & H3 & H4 & _).
  cbv zeta. repeat split; assumption.
Defined.

(** * The single-tenant server: export and import *)






Section RoundTrip.
Context {driver : SqlDriver}.









End RoundTrip.

Section ImportLoops.
Context {driver : SqlDriver}.

(** One turn of the loop over the supplied projects. *)
Lemma import_projects_step w p rest s :
  Legacy.import_projects w (p :: rest) s =
  match prop p "id" with
  | None =>
      (Throw (TypeError
         ("Cannot read properties of " +:+
          (match p with JNull => "null" | _ => "undefined" end) +:+
          " (reading 'id')")), s)
  | Some _ =>
      match Legacy.insert_project w (Legacy.element_prop p "id")
                                    (Legacy.element_prop p "name") s with
      | inl e => (Throw (SqlError e), s)
      | inr s' => Legacy.import_projects w rest s'
      end
  end.
Proof.
  destruct p; try reflexivity;
    cbn -[Legacy.insert_project];
    unfold and_then, run;
    destruct (Legacy.insert_project _ _ _ _); reflexivity.
Qed.

Lemma insert_project_row w id name s s' :
  Legacy.insert_project w id name s = inr s' ->
  s' = Legacy.with_projects
         (fun l => (l ++ [{| Legacy.p_id := bind_text id;
                             Legacy.p_name := bind_text name;
                             Legacy.p_created_at :=
                               SText (Legacy.current_timestamp w) |}])%list) s.
Proof.
  unfold Legacy.insert_project. intros H. split_ifs H. congruence.
Qed.


(** One turn of the loop over the supplied tasks. *)
Lemma import_tasks_step w t rest s :
  Legacy.import_tasks w (t :: rest) s =
  match prop t "id" with
  | None =>
      (Throw (TypeError
         ("Cannot read properties of " +:+
          (match t with JNull => "null" | _ => "undefined" end) +:+
          " (reading 'id')")), s)
  | Some _ =>
      match Legacy.add_task (Legacy.task_row_of w t) s with
      | inl e => (Throw (SqlError e), s)
      | inr s' => Legacy.import_tasks w rest s'
      end
  end.
Proof.
  destruct t; try reflexivity;
    cbn -[Legacy.add_task];
    unfold and_then, run, Legacy.insert_task_completed;
    destruct (Legacy.add_task _ _); reflexivity.
Qed.

Lemma add_task_row row s s' :
  Legacy.add_task row s = inr s' ->
  s' = Legacy.with_tasks (fun l => (l ++ [row])%list) s.
Proof.
  unfold Legacy.add_task. intros H. split_ifs H. congruence.
Qed.

End ImportLoops.


Section ExportImport.
Context {driver : SqlDriver}.




End ExportImport.

Section RoundTripTheorem.
Context {driver : SqlDriver}.


End RoundTripTheorem.



(** ** The schema's constraints hold after every request *)

Lemma sqlval_eqb_refl v : sqlval_eqb v v = true.
Proof. destruct v; simpl; auto using Z.eqb_refl, String.eqb_refl. Qed.

Section LegacySchema.
Context {driver : SqlDriver}.

Lemma bind_text_stored v : Legacy.text_stored (bind_text v) = true.
Proof. unfold bind_text. destruct (bind v); reflexivity. Qed.

Lemma not_null_text v : is_null (bind_text v) = false -> is_text (bind_text v) = true.
Proof. unfold bind_text. destruct (bind v); simpl; congruence. Qed.

Lemma bind_numeric_stored v : Legacy.numeric_stored (bind_numeric v) = true.
Proof.
  unfold Legacy.numeric_stored, bind_numeric.
  destruct (bind v) as [|n|s].
  - rewrite !numeric_affinity_null. reflexivity.
  - rewrite !numeric_affinity_int. apply Z.eqb_refl.
  - destruct (numeric_affinity_text s) as [E | [n E]]; rewrite !E.
    + apply sqlval_eqb_refl.
    + rewrite numeric_affinity_int. apply sqlval_eqb_refl.
Qed.

Lemma schema_ok_spec s :
  Legacy.schema_ok s = true <->
  forallb Legacy.project_ok (Legacy.projects s) = true /\
  unique_keys (map Legacy.p_id (Legacy.projects s)) = true /\
  forallb Legacy.task_ok (Legacy.tasks s) = true /\
  unique_keys (map Legacy.t_id (Legacy.tasks s)) = true.
Proof. unfold Legacy.schema_ok. rewrite !andb_true_iff. tauto. Qed.

Lemma forallb_filter {A} (P f : A -> bool) (l : list A) :
  forallb P l = true -> forallb P (List.filter f l) = true.
Proof.
  rewrite !forallb_forall. intros H x Hin.
  apply filter_In in Hin as [Hin _]. auto.
Qed.

Lemma forallb_map_if {A} (P sel : A -> bool) (upd : A -> A) (l : list A) :
  forallb P l = true -> (forall r, P r = true -> P (upd r) = true) ->
  forallb P (map (fun r => if sel r then upd r else r) l) = true.
Proof.
  rewrite !forallb_forall. intros H Hupd x Hin.
  apply in_map_iff in Hin as (r & <- & Hin).
  destruct (sel r); auto.
Qed.

Lemma insert_project_schema w id name s s' :
  Legacy.insert_project w id name s = inr s' ->
  Legacy.schema_ok s = true -> Legacy.schema_ok s' = true.
Proof.
  unfold Legacy.insert_project. intros H. rewrite !schema_ok_spec.
  intros (Hp & Hpu & Ht & Htu). split_ifs H. injection H as <-. simpl.
  repeat split; auto.
  - rewrite forallb_app, Hp. simpl. unfold Legacy.project_ok. simpl.
    rewrite bind_text_stored, not_null_text by assumption. reflexivity.
  - apply (unique_keys_insert Legacy.p_id); assumption.
Qed.

Lemma add_task_schema row s s' :
  Legacy.add_task row s = inr s' ->
  Legacy.text_stored (Legacy.t_id row) = true ->
  Legacy.text_stored (Legacy.t_project_id row) = true ->
  Legacy.text_stored (Legacy.t_name row) = true ->
  Legacy.text_stored (Legacy.t_description row) = true ->
  Legacy.text_stored (Legacy.t_priority row) = true ->
  Legacy.numeric_stored (Legacy.t_deadline row) = true ->
  Legacy.numeric_stored (Legacy.t_completed row) = true ->
  Legacy.schema_ok s = true -> Legacy.schema_ok s' = true.
Proof.
  unfold Legacy.add_task. intros H H1 H2 H3 H4 H5 H6 H7. rewrite !schema_ok_spec.
  intros (Hp & Hpu & Ht & Htu). split_ifs H. injection H as <-. simpl.
  repeat split; auto.
  - rewrite forallb_app, Ht. simpl. unfold Legacy.task_ok.
    rewrite H1, H4, H5, H6, H7.
    destruct (Legacy.t_project_id row), (Legacy.t_name row),
      (Legacy.t_deadline row); unfold Legacy.text_stored in *; simpl in *;
      congruence.
  - apply (unique_keys_insert Legacy.t_id); assumption.
Qed.

Lemma numeric_stored_int n : Legacy.numeric_stored (SInt n) = true.
Proof.
  unfold Legacy.numeric_stored. rewrite numeric_affinity_int. apply Z.eqb_refl.
Qed.

Lemma import_projects_schema w ps s :
  Legacy.schema_ok s = true ->
  Legacy.schema_ok (snd (Legacy.import_projects w ps s)) = true.
Proof.
  revert s. induction ps as [|p ps IH]; intros s Hs; [exact Hs|].
  rewrite import_projects_step.
  destruct (prop p "id"); [|exact Hs].
  destruct (Legacy.insert_project w _ _ s) eqn:E; [exact Hs|].
  apply IH. eapply insert_project_schema; eauto.
Qed.

Lemma import_tasks_schema w ts s :
  Legacy.schema_ok s = true ->
  Legacy.schema_ok (snd (Legacy.import_tasks w ts s)) = true.
Proof.
  revert s. induction ts as [|t ts IH]; intros s Hs; [exact Hs|].
  rewrite import_tasks_step.
  destruct (prop t "id"); [|exact Hs].
  destruct (Legacy.add_task _ s) eqn:E; [exact Hs|].
  apply IH.
  eapply add_task_schema; [exact E | .. | exact Hs]; simpl;
    auto using bind_text_stored, bind_numeric_stored.
Qed.

(** X25.  Every request of the single-tenant server keeps the schema's
    constraints, which the round trip relies on: column affinities, NOT
    NULL and unique ids. *)
Theorem legacy_handle_schema_ok (w : Legacy.world) (r : Legacy.request)
    (s : Legacy.state) :
  Legacy.schema_ok s = true ->
  Legacy.schema_ok (snd (Legacy.handle w r s)) = true.
Proof.
  intros Hs. destruct r as [|b|id|p|b|id b|id| id| |b]; simpl.
  - exact Hs.
  - unfold Legacy.create_project. run_handler.
    destruct (Legacy.insert_project _ _ _ s) eqn:E; simpl;
      eauto using insert_project_schema.
  - unfold Legacy.remove_project. run_handler.
    apply schema_ok_spec in Hs as (Hp & Hpu & Ht & Htu).
    apply schema_ok_spec. simpl.
    auto using forallb_filter, unique_keys_filter.
  - unfold Legacy.list_tasks. run_handler.
    destruct p as [p|]; [destruct (negb (String.eqb p EmptyString))|];
      exact Hs.
  - unfold Legacy.create_task. run_handler.
    destruct (Legacy.insert_task _ _ _ _ _ _ _ s) eqn:E; simpl; auto.
    unfold Legacy.insert_task in E.
    eapply add_task_schema; [exact E | .. | exact Hs]; simpl;
      auto using bind_text_stored, bind_numeric_stored, numeric_stored_int.
  - unfold Legacy.put_task. run_handler.
    destruct (Legacy.update_task _ _ _ _ _ _ _ s) as [e|s1] eqn:E; simpl; auto.
    apply schema_ok_spec in Hs as (Hp & Hpu & Ht & Htu).
    unfold Legacy.update_task in E.
    destruct (existsb _ (Legacy.tasks s)) eqn:Hex.
    + simpl in E. split_ifs E; injection E as <-.
      all: apply schema_ok_spec; simpl; repeat split; auto.
      all: try (apply forallb_map_if; [assumption|]; intros r Hr;
                unfold Legacy.task_ok in *; simpl;
                repeat (apply andb_true_iff in Hr as [Hr ?]);
                rewrite !bind_text_stored, !bind_numeric_stored,
                  !not_null_text by assumption;
                rewrite Hr; simpl;
                match goal with
                | H : is_null ?d = false |- context [is_null ?d] => rewrite H
                end; reflexivity).
      all: rewrite map_map;
        erewrite map_ext; [exact Htu|];
        intros r; simpl; destruct (sql_eq _ _); reflexivity.
    + simpl in E. split_ifs E; injection E as <-.
      all: apply schema_ok_spec; simpl; repeat split; auto.
      all: assert (map (fun r => if sql_eq (Legacy.t_id r) (bind_text (JStr id))
                                 then _ else r) (Legacy.tasks s) = Legacy.tasks s)
        as -> by (rewrite <- (map_id (Legacy.tasks s)) at 2;
                  apply map_ext_in; intros r Hr;
                  destruct (sql_eq (Legacy.t_id r) (bind_text (JStr id))) eqn:Er;
                  [exfalso;
                   assert (existsb (fun r => sql_eq (Legacy.t_id r)
                                               (bind_text (JStr id)))
                                   (Legacy.tasks s) = true)
                     by (apply existsb_exists; eauto);
                   congruence
                  | reflexivity]).
      all: assumption.
  - unfold Legacy.toggle_task. run_handler.
    destruct (List.filter _ (Legacy.tasks s)); simpl; auto.
    apply schema_ok_spec in Hs as (Hp & Hpu & Ht & Htu).
    apply schema_ok_spec. simpl. repeat split; auto.
    + apply forallb_map_if; [assumption|]. intros r Hr.
      unfold Legacy.task_ok in *. simpl.
      repeat (apply andb_true_iff in Hr as [Hr ?]).
      repeat (apply andb_true_iff; split); auto using bind_numeric_stored.
    + rewrite map_map. erewrite map_ext; [exact Htu|].
      intros r. simpl. destruct (sql_eq _ _); reflexivity.
  - unfold Legacy.remove_task. run_handler.
    apply schema_ok_spec in Hs as (Hp & Hpu & Ht & Htu).
    apply schema_ok_spec. simpl.
    auto using forallb_filter, unique_keys_filter.
  - exact Hs.
  - unfold Legacy.import. run_handler.
    destruct (field b "projects"); try exact Hs.
    destruct (field b "tasks"); try exact Hs.
    simpl.
    pose proof (import_projects_schema w elems Legacy.empty eq_refl) as H1.
    destruct (Legacy.import_projects w elems _) as [[[]|e] s1] eqn:E1;
      simpl in *; [|exact H1].
    pose proof (import_tasks_schema w elems0 s1 H1) as H2.
    destruct (Legacy.import_tasks w elems0 s1) as [[[]|e] s2]; exact H2.
Qed.
End LegacySchema.

(** ** Toggle in the single-tenant server *)

Section LegacyToggle.
Context {driver : SqlDriver}.

(** One toggle of the task with the requested id. *)
Lemma legacy_toggle_once s id t c :
  unique_keys (map Legacy.t_id (Legacy.tasks s)) = true ->
  In t (Legacy.tasks s) -> Legacy.t_id t = SText id ->
  Legacy.t_completed t = SInt c ->
  Legacy.toggle_task id s =
  (json (JObj [("success", JBool true);
               ("completed", JNum (if c =? 0 then 1 else 0))]),
   Legacy.with_tasks (map (fun r =>
     if sql_eq (Legacy.t_id r) (SText id)
     then {| Legacy.t_id := Legacy.t_id r;
             Legacy.t_project_id := Legacy.t_project_id r;
             Legacy.t_name := Legacy.t_name r;
             Legacy.t_description := Legacy.t_description r;
             Legacy.t_priority := Legacy.t_priority r;
             Legacy.t_deadline := Legacy.t_deadline r;
             Legacy.t_completed := SInt (if c =? 0 then 1 else 0);
             Legacy.t_created_at := Legacy.t_created_at r |}
     else r)) s).
Proof.
  intros Hu Hin Hid Hflag.
  assert (sql_eq (Legacy.t_id t) (SText id) = true) as Hkey
    by (rewrite Hid; apply sql_eq_text).
  unfold Legacy.toggle_task. run_handler.
  destruct (List.filter _ (Legacy.tasks s)) as [|t0 rest] eqn:Hsel.
  - assert (In t (List.filter
                    (fun r => sql_eq (Legacy.t_id r) (bind_text (JStr id)))
                    (Legacy.tasks s)))
      as Habs by (apply filter_In; auto).
    rewrite Hsel in Habs. contradiction.
  - assert (In t0 (List.filter
                     (fun r => sql_eq (Legacy.t_id r) (bind_text (JStr id)))
                    (Legacy.tasks s)))
      as Ht0 by (rewrite Hsel; simpl; auto).
    apply filter_In in Ht0 as [Ht0 Hk0].
    assert (t0 = t) as ->
      by (apply (unique_keys_select Legacy.t_id (Legacy.tasks s) t0 t (SText id));
          auto).
    simpl. rewrite Hflag. simpl. rewrite to_double_eq_0.
    unfold bind_numeric. simpl.
    destruct (c =? 0); simpl; rewrite numeric_affinity_int; reflexivity.
Qed.

(** X26.  In the single-tenant server a toggle for an id no task has
    answers 404 and changes nothing; for a task whose flag is 0 or 1 it stores
    the other value, and a second toggle restores the store.  (An import
    may store other values in [completed]; the first toggle then moves
    the flag to 0 or 1 for good.) *)
Theorem legacy_toggle_involution (s : Legacy.state) (id : string)
    (t : Legacy.task_row) (c : Z) :
  unique_keys (map Legacy.t_id (Legacy.tasks s)) = true ->
  ((forall r, In r (Legacy.tasks s) -> sql_eq (Legacy.t_id r) (SText id) = false) ->
   Legacy.toggle_task id s = (fail 404 "Task not found", s)) /\
  (In t (Legacy.tasks s) -> Legacy.t_id t = SText id ->
   Legacy.t_completed t = SInt c -> c = 0 \/ c = 1 ->
   fst (Legacy.toggle_task id s)
     = json (JObj [("success", JBool true); ("completed", JNum (1 - c))]) /\
   snd (Legacy.toggle_task id (snd (Legacy.toggle_task id s))) = s).
Proof.
  intros Hu. split.
  - intros Hnone. unfold Legacy.toggle_task. run_handler.
    destruct (List.filter _ (Legacy.tasks s)) as [|t0 rest] eqn:Hsel;
      [reflexivity|].
    assert (In t0 (List.filter
                     (fun r => sql_eq (Legacy.t_id r) (bind_text (JStr id)))
                    (Legacy.tasks s)))
      as Ht0 by (rewrite Hsel; simpl; auto).
    apply filter_In in Ht0 as [Ht0 Hk0].
    change (bind_text (JStr id)) with (SText id) in Hk0.
    rewrite (Hnone t0 Ht0) in Hk0. discriminate.
  - intros Hin Hid Hflag Hc01.
    rewrite (legacy_toggle_once s id t c Hu Hin Hid Hflag).
    replace (if c =? 0 then 1 else 0) with (1 - c)
      by (destruct Hc01; subst; reflexivity).
    cbn [fst snd]. split; [reflexivity|].
    set (t1 := {| Legacy.t_id := Legacy.t_id t;
                  Legacy.t_project_id := Legacy.t_project_id t;
                  Legacy.t_name := Legacy.t_name t;
                  Legacy.t_description := Legacy.t_description t;
                  Legacy.t_priority := Legacy.t_priority t;
                  Legacy.t_deadline := Legacy.t_deadline t;
                  Legacy.t_completed := SInt (1 - c);
                  Legacy.t_created_at := Legacy.t_created_at t |}).
    match goal with
    | |- context [Legacy.toggle_task id ?st] => set (s1 := st)
    end.
    assert (map Legacy.t_id (Legacy.tasks s1) = map Legacy.t_id (Legacy.tasks s))
      as Hkeys.
    { subst s1. simpl. rewrite map_map. apply map_ext. intros r.
      destruct (sql_eq _ _); reflexivity. }
    assert (In t1 (Legacy.tasks s1)) as Hin1.
    { subst s1. simpl. apply in_map_iff. exists t. split; [|exact Hin].
      replace (sql_eq (Legacy.t_id t) (SText id)) with true; [reflexivity|].
      rewrite Hid. symmetry. apply sql_eq_text. }
    rewrite (legacy_toggle_once s1 id t1 (1 - c)); auto;
      [|rewrite Hkeys; exact Hu].
    replace (if 1 - c =? 0 then 1 else 0) with c
      by (destruct Hc01; subst; reflexivity).
    cbn [snd]. subst s1. unfold Legacy.with_tasks. simpl.
    rewrite map_map.
    assert (map _ (Legacy.tasks s) = Legacy.tasks s) as ->.
    { rewrite <- (map_id (Legacy.tasks s)) at 2. apply map_ext_in.
      intros r Hr.
      destruct (sql_eq (Legacy.t_id r) (SText id)) eqn:E; simpl; rewrite E;
        [|reflexivity].
      assert (r = t) as ->
        by (apply (unique_keys_select Legacy.t_id (Legacy.tasks s) r t (SText id));
            auto; rewrite Hid; apply sql_eq_text).
      destruct t; simpl in *; subst; reflexivity. }
    destruct s; reflexivity.
Qed.
End LegacyToggle.

Lemma legacy_toggle_involution_witness :
  snd (Legacy.toggle_task "t1"
         (snd (Legacy.toggle_task "t1" Scenario.legacy_store)))
  = Scenario.legacy_store.
Proof.
  pose proof (legacy_toggle_involution Scenario.legacy_store "t1"
                {| Legacy.t_id := SText "t1"; Legacy.t_project_id := SText "p1";
                   Legacy.t_name := SText "Buy groceries";
                   Legacy.t_description := SText "Milk, eggs, bread";
                   Legacy.t_priority := SText "high";
                   Legacy.t_deadline := SText "2025-06-02";
                   Legacy.t_completed := SInt 0;
                   Legacy.t_created_at := SText "2025-06-01 09:00:00" |} 0
                eq_refl) as (_ & H).
  apply H; [simpl; auto | reflexivity | reflexivity | auto].
Defined.

(** ** Export in the single-tenant server *)

(** The single-tenant export holds every project and every task of the
    store and, unlike the multi-user one, an [exportedAt] field with the
    time of the export. *)
Lemma legacy_export_document (w : Legacy.world) (s : Legacy.state) :
  status (fst (Legacy.export w s)) = 200 /\
  body (fst (Legacy.export w s))
    = JObj [("projects", JArr (map Legacy.project_json (Legacy.projects s)));
            ("tasks", JArr (map Legacy.task_json (Legacy.tasks s)));
            ("exportedAt", JStr (Legacy.iso_string w))] /\
  object_keys (body (fst (Legacy.export w s)))
    = ["projects"; "tasks"; "exportedAt"] /\
  snd (Legacy.export w s) = s.
Proof. repeat split. Qed.

(** * Further properties of the multi-user server *)

Section Routes.
Context {driver : SqlDriver}.

Lemma handle_as w a c s userId :
  caller s a = Some userId ->
  handle w (Protected a c) s = handler w a c userId s.
Proof. intros H. simpl. rewrite requireAuth_caller, H. reflexivity. Qed.

Lemma handle_anonymous w a c s :
  caller s a = None -> handle w (Protected a c) s = (unauthorized, s).
Proof. intros H. simpl. rewrite requireAuth_caller, H. reflexivity. Qed.

Lemma handler_failure_keeps_store w a c userId s :
  status (fst (handler w a c userId s)) <> 200 ->
  snd (handler w a c userId s) = s.
Proof.
  destruct c as [| |b| |b|id|id b|project_id|b|id b|id|id|]; simpl.
  - unfold logout. destruct (bearer_token a); simpl; congruence.
  - unfold me. run_handler. congruence.
  - unfold profile. run_handler.
    destruct (truthy (field b "nickname"));
      [destruct (update_user_nickname _ _ s) as [e|s1] eqn:E1|]; simpl; auto.
    + destruct (truthy (field b "password")) eqn:Hpw; simpl; [|congruence].
      destruct (update_user_password _ _ s1) as [e|s2] eqn:E2; simpl;
        [|congruence].
      exfalso. unfold update_user_password in E2.
      rewrite (truthy_not_null _ Hpw), andb_false_r in E2. discriminate.
    + destruct (truthy (field b "password")); simpl; [|congruence].
      destruct (update_user_password _ _ s) as [e|s2] eqn:E2; simpl; congruence.
  - unfold list_projects. run_handler. congruence.
  - unfold create_project. run_handler.
    destruct (insert_project _ _ _ _ s); simpl; congruence.
  - unfold remove_project. run_handler.
    destruct (select_project _ _ s); simpl; congruence.
  - unfold rename_project. run_handler.
    destruct (select_project _ _ s); simpl; auto.
    destruct (update_project_name _ _ s); simpl; congruence.
  - unfold list_tasks. run_handler.
    destruct project_id as [p|]; [destruct (negb (String.eqb p EmptyString))|];
      simpl; congruence.
  - unfold create_task. run_handler.
    destruct (select_project _ _ s); simpl; auto.
    destruct (insert_task _ _ _ _ _ _ _ _ s); simpl; congruence.
  - unfold put_task. run_handler.
    destruct (select_task _ _ s); simpl; auto.
    destruct (update_task _ _ _ _ _ _ _ s); simpl; congruence.
  - unfold toggle_task. run_handler.
    destruct (select_task _ _ s); simpl; congruence.
  - unfold remove_task. run_handler.
    destruct (select_task _ _ s); simpl; congruence.
  - unfold export. run_handler. congruence.
Qed.

(** X1.  A request that is not answered with 200 has changed nothing:
    although no handler uses a transaction, every answer of 400, 401, 404
    or 500 of the multi-user server comes with the store and the session
    registry exactly as they were before the request. *)
Theorem failed_request_changes_nothing (w : world) (r : request) (s : state) :
  status (fst (handle w r s)) <> 200 -> snd (handle w r s) = s.
Proof.
  destruct r as [b|b|a c]; simpl.
  - unfold register. run_handler.
    destruct (negb _ || negb _ || negb _); simpl; auto.
    destruct (insert_user _ _ _ _ _ s); simpl; [reflexivity | congruence].
  - unfold login. run_handler.
    destruct (select_user_by_username _ s) as [user|]; simpl; auto.
    destruct (negb _); simpl; congruence.
  - rewrite requireAuth_caller. destruct (caller s a); simpl; auto.
    apply handler_failure_keeps_store.
Qed.
End Routes.

Lemma failed_request_changes_nothing_witness :
  snd (handle Scenario.bob_world
         (Register (Scenario.credentials "alice" "Alice2" "pw9"))
         Scenario.alice_only) = Scenario.alice_only.
Proof.
  apply failed_request_changes_nothing. vm_compute. discriminate.
Defined.

(** ** Registration, login and logout *)

Lemma find_last {A} (f : A -> bool) (l : list A) (x : A) :
  existsb f l = false -> f x = true -> find f (l ++ [x]) = Some x.
Proof.
  induction l as [|y l IH]; simpl; intros Hl Hx.
  - rewrite Hx. reflexivity.
  - apply orb_false_iff in Hl as [Hy Hl]. rewrite Hy. auto.
Qed.

Section Accounts.
Context {driver : SqlDriver}.

Lemma register_cases (w : world) (body : jsobject) (s : state) :
  let username := field body "username" in
  let nickname := field body "nickname" in
  let password := field body "password" in
  let id := "u" +:+ Z_to_string (date_now w) in
  handle w (Register body) s =
  if negb (truthy username) || negb (truthy nickname) || negb (truthy password)
  then (fail 400 "All fields required", s)
  else if existsb (fun u => sql_eq (u_id u) (SText id)) (users s) ||
          existsb (fun u => sql_eq (u_username u) (bind_text username)) (users s)
  then (fail 400 "Username already exists", s)
  else (json (JObj [("id", JStr id); ("username", username);
                    ("nickname", nickname)]),
        with_users (fun l =>
          (l ++ [{| u_id := SText id;
                    u_username := bind_text username;
                    u_nickname := bind_text nickname;
                    u_password := bind_text password;
                    u_created_at := SText (current_timestamp w) |}])%list) s).
Proof.
  intros username nickname password id.
  simpl handle. unfold register. fold username nickname password.
  unfold try_catch.
  destruct (truthy username) eqn:Hu; [|reflexivity].
  destruct (truthy nickname) eqn:Hn; [|reflexivity].
  destruct (truthy password) eqn:Hp; [|reflexivity].
  cbn [negb orb]. unfold and_then, run, ret, insert_user.
  cbn [u_id u_username u_nickname u_password].
  rewrite (truthy_not_null _ Hu), (truthy_not_null _ Hn), (truthy_not_null _ Hp).
  change (bind_text (JStr ("u" +:+ Z_to_string (date_now w)))) with (SText id).
  destruct (existsb (fun u => sql_eq (u_id u) (SText id)) (users s));
    [reflexivity|].
  destruct (existsb (fun u => sql_eq (u_username u) (bind_text username)) (users s));
    reflexivity.
Qed.

(** X2.  The outcomes of a registration.  If the username, the nickname
    or the password is missing or falsy, the answer is 400 (All fields
    required).  Otherwise, if a user row already has the new id (a
    registration in the same millisecond) or the username, the answer is
    400 (Username already exists).  Otherwise the answer is 200 with id,
    username and nickname but not the password, and one user row is
    appended that holds the password as it was sent.  No registration
    answers 500, and a refused one leaves the store as it was. *)
Theorem register_outcomes (w : world) (body : jsobject) (s : state) :
  let username := field body "username" in
  let nickname := field body "nickname" in
  let password := field body "password" in
  let id := "u" +:+ Z_to_string (date_now w) in
  handle w (Register body) s =
  if negb (truthy username) || negb (truthy nickname) || negb (truthy password)
  then (fail 400 "All fields required", s)
  else if existsb (fun u => sql_eq (u_id u) (SText id)) (users s) ||
          existsb (fun u => sql_eq (u_username u) (bind_text username)) (users s)
  then (fail 400 "Username already exists", s)
  else (json (JObj [("id", JStr id); ("username", username);
                    ("nickname", nickname)]),
        with_users (fun l =>
          (l ++ [{| u_id := SText id;
                    u_username := bind_text username;
                    u_nickname := bind_text nickname;
                    u_password := bind_text password;
                    u_created_at := SText (current_timestamp w) |}])%list) s).
Proof. exact (register_cases w body s). Qed.

(** X3.  A user who has just registered can log in.  After a
    registration answered with 200, whose username and password are
    strings, a login with the same two strings answers 200, and the token
    it issues, sent as [Bearer token], is resolved by the gate to the id
    the registration returned; a login with any other password string
    answers 401. *)
Theorem register_then_login (w w' : world) (s : state) (body : jsobject)
    (username password : string) :
  field body "username" = JStr username ->
  field body "password" = JStr password ->
  world_ok w' ->
  status (fst (handle w (Register body) s)) = 200 ->
  let s1 := snd (handle w (Register body) s) in
  let attempt p := handle w' (Login [("username", JStr username);
                                     ("password", JStr p)]) s1 in
  let token := to_hex (random_bytes w') in
  status (fst (attempt password)) = 200 /\
  caller (snd (attempt password)) (Some ("Bearer " +:+ token))
    = Some (JStr ("u" +:+ Z_to_string (date_now w))) /\
  (forall p, p <> password ->
     attempt p = (fail 401 "Invalid credentials", s1)).
Proof.
  intros Hu Hp Hw.
  pose proof (register_cases w body s) as Hreg. cbv zeta in Hreg.
  rewrite Hreg, Hu, Hp. clear Hreg.
  destruct (negb _ || negb _ || negb _); [simpl; discriminate|].
  destruct (existsb _ (users s) || existsb _ (users s)) eqn:Htaken;
    [simpl; discriminate|].
  intros _ s1 attempt token. cbn [snd] in s1.
  apply orb_false_iff in Htaken as [_ Hfresh].
  assert (select_user_by_username (JStr username) s1 =
            Some {| u_id := SText ("u" +:+ Z_to_string (date_now w));
                    u_username := SText username;
                    u_nickname := bind_text (field body "nickname");
                    u_password := SText password;
                    u_created_at := SText (current_timestamp w) |}) as Hfind.
  { unfold select_user_by_username. subst s1. simpl.
    apply find_last; [exact Hfresh | apply sql_eq_text]. }
  assert (forall p, attempt p =
            if String.eqb password p
            then (json (JObj [("token", JStr token);
                              ("user", JObj [("id", JStr ("u" +:+ Z_to_string (date_now w)));
                                             ("username", JStr username);
                                             ("nickname", to_js (bind_text (field body "nickname")))])]),
                  with_sessions (insert token (JStr ("u" +:+ Z_to_string (date_now w)))) s1)
            else (fail 401 "Invalid credentials", s1)) as Hattempt.
  { intros p. subst attempt. cbv beta. simpl handle. unfold login.
    unfold try_catch, and_then, query, ret.
    change (field [("username", JStr username); ("password", JStr p)] "username")
      with (JStr username).
    change (field [("username", JStr username); ("password", JStr p)] "password")
      with (JStr p).
    rewrite Hfind. cbn [u_password to_js strict_eq].
    destruct (String.eqb password p); reflexivity. }
  split; [|split].
  - rewrite Hattempt, String.eqb_refl. reflexivity.
  - rewrite Hattempt, String.eqb_refl. cbn [snd].
    unfold caller.
    change (bearer_token (Some ("Bearer " +:+ token)))
      with (Some (js_replace "Bearer " EmptyString ("Bearer " +:+ token))).
    rewrite replace_bearer_prefix, length_64_not_empty.
    + simpl. apply lookup_insert_eq.
    + subst token. rewrite to_hex_length, Hw. reflexivity.
  - intros p Hne. rewrite Hattempt.
    destruct (String.eqb_spec password p) as [-> | _]; [contradiction | reflexivity].
Qed.

(** X4.  The outcomes of a login.  It never changes a table.  In a
    consistent store it answers 200 exactly when some user row has the
    given username and a password strictly equal to the given one; it
    then adds the new token, mapped to that row's id, to the registry
    and leaves every other token as it was, so earlier sessions stay
    valid.  In every other case it answers 401 (Invalid credentials) and
    the registry is unchanged. *)
Theorem login_outcomes (w : world) (body : jsobject) (s : state) :
  consistent s ->
  let username := field body "username" in
  let password := field body "password" in
  let token := to_hex (random_bytes w) in
  let result := handle w (Login body) s in
  users (snd result) = users s /\
  projects (snd result) = projects s /\
  tasks (snd result) = tasks s /\
  (forall u, In u (users s) ->
     sql_eq (u_username u) (bind_text username) = true ->
     strict_eq (to_js (u_password u)) password = true ->
     status (fst result) = 200 /\
     sessions (snd result) = <[token := to_js (u_id u)]> (sessions s) /\
     (forall t, t <> token -> sessions (snd result) !! t = sessions s !! t)) /\
  ((forall u, In u (users s) ->
      sql_eq (u_username u) (bind_text username) = true ->
      strict_eq (to_js (u_password u)) password = false) ->
   result = (fail 401 "Invalid credentials", s)).
Proof.
  intros Hc username password token result.
  subst result. simpl handle. unfold login. fold username password token.
  unfold try_catch, and_then, query, ret.
  destruct (select_user_by_username username s) as [found|] eqn:Hsel.
  - unfold select_user_by_username in Hsel.
    apply find_some in Hsel as [Hin Hname].
    assert (forall u, In u (users s) ->
              sql_eq (u_username u) (bind_text username) = true -> found = u)
      as Hunique.
    { intros u Hu Hn.
      apply (unique_keys_select u_username (users s) found u (bind_text username));
        auto using usernames_unique. }
    destruct (strict_eq (to_js (u_password found)) password) eqn:Hpw;
      cbn [negb fst snd]; simpl.
    + split; [reflexivity|]. split; [reflexivity|]. split; [reflexivity|].
      split.
      * intros u Hu Hn _. rewrite <- (Hunique u Hu Hn).
        split; [reflexivity|]. split; [reflexivity|].
        intros t Hne. apply lookup_insert_ne. congruence.
      * intros Hall. rewrite (Hall found Hin Hname) in Hpw. discriminate.
    + split; [reflexivity|]. split; [reflexivity|]. split; [reflexivity|].
      split; [|reflexivity].
      intros u Hu Hn Hok. rewrite <- (Hunique u Hu Hn) in Hok. congruence.
  - simpl. split; [reflexivity|]. split; [reflexivity|]. split; [reflexivity|].
    split; [|reflexivity].
    intros u Hu Hn _. unfold select_user_by_username in Hsel.
    apply (find_none _ _ Hsel) in Hu. simpl in Hu. congruence.
Qed.

(** X5.  Logout revokes the token it was called with.  For a request
    that passes the gate, logout answers success and removes that
    token from the registry: the same header is refused with 401 from
    then on, on every protected route.  Every other token and all three
    tables stay as they were. *)
Theorem logout_revokes (w w' : world) (s : state) (a : option string)
    (userId : jsval) :
  caller s a = Some userId ->
  let result := handle w (Protected a Logout) s in
  fst result = json success /\
  caller (snd result) a = None /\
  (forall c, handle w' (Protected a c) (snd result)
             = (fail 401 "Unauthorized", snd result)) /\
  (forall t, bearer_token a <> Some t ->
             sessions (snd result) !! t = sessions s !! t) /\
  users (snd result) = users s /\
  projects (snd result) = projects s /\
  tasks (snd result) = tasks s.
Proof.
  intros Hcaller result.
  assert (exists token, bearer_token a = Some token /\
                        result = (json success, with_sessions (delete token) s))
    as (token & Htoken & Hresult).
  { subst result. rewrite (handle_as w a Logout s userId Hcaller).
    simpl. unfold logout. unfold caller in Hcaller.
    destruct (bearer_token a) as [token|]; [eauto | discriminate]. }
  assert (caller (snd result) a = None) as Hgone.
  { rewrite Hresult. unfold caller. rewrite Htoken.
    destruct (String.eqb token EmptyString); [reflexivity|].
    simpl. apply lookup_delete_eq. }
  split; [rewrite Hresult; reflexivity|].
  split; [exact Hgone|].
  split; [intros c; apply handle_anonymous; exact Hgone|].
  rewrite Hresult. simpl. repeat split.
  intros t Hne. apply lookup_delete_ne. congruence.
Qed.
End Accounts.

(** ** User rows and sessions *)

Section Users.
Context {driver : SqlDriver}.

(** What a request can do to the user table: nothing, append one row
    whose id is text, or rewrite nicknames and passwords in place. *)
Lemma users_after w r s :
  users (snd (handle w r s)) = users s \/
  (exists row, is_text (u_id row) = true /\
               users (snd (handle w r s)) = (users s ++ [row])%list) \/
  (exists f, (forall u, u_id (f u) = u_id u /\ u_username (f u) = u_username u /\
                        u_created_at (f u) = u_created_at u) /\
             users (snd (handle w r s)) = map f (users s)).
Proof.
  destruct r as [b|b|a c].
  - pose proof (register_cases w b s) as H. cbv zeta in H. rewrite H.
    destruct (negb _ || negb _ || negb _); [auto|].
    destruct (existsb _ (users s) || existsb _ (users s)); [auto|].
    right. left. eexists. split; [|reflexivity]. reflexivity.
  - left. simpl. unfold login. run_handler.
    destruct (select_user_by_username _ s); simpl; auto.
    destruct (negb _); reflexivity.
  - simpl. rewrite requireAuth_caller.
    destruct (caller s a) as [userId|]; [|auto].
    destruct c as [| |b| |b|id|id b|project_id|b|id b|id|id|]; simpl.
    + left. unfold logout. destruct (bearer_token a); reflexivity.
    + auto.
    + right. right. unfold profile. run_handler.
      destruct (truthy (field b "nickname")) eqn:Hn.
      * destruct (update_user_nickname_runs (field b "nickname") userId s Hn)
          as (s1 & -> & _ & _ & _ & Hu1).
        destruct (truthy (field b "password")) eqn:Hp.
        -- destruct (update_user_password_runs (field b "password") userId s1 Hp)
             as (s2 & -> & _ & _ & _ & Hu2).
           simpl. rewrite Hu2, Hu1, map_map.
           eexists. split; [|reflexivity]. intros u. cbv beta.
           destruct (sql_eq (u_id u) (bind_text userId)) eqn:E; simpl;
             rewrite ?E; simpl; auto.
        -- simpl. rewrite Hu1. eexists. split; [|reflexivity].
           intros u. cbv beta.
           destruct (sql_eq (u_id u) (bind_text userId)); simpl; repeat split;
             reflexivity.
      * destruct (truthy (field b "password")) eqn:Hp.
        -- destruct (update_user_password_runs (field b "password") userId s Hp)
             as (s2 & -> & _ & _ & _ & Hu2).
           simpl. rewrite Hu2. eexists. split; [|reflexivity].
           intros u. cbv beta.
           destruct (sql_eq (u_id u) (bind_text userId)); simpl; repeat split;
             reflexivity.
        -- simpl. exists (fun u => u). split; [auto|]. symmetry. apply map_id.
    + auto.
    + left. unfold create_project. run_handler.
      destruct (insert_project _ _ _ _ s) as [e|s1] eqn:E; simpl; auto.
      unfold insert_project in E. split_ifs E. injection E as <-. reflexivity.
    + left. unfold remove_project. run_handler.
      destruct (select_project _ _ s); reflexivity.
    + left. unfold rename_project. run_handler.
      destruct (select_project _ _ s); simpl; auto.
      destruct (update_project_name _ _ s) as [e|s1] eqn:E; simpl; auto.
      unfold update_project_name in E. split_ifs E. injection E as <-. reflexivity.
    + left. unfold list_tasks. run_handler.
      destruct project_id as [p|]; [destruct (negb (String.eqb p EmptyString))|];
        reflexivity.
    + left. unfold create_task. run_handler.
      destruct (select_project _ _ s); simpl; auto.
      destruct (insert_task _ _ _ _ _ _ _ _ s) as [e|s1] eqn:E; simpl; auto.
      unfold insert_task in E. split_ifs E. injection E as <-. reflexivity.
    + left. unfold put_task. run_handler.
      destruct (select_task _ _ s); simpl; auto.
      destruct (update_task _ _ _ _ _ _ _ s) as [e|s1] eqn:E; simpl; auto.
      unfold update_task in E. split_ifs E; injection E as <-; reflexivity.
    + left. unfold toggle_task. run_handler.
      destruct (select_task _ _ s); reflexivity.
    + left. unfold remove_task. run_handler.
      destruct (select_task _ _ s); reflexivity.
    + auto.
Qed.

Lemma users_kept (w : world) (r : request) (s : state)
    (n : nat) (u : user_row) :
  nth_error (users s) n = Some u ->
  exists u', nth_error (users (snd (handle w r s))) n = Some u' /\
             u_id u' = u_id u /\ u_username u' = u_username u /\
             u_created_at u' = u_created_at u.
Proof.
  intros Hn.
  destruct (users_after w r s) as [-> | [(row & _ & ->) | (f & Hf & ->)]].
  - eauto.
  - exists u. rewrite nth_error_app1; [auto|].
    apply nth_error_Some. congruence.
  - exists (f u). rewrite nth_error_map, Hn. simpl.
    destruct (Hf u) as (H1 & H2 & H3). auto.
Qed.

(** X6.  No request removes a user or changes who a user is: every
    user row present before a request is still there after it, at the
    same position, with the same id, username and creation time; only a
    nickname or a password can differ. *)
Theorem users_never_removed (w : world) (r : request) (s : state)
    (n : nat) (u : user_row) :
  nth_error (users s) n = Some u ->
  exists u', nth_error (users (snd (handle w r s))) n = Some u' /\
             u_id u' = u_id u /\ u_username u' = u_username u /\
             u_created_at u' = u_created_at u.
Proof. exact (users_kept w r s n u). Qed.

Lemma sessions_after w r s token userId :
  sessions (snd (handle w r s)) !! token = Some userId ->
  sessions s !! token = Some userId \/
  exists u, In u (users s) /\ userId = to_js (u_id u).
Proof.
  destruct r as [b|b|a c].
  - pose proof (register_cases w b s) as H. cbv zeta in H. rewrite H.
    destruct (negb _ || negb _ || negb _); [auto|].
    destruct (existsb _ (users s) || existsb _ (users s)); auto.
  - simpl. unfold login. run_handler.
    destruct (select_user_by_username _ s) as [u|] eqn:Hsel; simpl; auto.
    destruct (negb _); simpl; auto.
    intros Hlook. apply lookup_insert_Some in Hlook as [[_ <-] | [_ Hlook]]; auto.
    right. exists u. split; [|reflexivity].
    unfold select_user_by_username in Hsel. apply find_some in Hsel. tauto.
  - simpl. rewrite requireAuth_caller.
    destruct (caller s a) as [caller_id|]; [|auto].
    destruct c as [| |b| |b|id|id b|project_id|b|id b|id|id|]; simpl.
    + unfold logout. destruct (bearer_token a); simpl; auto.
      intros Hlook. apply lookup_delete_Some in Hlook. tauto.
    + auto.
    + pose proof (profile_update_frame w s a caller_id b) as H.
      intros Hlook. left. revert Hlook.
      unfold profile. run_handler.
      destruct (truthy (field b "nickname")) eqn:Hn.
      * destruct (update_user_nickname_runs (field b "nickname") caller_id s Hn)
          as (s1 & -> & _ & _ & Hs1 & _).
        destruct (truthy (field b "password")) eqn:Hp.
        -- destruct (update_user_password_runs (field b "password") caller_id s1 Hp)
             as (s2 & -> & _ & _ & Hs2 & _).
           simpl. congruence.
        -- simpl. congruence.
      * destruct (truthy (field b "password")) eqn:Hp.
        -- destruct (update_user_password_runs (field b "password") caller_id s Hp)
             as (s2 & -> & _ & _ & Hs2 & _).
           simpl. congruence.
        -- simpl. auto.
    + auto.
    + unfold create_project. run_handler.
      destruct (insert_project _ _ _ _ s) as [e|s1] eqn:E; simpl; auto.
      unfold insert_project in E. split_ifs E. injection E as <-. auto.
    + unfold remove_project. run_handler.
      destruct (select_project _ _ s); auto.
    + unfold rename_project. run_handler.
      destruct (select_project _ _ s); simpl; auto.
      destruct (update_project_name _ _ s) as [e|s1] eqn:E; simpl; auto.
      unfold update_project_name in E. split_ifs E. injection E as <-. auto.
    + unfold list_tasks. run_handler.
      destruct project_id as [p|]; [destruct (negb (String.eqb p EmptyString))|];
        auto.
    + unfold create_task. run_handler.
      destruct (select_project _ _ s); simpl; auto.
      destruct (insert_task _ _ _ _ _ _ _ _ s) as [e|s1] eqn:E; simpl; auto.
      unfold insert_task in E. split_ifs E. injection E as <-. auto.
    + unfold put_task. run_handler.
      destruct (select_task _ _ s); simpl; auto.
      destruct (update_task _ _ _ _ _ _ _ s) as [e|s1] eqn:E; simpl; auto.
      unfold update_task in E. split_ifs E; injection E as <-; auto.
    + unfold toggle_task. run_handler.
      destruct (select_task _ _ s); auto.
    + unfold remove_task. run_handler.
      destruct (select_task _ _ s); auto.
    + auto.
Qed.

Lemma handle_sessions_known w r s :
  sessions_known s -> sessions_known (snd (handle w r s)).
Proof.
  intros [Htext Hknown].
  assert (forall u, In u (users s) ->
            exists u', In u' (users (snd (handle w r s))) /\ u_id u' = u_id u)
    as Hpersist.
  { intros u Hu. apply In_nth_error in Hu as (n & Hn).
    destruct (users_kept w r s n u Hn) as (u' & Hn' & Hid & _).
    exists u'. split; [eapply nth_error_In; eauto | exact Hid]. }
  split.
  - intros u Hu.
    destruct (users_after w r s) as [E | [(row & Hrow & E) | (f & Hf & E)]];
      rewrite E in Hu.
    + auto.
    + apply in_app_iff in Hu as [Hu | [<- | []]]; auto.
    + apply in_map_iff in Hu as (u0 & <- & Hu0).
      destruct (Hf u0) as (-> & _). auto.
  - intros token userId Hlook.
    apply sessions_after in Hlook as [Hlook | (u & Hu & ->)].
    + destruct (Hknown token userId Hlook) as (u & Hu & ->).
      destruct (Hpersist u Hu) as (u' & Hu' & <-). eauto.
    + destruct (Hpersist u Hu) as (u' & Hu' & <-). eauto.
Qed.

Lemma reachable_sessions_known s : reachable s -> sessions_known s.
Proof.
  induction 1 as [|s w r Hs IH Hw|s Hs IH].
  - split; [intros u []|]. intros token userId H.
    simpl in H. rewrite lookup_empty in H. discriminate.
  - apply handle_sessions_known. exact IH.
  - destruct IH as [Htext _]. split; [exact Htext|].
    intros token userId H. simpl in H. rewrite lookup_empty in H. discriminate.
Qed.

(** The id a reachable session carries is text, and binds to itself. *)
Lemma reachable_caller s a userId :
  reachable s -> caller s a = Some userId ->
  exists u id, In u (users s) /\ u_id u = SText id /\ userId = JStr id /\
               bind_text userId = SText id.
Proof.
  intros Hreach Hcaller.
  destruct (reachable_sessions_known s Hreach) as [Htext Hknown].
  unfold caller in Hcaller.
  destruct (bearer_token a) as [token|]; [|discriminate].
  destruct (String.eqb token EmptyString); [discriminate|].
  destruct (Hknown token userId Hcaller) as (u & Hu & ->).
  specialize (Htext u Hu).
  destruct (u_id u) as [| |id] eqn:E; try discriminate.
  exists u, id. auto.
Qed.

(** X7.  In a reachable state every session is that of an existing
    user, and the profile route answers a request that passes the gate
    with 200 and exactly the id, username and nickname of the caller's
    own user row, never the password, leaving the store as it was. *)
Theorem me_returns_own_profile (w : world) (s : state) (a : option string)
    (userId : jsval) :
  reachable s ->
  caller s a = Some userId ->
  exists u, In u (users s) /\
            userId = to_js (u_id u) /\
            handle w (Protected a Me) s
              = (json (JObj [("id", to_js (u_id u));
                             ("username", to_js (u_username u));
                             ("nickname", to_js (u_nickname u))]), s).
Proof.
  intros Hreach Hcaller.
  destruct (reachable_caller s a userId Hreach Hcaller)
    as (u & id & Hu & Hid & -> & Hbind).
  exists u. split; [exact Hu|]. split; [rewrite Hid; reflexivity|].
  rewrite (handle_as w a Me s (JStr id) Hcaller). simpl. unfold me. run_handler.
  assert (select_user_by_id (JStr id) s = Some u) as ->; [|reflexivity].
  unfold select_user_by_id.
  destruct (find _ (users s)) as [found|] eqn:Hfind.
  - apply find_some in Hfind as [Hin Hkey]. f_equal.
    apply (unique_keys_select u_id (users s) found u (SText id));
      [apply user_ids_unique, reachable_consistent; exact Hreach
      | exact Hin | exact Hu | exact Hkey
      | rewrite Hid; apply sql_eq_text].
  - apply (find_none _ _ Hfind) in Hu. simpl in Hu.
    rewrite Hid, sql_eq_text in Hu. discriminate.
Qed.
End Users.

(** ** The two listings *)

Lemma sql_leb_total a b : sql_leb a b = true \/ sql_leb b a = true.
Proof.
  destruct a as [|x|x], b as [|y|y]; simpl; auto.
  - destruct (Z.leb_spec x y); [auto|]. right. apply Z.leb_le. lia.
  - apply String.leb_total.
Qed.

Section Sorting.
Context {A : Type} (le : A -> A -> bool).

Lemma insert_sorted_perm x l : Permutation (insert_sorted le x l) (x :: l).
Proof.
  induction l as [|y l IH]; simpl; [reflexivity|].
  destruct (le x y); [reflexivity|].
  rewrite IH. apply perm_swap.
Qed.

Lemma order_by_perm l : Permutation (order_by le l) l.
Proof.
  unfold order_by. induction l as [|x l IH]; simpl; [reflexivity|].
  rewrite insert_sorted_perm. constructor. exact IH.
Qed.

Hypothesis le_total : forall a b, le a b = true \/ le b a = true.

Lemma insert_sorted_sorted x l :
  Sorted (fun a b => le a b = true) l ->
  Sorted (fun a b => le a b = true) (insert_sorted le x l).
Proof.
  induction l as [|y l IH]; simpl; intros Hs.
  - repeat constructor.
  - destruct (le x y) eqn:E.
    + constructor; [assumption|]. constructor. exact E.
    + inversion Hs as [|? ? Hl Hhd]; subst.
      constructor; [auto|].
      destruct l as [|z l]; simpl.
      * constructor. destruct (le_total x y); congruence.
      * destruct (le x z).
        -- constructor. destruct (le_total x y); congruence.
        -- inversion Hhd; subst. constructor. assumption.
Qed.

Lemma order_by_sorted l : Sorted (fun a b => le a b = true) (order_by le l).
Proof.
  unfold order_by. induction l as [|x l IH]; simpl; [constructor|].
  apply insert_sorted_sorted. exact IH.
Qed.
End Sorting.

Section Listings.
Context {driver : SqlDriver}.

(** X8.  The project listing shows the caller all of their projects and
    nothing else.  For a request that passes the gate the answer is 200
    with an array that holds each project row owned by the caller exactly
    once and no row of anyone else, ordered by creation time, newest
    first; the store is unchanged. *)
Theorem list_projects_scoped (w : world) (s : state) (a : option string)
    (userId : jsval) :
  caller s a = Some userId ->
  exists rows,
    handle w (Protected a ListProjects) s
      = (json (JArr (map project_json rows)), s) /\
    Permutation rows
      (List.filter (fun p => sql_eq (p_user_id p) (bind_text userId)) (projects s)) /\
    (forall p, In p rows <->
               In p (projects s) /\ sql_eq (p_user_id p) (bind_text userId) = true) /\
    Sorted newest_first rows.
Proof.
  intros Hcaller.
  exists (order_by (fun a b => sql_leb (p_created_at b) (p_created_at a))
                   (select_projects_of userId s)).
  split; [rewrite (handle_as w a ListProjects s userId Hcaller); reflexivity|].
  split; [apply order_by_perm|].
  split.
  - intros p. split.
    + intros Hin. apply (Permutation_in _ (order_by_perm _ _)) in Hin.
      unfold select_projects_of in Hin. apply filter_In in Hin. exact Hin.
    + intros Hin. apply (Permutation_in _ (Permutation_sym (order_by_perm _ _))).
      unfold select_projects_of. apply filter_In. exact Hin.
  - apply (order_by_sorted (fun a b => sql_leb (p_created_at b) (p_created_at a))).
    intros x y. apply sql_leb_total.
Qed.

(** X9.  The task listing shows the caller their own tasks only.  For a
    request that passes the gate the answer is 200 with an array that
    holds, exactly once each, the task rows owned by the caller, or, when
    a non-empty [project_id] is given in the query, those of them that
    lie in that project; no task of another user is ever listed, whatever
    project id is asked for.  The rows are ordered by deadline, soonest
    first, and the store is unchanged. *)
Theorem list_tasks_scoped (w : world) (s : state) (a : option string)
    (userId : jsval) (project_id : option string) :
  caller s a = Some userId ->
  let wanted t :=
    sql_eq (t_user_id t) (bind_text userId) &&
    match project_id with
    | Some p => if String.eqb p EmptyString then true
                else sql_eq (t_project_id t) (SText p)
    | None => true
    end in
  exists rows,
    handle w (Protected a (ListTasks project_id)) s
      = (json (JArr (map task_json rows)), s) /\
    Permutation rows (List.filter wanted (tasks s)) /\
    (forall t, In t rows -> sql_eq (t_user_id t) (bind_text userId) = true) /\
    Sorted soonest_first rows.
Proof.
  intros Hcaller wanted.
  assert (forall l : list task_row,
            Sorted soonest_first
              (order_by (fun a b => sql_leb (t_deadline a) (t_deadline b)) l))
    as Hsorted.
  { intros l.
    apply (order_by_sorted (fun a b => sql_leb (t_deadline a) (t_deadline b))).
    intros x y. apply sql_leb_total. }
  assert (forall rows : list task_row,
            Permutation rows (List.filter wanted (tasks s)) ->
            forall t, In t rows -> sql_eq (t_user_id t) (bind_text userId) = true)
    as Hmine.
  { intros rows Hperm t Hin. apply (Permutation_in _ Hperm) in Hin.
    apply filter_In in Hin as [_ Hin]. subst wanted. cbv beta in Hin.
    apply andb_true_iff in Hin. tauto. }
  rewrite (handle_as w a (ListTasks project_id) s userId Hcaller).
  simpl handler. unfold list_tasks. run_handler.
  assert (List.filter wanted (tasks s) =
          match project_id with
          | Some p => if negb (String.eqb p EmptyString)
                      then select_tasks_of_in userId (JStr p) s
                      else select_tasks_of userId s
          | None => select_tasks_of userId s
          end) as Hfilter.
  { subst wanted. unfold select_tasks_of_in, select_tasks_of.
    destruct project_id as [p|]; [destruct (String.eqb p EmptyString)|];
      simpl; apply filter_ext; intros t; rewrite ?andb_true_r; reflexivity. }
  destruct project_id as [p|]; [destruct (String.eqb p EmptyString)|];
    simpl in *; eexists; (split; [reflexivity|]);
    (split; [rewrite Hfilter; apply order_by_perm|]);
    (split; [apply Hmine; rewrite Hfilter; apply order_by_perm | apply Hsorted]).
Qed.
End Listings.

(** ** Creating a project *)

Section ProjectCreation.
Context {driver : SqlDriver}.

(** X10.  The outcomes of a project creation in a reachable state, for
    a request that passes the gate.  Without a name (absent or [null])
    the answer is 500 with SQLite's NOT NULL message; if a project row of
    any user already has the id made of [p] and the current millisecond,
    the answer is 500 with the UNIQUE message; in both cases nothing
    changes.  Otherwise the answer is 200 with the new id and the name,
    and one project row owned by the caller is appended, which the
    owner's project lookups find from then on. *)
Theorem create_project_outcomes (w : world) (s : state) (a : option string)
    (userId : jsval) (body : jsobject) :
  reachable s ->
  caller s a = Some userId ->
  let name := field body "name" in
  let id := "p" +:+ Z_to_string (date_now w) in
  let row := {| p_id := SText id; p_user_id := bind_text userId;
                p_name := bind_text name;
                p_created_at := SText (current_timestamp w) |} in
  handle w (Protected a (CreateProject body)) s =
  (if is_null (bind_text name)
   then (fail 500 "SQLITE_CONSTRAINT: NOT NULL constraint failed: projects.name", s)
   else if existsb (fun p => sql_eq (p_id p) (SText id)) (projects s)
   then (fail 500 "SQLITE_CONSTRAINT: UNIQUE constraint failed: projects.id", s)
   else (json (JObj [("id", JStr id); ("name", name)]),
         with_projects (fun l => (l ++ [row])%list) s)) /\
  owns_project (with_projects (fun l => (l ++ [row])%list) s)
    (bind_text userId) (SText id) = true.
Proof.
  intros Hreach Hcaller name id row.
  destruct (reachable_caller s a userId Hreach Hcaller)
    as (u & uid & _ & _ & -> & Hbind).
  split.
  - rewrite (handle_as w a (CreateProject body) s (JStr uid) Hcaller).
    simpl handler. unfold create_project. fold name.
    unfold try_catch, and_then, run, ret, insert_project.
    cbn [p_user_id p_name p_id]. rewrite Hbind. cbn [is_null].
    change (bind_text (JStr ("p" +:+ Z_to_string (date_now w)))) with (SText id).
    destruct (is_null (bind_text name)); [reflexivity|].
    destruct (existsb _ (projects s)); [reflexivity|].
    subst row. rewrite Hbind. reflexivity.
  - unfold owns_project, with_projects. cbn [projects].
    rewrite existsb_app. subst row. cbn [existsb p_id p_user_id].
    rewrite Hbind, !sql_eq_text. simpl. apply orb_true_r.
Qed.
End ProjectCreation.

(** ** Where the gate finds the token *)

Lemma hex_string_app x y :
  hex_string (x +:+ y) = true -> hex_string x = true /\ hex_string y = true.
Proof.
  induction x as [|c x IH]; simpl; [auto|].
  intros H. apply andb_true_iff in H as [Hc H].
  destruct (IH H). rewrite Hc. auto.
Qed.

Lemma replace_bearer_after_hex x z :
  hex_string x = true ->
  js_replace "Bearer " EmptyString (x +:+ z) = x +:+ js_replace "Bearer " EmptyString z.
Proof.
  induction x as [|c x IH]; intros Hhex; [reflexivity|].
  simpl in Hhex. apply andb_true_iff in Hhex as [Hc Hhex].
  change (String c x +:+ z) with (String c (x +:+ z)).
  unfold js_replace at 1; fold js_replace.
  rewrite (prefix_bearer_hex c (x +:+ z) Hc), IH by assumption. reflexivity.
Qed.

Section GateCut.
Context {driver : SqlDriver}.

(** X11.  The gate does not ask for [Bearer ] to stand in front.  In a
    reachable state, if a token of the registry is split in two at any
    place and [Bearer ] is put in between, the header made this way
    passes the gate as the token's user, exactly like the well-formed
    header [Bearer token]: the first [Bearer ] is cut out wherever it
    stands. *)
Theorem bearer_cut_anywhere (s : state) (x y : string) (userId : jsval)
    (next : jsval -> state -> response * state) :
  reachable s ->
  sessions s !! (x +:+ y) = Some userId ->
  bearer_token (Some (x +:+ "Bearer " +:+ y)) = Some (x +:+ y) /\
  requireAuth (Some (x +:+ "Bearer " +:+ y)) next s = next userId s /\
  requireAuth (Some (x +:+ "Bearer " +:+ y)) next s
    = requireAuth (Some ("Bearer " +:+ x +:+ y)) next s.
Proof.
  intros Hreach Hlook.
  destruct (session_tokens s (reachable_consistent s Hreach) _ _ Hlook)
    as [Hhex Hlen].
  destruct (hex_string_app x y Hhex) as [Hx _].
  assert (bearer_token (Some (x +:+ "Bearer " +:+ y)) = Some (x +:+ y)) as Hcut.
  { change (Some (js_replace "Bearer " EmptyString (x +:+ "Bearer " +:+ y))
            = Some (x +:+ y)).
    rewrite (replace_bearer_after_hex x _ Hx), replace_bearer_prefix. reflexivity. }
  assert (bearer_token (Some ("Bearer " +:+ x +:+ y)) = Some (x +:+ y)) as Hfront.
  { change (Some (js_replace "Bearer " EmptyString ("Bearer " +:+ (x +:+ y)))
            = Some (x +:+ y)).
    rewrite replace_bearer_prefix. reflexivity. }
  split; [exact Hcut|].
  rewrite !requireAuth_caller. unfold caller.
  rewrite Hcut, Hfront, (length_64_not_empty _ Hlen), Hlook. auto.
Qed.
End GateCut.

(** ** The task routes, case by case *)

Section TaskRoutes.
Context {driver : SqlDriver}.

Lemma existsb_one_key s t k :
  In t (tasks s) -> sql_eq (t_id t) k = true ->
  existsb (fun r => sql_eq (t_id r) k) (tasks s) = true.
Proof. intros Ht Hk. apply existsb_exists. eauto. Qed.

(** With unique ids, an update by id is the replacement of one row. *)
Lemma update_one_row s t k (upd : task_row -> task_row) :
  consistent s -> In t (tasks s) -> sql_eq (t_id t) k = true ->
  update_where (fun r => sql_eq (t_id r) k) upd (tasks s) =
  map (fun r => if sql_eq (t_id r) k then upd t else r) (tasks s).
Proof.
  intros Hc Ht Hk. unfold update_where. apply map_ext_in. intros r Hr.
  destruct (sql_eq (t_id r) k) eqn:E; [|reflexivity].
  rewrite (unique_keys_select t_id (tasks s) r t k); auto using task_ids_unique.
Qed.

(** X12.  The outcomes of [PUT /api/tasks/:id] on a store with unique
    keys, for a caller who passed the gate and an id that some task row
    [t] carries.  If [t] is not the caller's the answer is 404 and nothing
    changes.  If it is, a body without project id, name or deadline is
    answered 500 with SQLite's NOT NULL message for the first of these
    three columns that is missing, in this order, which is the order of
    the table's columns, and nothing changes; otherwise the row is
    replaced as a whole: id, owner and creation time
    stay, description and priority are taken from the body even when it
    does not have them (they become NULL), the completed flag is stored
    as 1 or 0 by the truthiness of the body's value, and every other row
    stays as it is. *)
Theorem put_task_outcomes (w : world) (s : state) (a : option string)
    (userId : jsval) (id : string) (b : jsobject) (t : task_row) :
  consistent s ->
  caller s a = Some userId ->
  In t (tasks s) -> t_id t = SText id ->
  let name := field b "name" in
  let description := field b "description" in
  let priority := field b "priority" in
  let deadline := field b "deadline" in
  let project_id := field b "project_id" in
  let flag := if truthy (field b "completed") then 1 else 0 in
  let updated :=
    {| t_id := SText id; t_user_id := t_user_id t;
       t_project_id := bind_text project_id;
       t_name := bind_text name;
       t_description := bind_text description;
       t_priority := bind_text priority;
       t_deadline := bind_numeric deadline;
       t_completed := SInt flag;
       t_created_at := t_created_at t |} in
  handle w (Protected a (UpdateTask id b)) s =
  (if negb (sql_eq (t_user_id t) (bind_text userId))
   then (fail 404 "Task not found", s)
   else if is_null (bind_text project_id)
   then (fail 500 "SQLITE_CONSTRAINT: NOT NULL constraint failed: tasks.project_id", s)
   else if is_null (bind_text name)
   then (fail 500 "SQLITE_CONSTRAINT: NOT NULL constraint failed: tasks.name", s)
   else if is_null (bind_numeric deadline)
   then (fail 500 "SQLITE_CONSTRAINT: NOT NULL constraint failed: tasks.deadline", s)
   else (json (JObj [("id", JStr id); ("project_id", project_id);
                     ("name", name); ("description", description);
                     ("priority", priority); ("deadline", deadline);
                     ("completed", JNum flag)]),
         with_tasks (map (fun r => if sql_eq (t_id r) (SText id)
                                   then updated else r)) s)).
Proof.
  intros Hc Hcaller Ht Hid name description priority deadline project_id flag updated.
  assert (sql_eq (t_id t) (SText id) = true) as Hkey
    by (rewrite Hid; apply sql_eq_text).
  rewrite (handle_as w a (UpdateTask id b) s userId Hcaller).
  simpl handler. unfold put_task.
  fold name description priority deadline project_id.
  unfold try_catch, and_then, query, run, ret.
  destruct (sql_eq (t_user_id t) (bind_text userId)) eqn:Howner; cbn [negb].
  - rewrite (select_task_found s t (JStr id) userId Hc Ht Hkey Howner).
    unfold update_task.
    change (bind_text (JStr id)) with (SText id).
    rewrite (existsb_one_key s t (SText id) Ht Hkey). cbn [andb].
    destruct (is_null (bind_text project_id)); [reflexivity|].
    destruct (is_null (bind_text name)); [reflexivity|].
    destruct (is_null (bind_numeric deadline)); [reflexivity|].
    unfold with_tasks. cbn [tasks].
    rewrite (update_one_row s t (SText id) _ Hc Ht Hkey).
    rewrite Hid.
    replace (bind_numeric (JNum (if truthy (field b "completed") then 1 else 0)))
      with (SInt flag); [reflexivity|].
    subst flag. unfold bind_numeric. simpl. rewrite numeric_affinity_int. reflexivity.
  - rewrite (select_task_foreign s t (JStr id) userId Hc Ht Hkey Howner).
    reflexivity.
Qed.

(** X13.  The outcomes of [DELETE /api/tasks/:id] on a store with unique
    keys, for a caller who passed the gate.  If no task row has the id,
    or the row that has it is not the caller's, the answer is 404 and
    nothing changes.  If the caller's row [t] has the id, the answer is
    the success document, the task table afterwards holds the rows it
    held before except [t], and the other tables are as before. *)
Theorem remove_task_outcomes (w : world) (s : state) (a : option string)
    (userId : jsval) (id : string) :
  consistent s ->
  caller s a = Some userId ->
  let result := handle w (Protected a (DeleteTask id)) s in
  ((forall t, In t (tasks s) -> t_id t = SText id -> foreign_task userId t) ->
   result = (fail 404 "Task not found", s)) /\
  (forall t, In t (tasks s) -> t_id t = SText id ->
     sql_eq (t_user_id t) (bind_text userId) = true ->
     fst result = json success /\
     (forall r, In r (tasks (snd result)) <-> In r (tasks s) /\ r <> t) /\
     users (snd result) = users s /\
     projects (snd result) = projects s /\
     sessions (snd result) = sessions s).
Proof.
  intros Hc Hcaller result. subst result.
  rewrite (handle_as w a (DeleteTask id) s userId Hcaller).
  simpl handler. unfold remove_task, try_catch, and_then, query, run, ret.
  split.
  - intros Hforeign.
    destruct (select_task (JStr id) userId s) as [q|] eqn:Hsel; [|reflexivity].
    apply select_task_Some in Hsel as (Hq & Hqid & Hquser).
    apply sql_eq_eq in Hqid.
    specialize (Hforeign q Hq Hqid). unfold foreign_task in Hforeign. congruence.
  - intros t Ht Hid Howner.
    assert (sql_eq (t_id t) (SText id) = true) as Hkey
      by (rewrite Hid; apply sql_eq_text).
    rewrite (select_task_found s t (JStr id) userId Hc Ht Hkey Howner).
    simpl. split; [reflexivity|]. split; [|auto].
    intros r. rewrite filter_In, negb_true_iff. split.
    + intros [Hr Hne]. split; [exact Hr|]. intros ->.
      change (bind_text (JStr id)) with (SText id) in Hne. congruence.
    + intros [Hr Hne]. split; [exact Hr|].
      change (bind_text (JStr id)) with (SText id).
      destruct (sql_eq (t_id r) (SText id)) eqn:E; [|reflexivity].
      exfalso. apply Hne.
      apply (unique_keys_select t_id (tasks s) r t (SText id));
        auto using task_ids_unique.
Qed.

(** X14.  The outcomes of [POST /api/tasks] in a reachable state, for a
    caller who passed the gate.  Unless the caller owns a project with
    the body's project id the answer is 400; a body without name or
    deadline is answered 500 with SQLite's NOT NULL message; an id that a
    task row of any user already has is answered 500 with the UNIQUE
    message; in all these cases nothing changes.  Otherwise one row is
    appended: it belongs to the caller, is not completed, and has the
    empty text as description when the body's description is falsy. *)
Theorem create_task_outcomes (w : world) (s : state) (a : option string)
    (userId : jsval) (b : jsobject) :
  reachable s ->
  caller s a = Some userId ->
  let id := field b "id" in
  let project_id := field b "project_id" in
  let name := field b "name" in
  let description := field b "description" in
  let priority := field b "priority" in
  let deadline := field b "deadline" in
  let row :=
    {| t_id := bind_text id; t_user_id := bind_text userId;
       t_project_id := bind_text project_id;
       t_name := bind_text name;
       t_description := bind_text (js_or description (JStr EmptyString));
       t_priority := bind_text priority;
       t_deadline := bind_numeric deadline;
       t_completed := SInt 0;
       t_created_at := SText (current_timestamp w) |} in
  handle w (Protected a (CreateTask b)) s =
  (if negb (owns_project s (bind_text userId) (bind_text project_id))
   then (fail 400 "Invalid project", s)
   else if is_null (bind_text name)
   then (fail 500 "SQLITE_CONSTRAINT: NOT NULL constraint failed: tasks.name", s)
   else if is_null (bind_numeric deadline)
   then (fail 500 "SQLITE_CONSTRAINT: NOT NULL constraint failed: tasks.deadline", s)
   else if existsb (fun r => sql_eq (t_id r) (bind_text id)) (tasks s)
   then (fail 500 "SQLITE_CONSTRAINT: UNIQUE constraint failed: tasks.id", s)
   else (json (JObj [("id", id); ("project_id", project_id);
                     ("name", name); ("description", description);
                     ("priority", priority); ("deadline", deadline);
                     ("completed", JNum 0)]),
         with_tasks (fun l => (l ++ [row])%list) s)).
Proof.
  intros Hreach Hcaller id project_id name description priority deadline row.
  destruct (reachable_caller s a userId Hreach Hcaller)
    as (u & uid & _ & _ & Huser & Hbind).
  rewrite (handle_as w a (CreateTask b) s userId Hcaller).
  simpl handler. unfold create_task.
  fold id project_id name description priority deadline.
  unfold try_catch, and_then, query, run, ret.
  rewrite select_project_owns.
  destruct (select_project project_id userId s) as [p|] eqn:Hsel;
    cbn [negb]; [|reflexivity].
  apply select_project_Some in Hsel as (_ & Hpid & _).
  rewrite sql_eq_sym in Hpid. apply sql_eq_not_null in Hpid.
  unfold insert_task. cbn [t_user_id t_project_id t_name t_deadline t_id].
  rewrite Hpid. rewrite Hbind. cbn [is_null].
  destruct (is_null (bind_text name)); [reflexivity|].
  destruct (is_null (bind_numeric deadline)); [reflexivity|].
  destruct (existsb _ (tasks s)); [reflexivity|].
  subst row. rewrite Hbind. reflexivity.
Qed.

End TaskRoutes.

(** ** What a request does to the rows of other users *)

Lemma sql_eq_refl v : is_null v = false -> sql_eq v v = true.
Proof.
  destruct v; simpl; intros H; [discriminate| |].
  - apply Z.eqb_refl.
  - apply String.eqb_refl.
Qed.

Section Frames.
Context {R : Type} (foreign : R -> Prop).

Lemma update_where_frame (sel : R -> bool) (upd : R -> R) (l : list R) :
  (forall r, In r l -> sel r = true -> ~ foreign r /\ ~ foreign (upd r)) ->
  forall r, foreign r -> (In r (update_where sel upd l) <-> In r l).
Proof.
  intros Hown r Hr. split.
  - intros Hin. apply in_update_where in Hin as (r0 & Hin & ->).
    destruct (sel r0) eqn:E; [|exact Hin].
    destruct (Hown r0 Hin E) as [_ Hupd]. contradiction.
  - intros Hin. unfold update_where. apply in_map_iff. exists r.
    split; [|exact Hin].
    destruct (sel r) eqn:E; [|reflexivity].
    destruct (Hown r Hin E) as [Hno _]. contradiction.
Qed.

Lemma filter_frame (f : R -> bool) (l : list R) :
  (forall r, In r l -> f r = false -> ~ foreign r) ->
  forall r, foreign r -> (In r (List.filter f l) <-> In r l).
Proof.
  intros Hown r Hr. rewrite filter_In. split; [tauto|].
  intros Hin. split; [exact Hin|].
  destruct (f r) eqn:E; [reflexivity|].
  exfalso. exact (Hown r Hin E Hr).
Qed.

Lemma append_frame (row : R) (l : list R) :
  ~ foreign row ->
  forall r, foreign r -> (In r (l ++ [row]) <-> In r l).
Proof.
  intros Hown r Hr. rewrite in_app_iff. simpl. split; [|tauto].
  intros [H | [<- | []]]; [exact H|contradiction].
Qed.
End Frames.

Section Isolation.
Context {driver : SqlDriver}.

Lemma spared_refl userId s : spared userId s s.
Proof. unfold spared. repeat split; auto. Qed.

Lemma spared_sessions userId f s : spared userId s (with_sessions f s).
Proof. unfold spared. simpl. repeat split; auto. Qed.

Lemma spared_trans userId s1 s2 s3 :
  spared userId s1 s2 -> spared userId s2 s3 -> spared userId s1 s3.
Proof.
  intros (U1 & P1 & T1) (U2 & P2 & T2). unfold spared.
  split; [|split]; intros r Hr.
  - rewrite (U2 r Hr). apply U1, Hr.
  - rewrite (P2 r Hr). apply P1, Hr.
  - rewrite (T2 r Hr). apply T1, Hr.
Qed.

Lemma spared_users userId f s :
  (forall u, foreign_user userId u -> (In u (f (users s)) <-> In u (users s))) ->
  spared userId s (with_users f s).
Proof. intros H. unfold spared. simpl. repeat split; auto; apply H; auto. Qed.

Lemma spared_projects userId f s :
  (forall p, foreign_project userId p ->
     (In p (f (projects s)) <-> In p (projects s))) ->
  spared userId s (with_projects f s).
Proof. intros H. unfold spared. simpl. repeat split; auto; apply H; auto. Qed.

Lemma spared_tasks userId f s :
  (forall t, foreign_task userId t -> (In t (f (tasks s)) <-> In t (tasks s))) ->
  spared userId s (with_tasks f s).
Proof. intros H. unfold spared. simpl. repeat split; auto; apply H; auto. Qed.

Lemma not_foreign_user userId u :
  sql_eq (u_id u) (bind_text userId) = true -> ~ foreign_user userId u.
Proof. unfold foreign_user. congruence. Qed.

Lemma not_foreign_project userId p :
  sql_eq (p_user_id p) (bind_text userId) = true -> ~ foreign_project userId p.
Proof. unfold foreign_project. congruence. Qed.

Lemma not_foreign_task userId t :
  sql_eq (t_user_id t) (bind_text userId) = true -> ~ foreign_task userId t.
Proof. unfold foreign_task. congruence. Qed.

Lemma update_user_nickname_spares userId nickname s s' :
  update_user_nickname nickname userId s = inr s' -> spared userId s s'.
Proof.
  unfold update_user_nickname. intros E. split_ifs E. injection E as <-.
  apply spared_users. apply update_where_frame.
  intros r _ Hsel. split; apply not_foreign_user; exact Hsel.
Qed.

Lemma update_user_password_spares userId password s s' :
  update_user_password password userId s = inr s' -> spared userId s s'.
Proof.
  unfold update_user_password. intros E. split_ifs E. injection E as <-.
  apply spared_users. apply update_where_frame.
  intros r _ Hsel. split; apply not_foreign_user; exact Hsel.
Qed.

Lemma own_task_selected userId id s found r :
  consistent s ->
  select_task (JStr id) userId s = Some found ->
  In r (tasks s) -> sql_eq (t_id r) (bind_text (JStr id)) = true ->
  sql_eq (t_user_id r) (bind_text userId) = true.
Proof.
  intros Hc Hsel Hr Hid.
  apply select_task_Some in Hsel as (Hf & Hfid & Hfu).
  rewrite (unique_keys_select t_id (tasks s) r found (bind_text (JStr id)));
    auto using task_ids_unique.
Qed.

Lemma own_project_selected userId id s found r :
  consistent s ->
  select_project (JStr id) userId s = Some found ->
  In r (projects s) -> sql_eq (p_id r) (bind_text (JStr id)) = true ->
  sql_eq (p_user_id r) (bind_text userId) = true.
Proof.
  intros Hc Hsel Hr Hid.
  apply select_project_Some in Hsel as (Hf & Hfid & Hfu).
  rewrite (unique_keys_select p_id (projects s) r found (bind_text (JStr id)));
    auto using project_ids_unique.
Qed.

Lemma handler_spares w a c userId s :
  consistent s -> tasks_in_own_projects s = true ->
  spared userId s (snd (handler w a c userId s)).
Proof.
  intros Hc Hown.
  destruct c as [| |b| |b|id|id b|project_id|b|id b|id|id|]; simpl.
  - unfold logout. destruct (bearer_token a); simpl;
      auto using spared_refl, spared_sessions.
  - apply spared_refl.
  - unfold profile. run_handler.
    destruct (truthy (field b "nickname")).
    + destruct (update_user_nickname _ _ s) as [e|s1] eqn:E1; simpl;
        [apply spared_refl|].
      apply update_user_nickname_spares in E1.
      destruct (truthy (field b "password")); simpl; [|exact E1].
      destruct (update_user_password _ _ s1) as [e|s2] eqn:E2; simpl; [exact E1|].
      eapply spared_trans; [exact E1|].
      eapply update_user_password_spares; exact E2.
    + simpl. destruct (truthy (field b "password")); simpl; [|apply spared_refl].
      destruct (update_user_password _ _ s) as [e|s2] eqn:E2; simpl;
        [apply spared_refl|].
      eapply update_user_password_spares; exact E2.
  - apply spared_refl.
  - unfold create_project. run_handler.
    destruct (insert_project _ _ _ _ s) as [e|s1] eqn:E; simpl; [apply spared_refl|].
    unfold insert_project in E. split_ifs E. injection E as <-.
    apply spared_projects. apply append_frame.
    apply not_foreign_project. simpl. apply sql_eq_refl. assumption.
  - unfold remove_project. run_handler.
    destruct (select_project _ _ s) as [found|] eqn:Hsel; simpl; [|apply spared_refl].
    eapply spared_trans.
    + apply (spared_tasks userId
               (List.filter (fun r => negb (sql_eq (t_project_id r) (bind_text (JStr id)))))).
      apply filter_frame. intros t Ht Hin. apply negb_false_iff in Hin.
      apply not_foreign_task.
      apply tasks_in_own_projects_spec in Hown.
      destruct (Hown t Ht) as (p & Hp & Hpid & Hpu).
      apply sql_eq_eq in Hpu. rewrite <- Hpu.
      apply (own_project_selected userId id s found p Hc Hsel Hp).
      apply sql_eq_eq in Hpid. rewrite Hpid. exact Hin.
    + apply (spared_projects userId
               (List.filter (fun r => negb (sql_eq (p_id r) (bind_text (JStr id)))))).
      cbn [projects with_tasks].
      apply filter_frame. intros p Hp Hin. apply negb_false_iff in Hin.
      apply not_foreign_project.
      exact (own_project_selected userId id s found p Hc Hsel Hp Hin).
  - unfold rename_project. run_handler.
    destruct (select_project _ _ s) as [found|] eqn:Hsel; simpl; [|apply spared_refl].
    destruct (update_project_name _ _ s) as [e|s1] eqn:E; simpl; [apply spared_refl|].
    unfold update_project_name in E. split_ifs E. injection E as <-.
    apply spared_projects. apply update_where_frame.
    intros p Hp Hin.
    pose proof (own_project_selected userId id s found p Hc Hsel Hp Hin) as Hmine.
    split; apply not_foreign_project; exact Hmine.
  - unfold list_tasks. run_handler.
    destruct project_id as [p|]; [destruct (negb (String.eqb p EmptyString))|];
      apply spared_refl.
  - unfold create_task. run_handler.
    destruct (select_project _ _ s) as [p|] eqn:Hsel; simpl; [|apply spared_refl].
    destruct (insert_task _ _ _ _ _ _ _ _ s) as [e|s1] eqn:E; simpl;
      [apply spared_refl|].
    unfold insert_task in E. split_ifs E. injection E as <-.
    apply spared_tasks. apply append_frame.
    apply not_foreign_task. simpl. apply sql_eq_refl. assumption.
  - unfold put_task. run_handler.
    destruct (select_task _ _ s) as [found|] eqn:Hsel; simpl; [|apply spared_refl].
    destruct (update_task _ _ _ _ _ _ _ s) as [e|s1] eqn:E; simpl;
      [apply spared_refl|].
    unfold update_task in E. split_ifs E; injection E as <-.
    all: apply spared_tasks; apply update_where_frame.
    all: intros t Ht Hin.
    all: pose proof (own_task_selected userId id s found t Hc Hsel Ht Hin) as Hmine.
    all: split; apply not_foreign_task; exact Hmine.
  - unfold toggle_task. run_handler.
    destruct (select_task _ _ s) as [found|] eqn:Hsel; simpl; [|apply spared_refl].
    apply (spared_tasks userId (update_where _ _)). apply update_where_frame.
    intros t Ht Hin.
    pose proof (own_task_selected userId id s found t Hc Hsel Ht Hin) as Hmine.
    split; apply not_foreign_task; exact Hmine.
  - unfold remove_task. run_handler.
    destruct (select_task _ _ s) as [found|] eqn:Hsel; simpl; [|apply spared_refl].
    apply (spared_tasks userId (List.filter _)). apply filter_frame.
    intros t Ht Hin. apply negb_false_iff in Hin.
    apply not_foreign_task.
    exact (own_task_selected userId id s found t Hc Hsel Ht Hin).
  - apply spared_refl.
Qed.

(** X15.  A request behind the gate leaves the rows of the other users
    alone.  On a store with unique keys where every task sits in a
    project of its own user, after any protected request the user, project
    and task rows of everybody else than the caller are those of before:
    none is added, none removed and none changed.  This holds for the task
    update as well; what that route can break is the second hypothesis
    for the next request. *)
Theorem requests_spare_other_users (w : world) (s : state) (a : option string)
    (c : call) (userId : jsval) :
  consistent s ->
  tasks_in_own_projects s = true ->
  caller s a = Some userId ->
  spared userId s (snd (handle w (Protected a c) s)).
Proof.
  intros Hc Hown Hcaller.
  rewrite (handle_as w a c s userId Hcaller).
  apply handler_spares; assumption.
Qed.
End Isolation.

(** ** Renaming a project *)

Section ProjectRename.
Context {driver : SqlDriver}.

Lemma select_project_found s P id userId :
  consistent s -> In P (projects s) ->
  sql_eq (p_id P) (bind_text id) = true ->
  sql_eq (p_user_id P) (bind_text userId) = true ->
  select_project id userId s = Some P.
Proof.
  intros Hc HP Hid Huser.
  destruct (select_project id userId s) as [q|] eqn:Hsel.
  - apply select_project_Some in Hsel as (Hq & Hqid & _).
    f_equal.
    apply (unique_keys_select p_id (projects s) q P (bind_text id));
      auto using project_ids_unique.
  - unfold select_project in Hsel.
    apply (find_none _ _ Hsel) in HP. simpl in HP.
    rewrite Hid, Huser in HP. discriminate.
Qed.

(** X16.  The outcomes of [PUT /api/projects/:id] on a store with unique
    keys, for a caller who passed the gate and an id that some project
    row [P] carries.  If [P] is not the caller's the answer is 404 and
    nothing changes; if it is and the body has no name, the answer is 500
    with SQLite's NOT NULL message and nothing changes; otherwise the
    answer is 200 with the id and the new name, the row keeps its id,
    owner and creation time and takes the new name, and every other row
    stays as it is. *)
Theorem rename_project_outcomes (w : world) (s : state) (a : option string)
    (userId : jsval) (id : string) (b : jsobject) (P : project_row) :
  consistent s ->
  caller s a = Some userId ->
  In P (projects s) -> p_id P = SText id ->
  let name := field b "name" in
  let renamed :=
    {| p_id := SText id; p_user_id := p_user_id P;
       p_name := bind_text name; p_created_at := p_created_at P |} in
  handle w (Protected a (UpdateProject id b)) s =
  (if negb (sql_eq (p_user_id P) (bind_text userId))
   then (fail 404 "Project not found", s)
   else if is_null (bind_text name)
   then (fail 500 "SQLITE_CONSTRAINT: NOT NULL constraint failed: projects.name", s)
   else (json (JObj [("id", JStr id); ("name", name)]),
         with_projects (map (fun r => if sql_eq (p_id r) (SText id)
                                      then renamed else r)) s)).
Proof.
  intros Hc Hcaller HP Hid name renamed.
  assert (sql_eq (p_id P) (SText id) = true) as Hkey
    by (rewrite Hid; apply sql_eq_text).
  rewrite (handle_as w a (UpdateProject id b) s userId Hcaller).
  simpl handler. unfold rename_project. fold name.
  unfold try_catch, and_then, query, run, ret.
  destruct (sql_eq (p_user_id P) (bind_text userId)) eqn:Howner; cbn [negb].
  - rewrite (select_project_found s P (JStr id) userId Hc HP Hkey Howner).
    unfold update_project_name.
    change (bind_text (JStr id)) with (SText id).
    replace (existsb (fun r => sql_eq (p_id r) (SText id)) (projects s)) with true
      by (symmetry; apply existsb_exists; eauto).
    cbn [andb].
    destruct (is_null (bind_text name)); [reflexivity|].
    unfold with_projects. cbn [projects]. do 2 f_equal.
    f_equal. unfold update_where. apply map_ext_in. intros r Hr.
    destruct (sql_eq (p_id r) (SText id)) eqn:E; [|reflexivity].
    rewrite (unique_keys_select p_id (projects s) r P (SText id));
      auto using project_ids_unique.
    subst renamed. rewrite Hid. reflexivity.
  - assert (select_project (JStr id) userId s = None) as ->; [|reflexivity].
    destruct (select_project (JStr id) userId s) as [q|] eqn:Hsel; [|reflexivity].
    apply select_project_Some in Hsel as (Hq & Hqid & Hquser).
    assert (q = P) as ->
      by (apply (unique_keys_select p_id (projects s) q P (bind_text (JStr id)));
          auto using project_ids_unique).
    congruence.
Qed.
End ProjectRename.

(** ** What holds of every store the server reaches *)

Section Invariants.
Context {driver : SqlDriver}.

(** X17.  In every state the server reaches from an empty database, by
    requests and restarts: user ids, usernames, project ids and task ids
    are unique, every completed flag is 0 or 1, every token of the
    registry is made of 64 hexadecimal digits, every user row has a text
    id, and the user id the registry holds for a token is the id of a
    user row. *)
Theorem reachable_store_invariants (s : state) :
  reachable s -> consistent s /\ sessions_known s.
Proof.
  intros Hreach. split.
  - apply reachable_consistent, Hreach.
  - apply reachable_sessions_known, Hreach.
Qed.
End Invariants.

(** ** The single-tenant routes *)

Lemma filter_keeps_all {A} (f : A -> bool) (l : list A) :
  (forall x, In x l -> f x = true) -> List.filter f l = l.
Proof.
  induction l as [|x l IH]; simpl; intros H; [reflexivity|].
  rewrite (H x) by auto. f_equal. auto.
Qed.

Lemma update_none_selected {A} (sel : A -> bool) (upd : A -> A) (l : list A) :
  (forall x, In x l -> sel x = false) ->
  map (fun r => if sel r then upd r else r) l = l.
Proof.
  induction l as [|x l IH]; simpl; intros H; [reflexivity|].
  rewrite (H x) by auto. f_equal. auto.
Qed.

Lemma existsb_none_selected {A} (sel : A -> bool) (l : list A) :
  (forall x, In x l -> sel x = false) -> existsb sel l = false.
Proof.
  induction l as [|x l IH]; simpl; intros H; [reflexivity|].
  rewrite (H x) by auto. auto.
Qed.

Lemma filter_idempotent {A} (f : A -> bool) (l : list A) :
  List.filter f (List.filter f l) = List.filter f l.
Proof.
  apply filter_keeps_all. intros x Hx. apply filter_In in Hx. tauto.
Qed.

Section LegacyRoutes.
Context {driver : SqlDriver}.

(** X18.  The single-tenant server never checks that the task named in
    the path exists before it writes.  When no task row has the id, an
    update answers 200 with the body's fields as if it had stored them,
    even for a body without name, deadline or project id, and a delete
    answers 200 with the success document; both leave the store as it
    was.  Only the toggle answers 404. *)
Theorem legacy_unknown_task_id (w : Legacy.world) (s : Legacy.state)
    (id : string) (b : jsobject) :
  (forall t, In t (Legacy.tasks s) -> sql_eq (Legacy.t_id t) (SText id) = false) ->
  let flag := JNum (if truthy (field b "completed") then 1 else 0) in
  Legacy.handle w (Legacy.UpdateTask id b) s =
    (json (JObj [("id", JStr id); ("project_id", field b "project_id");
                 ("name", field b "name");
                 ("description", field b "description");
                 ("priority", field b "priority");
                 ("deadline", field b "deadline");
                 ("completed", flag)]), s) /\
  Legacy.handle w (Legacy.DeleteTask id) s = (json success, s) /\
  Legacy.handle w (Legacy.ToggleTask id) s = (fail 404 "Task not found", s).
Proof.
  intros Hnone flag. destruct s as [ps ts]. simpl in Hnone.
  split; [|split]; simpl Legacy.handle.
  - unfold Legacy.put_task, try_catch, and_then, run, ret, Legacy.update_task.
    cbn [Legacy.tasks]. change (bind_text (JStr id)) with (SText id).
    rewrite (existsb_none_selected _ ts Hnone). cbn [andb].
    unfold Legacy.with_tasks. cbn [Legacy.tasks Legacy.projects].
    rewrite (update_none_selected _ _ ts Hnone). reflexivity.
  - unfold Legacy.remove_task, try_catch, and_then, run, ret, Legacy.delete_task.
    unfold Legacy.with_tasks. cbn [Legacy.tasks Legacy.projects].
    change (bind_text (JStr id)) with (SText id).
    rewrite filter_keeps_all; [reflexivity|].
    intros t Ht. rewrite (Hnone t Ht). reflexivity.
  - unfold Legacy.toggle_task, try_catch, and_then, Legacy.query, run, ret.
    cbn [Legacy.tasks]. change (bind_text (JStr id)) with (SText id).
    destruct (List.filter _ ts) as [|t0 rest] eqn:Hsel; [reflexivity|].
    assert (In t0 (List.filter (fun r => sql_eq (Legacy.t_id r) (SText id)) ts))
      as Ht0 by (rewrite Hsel; simpl; auto).
    apply filter_In in Ht0 as [Ht0 Hk0].
    rewrite (Hnone t0 Ht0) in Hk0. discriminate.
Qed.

(** X19.  Deleting a project in the single-tenant server always answers
    200 with the success document, whether a project has the id or not.
    Afterwards the project table holds the rows whose id is another one
    and the task table the rows that point to another project, so no
    task is left pointing to the deleted id; the task table shrinks by the
    number of tasks that pointed to it.  Deleting the same id again
    changes nothing more. *)
Theorem legacy_delete_project_cascade (w w' : Legacy.world) (s : Legacy.state)
    (id : string) :
  let result := Legacy.handle w (Legacy.DeleteProject id) s in
  fst result = json success /\
  (forall p, In p (Legacy.projects (snd result)) <->
             In p (Legacy.projects s) /\ sql_eq (Legacy.p_id p) (SText id) = false) /\
  (forall t, In t (Legacy.tasks (snd result)) <->
             In t (Legacy.tasks s) /\
             sql_eq (Legacy.t_project_id t) (SText id) = false) /\
  length (Legacy.tasks s) =
    (length (Legacy.tasks (snd result)) +
     count (fun t => sql_eq (Legacy.t_project_id t) (SText id)) (Legacy.tasks s))%nat /\
  Legacy.handle w' (Legacy.DeleteProject id) (snd result) = (json success, snd result).
Proof.
  intros result. subst result. simpl Legacy.handle.
  unfold Legacy.remove_project, try_catch, and_then, run, ret,
    Legacy.delete_tasks_of_project, Legacy.delete_project.
  change (bind_text (JStr id)) with (SText id).
  cbn [fst snd]. unfold Legacy.with_projects, Legacy.with_tasks.
  cbn [Legacy.projects Legacy.tasks].
  split; [reflexivity|].
  split; [intros p; rewrite filter_In, negb_true_iff; tauto|].
  split; [intros t; rewrite filter_In, negb_true_iff; tauto|].
  split.
  - apply (count_removed (fun t => sql_eq (Legacy.t_project_id t) (SText id))).
  - rewrite !filter_idempotent. reflexivity.
Qed.

Lemma import_projects_prefix w ps s :
  exists n,
    (n <= length ps)%nat /\
    Legacy.projects (snd (Legacy.import_projects w ps s))
      = (Legacy.projects s ++ map (Legacy.project_row_of w) (firstn n ps))%list /\
    Legacy.tasks (snd (Legacy.import_projects w ps s)) = Legacy.tasks s /\
    match fst (Legacy.import_projects w ps s) with
    | Return _ => n = length ps
    | Throw _ => (n < length ps)%nat
    end.
Proof.
  revert s. induction ps as [|p ps IH]; intros s.
  - exists 0%nat. simpl. rewrite app_nil_r. auto.
  - rewrite import_projects_step.
    destruct (prop p "id") eqn:Hp.
    + destruct (Legacy.insert_project w _ _ s) as [e|s'] eqn:Hins.
      * exists 0%nat. simpl. rewrite app_nil_r. repeat split; auto; lia.
      * apply insert_project_row in Hins.
        destruct (IH s') as (n & Hn & Hprojects & Htasks & Hend).
        exists (S n). rewrite Hprojects, Htasks. subst s'. simpl.
        rewrite <- app_assoc. repeat split; auto; [lia|].
        destruct (fst (Legacy.import_projects w ps _)); lia.
    + exists 0%nat. simpl. rewrite app_nil_r. repeat split; auto; lia.
Qed.

Lemma import_tasks_prefix w ts s :
  exists m,
    (m <= length ts)%nat /\
    Legacy.tasks (snd (Legacy.import_tasks w ts s))
      = (Legacy.tasks s ++ map (Legacy.task_row_of w) (firstn m ts))%list /\
    Legacy.projects (snd (Legacy.import_tasks w ts s)) = Legacy.projects s /\
    match fst (Legacy.import_tasks w ts s) with
    | Return _ => m = length ts
    | Throw _ => (m < length ts)%nat
    end.
Proof.
  revert s. induction ts as [|t ts IH]; intros s.
  - exists 0%nat. simpl. rewrite app_nil_r. auto.
  - rewrite import_tasks_step.
    destruct (prop t "id") eqn:Hp.
    + destruct (Legacy.add_task _ s) as [e|s'] eqn:Hins.
      * exists 0%nat. simpl. rewrite app_nil_r. repeat split; auto; lia.
      * apply add_task_row in Hins.
        destruct (IH s') as (m & Hm & Htasks & Hprojects & Hend).
        exists (S m). rewrite Hprojects, Htasks. subst s'. simpl.
        rewrite <- app_assoc. repeat split; auto; [lia|].
        destruct (fst (Legacy.import_tasks w ts _)); lia.
    + exists 0%nat. simpl. rewrite app_nil_r. repeat split; auto; lia.
Qed.

(** X20.  An import is not all or nothing.  When the body holds two
    arrays, the rows the store held before are gone whatever the answer
    is, and what the store holds afterwards is read off the arrays: the
    rows of the first [n] supplied projects and of the first [m] supplied
    tasks, in array order.  The answer is 200 exactly when all elements
    went in, and 500 otherwise: then the import stopped at the first
    element that was refused, and no task went in unless all projects
    did. *)
Theorem legacy_import_keeps_prefix (w : Legacy.world) (body : jsobject)
    (ps ts : list jsval) (s : Legacy.state) :
  field body "projects" = JArr ps ->
  field body "tasks" = JArr ts ->
  let result := Legacy.handle w (Legacy.Import body) s in
  exists n m : nat,
    (n <= length ps)%nat /\ (m <= length ts)%nat /\
    Legacy.projects (snd result) = map (Legacy.project_row_of w) (firstn n ps) /\
    Legacy.tasks (snd result) = map (Legacy.task_row_of w) (firstn m ts) /\
    ((n < length ps)%nat -> m = 0%nat) /\
    (status (fst result) = 200 <-> n = length ps /\ m = length ts) /\
    (status (fst result) = 200 \/ status (fst result) = 500).
Proof.
  intros Hps Hts result. subst result. simpl Legacy.handle.
  unfold Legacy.import. rewrite Hps, Hts.
  unfold try_catch, and_then, run, ret,
    Legacy.delete_all_tasks, Legacy.delete_all_projects.
  set (s0 := Legacy.with_projects (fun _ => []) (Legacy.with_tasks (fun _ => []) s)).
  destruct (import_projects_prefix w ps s0) as (n & Hn & Hprojects & Htasks & Hend).
  destruct (Legacy.import_projects w ps s0) as [[[]|e] s1]; cbn [fst snd] in *.
  - destruct (import_tasks_prefix w ts s1) as (m & Hm & Htasks' & Hprojects' & Hend').
    destruct (Legacy.import_tasks w ts s1) as [[[]|e] s2]; cbn [fst snd] in *.
    + exists n, m. rewrite Hprojects', Hprojects, Htasks', Htasks. simpl.
      repeat split; auto; lia.
    + exists n, m. rewrite Hprojects', Hprojects, Htasks', Htasks. simpl.
      repeat split; auto; try lia; try (intros [_ E]; lia).
  - exists n, 0%nat. rewrite Hprojects, Htasks. simpl.
    repeat split; auto; try lia; try (intros [E _]; lia).
Qed.

(** X21.  The two listings of the single-tenant server.  The project
    listing holds every project row exactly once, newest first.  The
    task listing holds every task row exactly once or, when a non-empty
    [project_id] is given in the query, exactly the rows that point to
    that project, soonest deadline first.  Neither changes the store. *)
Theorem legacy_listings (w : Legacy.world) (s : Legacy.state)
    (project_id : option string) :
  let wanted t :=
    match project_id with
    | Some p => if String.eqb p EmptyString then true
                else sql_eq (Legacy.t_project_id t) (SText p)
    | None => true
    end in
  (exists rows,
     Legacy.handle w Legacy.ListProjects s
       = (json (JArr (map Legacy.project_json rows)), s) /\
     Permutation rows (Legacy.projects s) /\
     Sorted (fun a b => sql_leb (Legacy.p_created_at b) (Legacy.p_created_at a) = true)
            rows) /\
  (exists rows,
     Legacy.handle w (Legacy.ListTasks project_id) s
       = (json (JArr (map Legacy.task_json rows)), s) /\
     Permutation rows (List.filter wanted (Legacy.tasks s)) /\
     Sorted (fun a b => sql_leb (Legacy.t_deadline a) (Legacy.t_deadline b) = true)
            rows).
Proof.
  intros wanted. split.
  - eexists. split; [reflexivity|]. split; [apply order_by_perm|].
    apply (order_by_sorted
             (fun a b => sql_leb (Legacy.p_created_at b) (Legacy.p_created_at a))).
    intros x y. apply sql_leb_total.
  - assert (forall l : list Legacy.task_row,
              Sorted (fun a b => sql_leb (Legacy.t_deadline a) (Legacy.t_deadline b) = true)
                (order_by (fun a b => sql_leb (Legacy.t_deadline a) (Legacy.t_deadline b)) l))
      as Hsorted.
    { intros l.
      apply (order_by_sorted
               (fun a b => sql_leb (Legacy.t_deadline a) (Legacy.t_deadline b))).
      intros x y. apply sql_leb_total. }
    simpl Legacy.handle. unfold Legacy.list_tasks. run_handler.
    subst wanted.
    destruct project_id as [p|]; [destruct (String.eqb p EmptyString)|];
      simpl; eexists; (split; [reflexivity|]); (split; [|apply Hsorted]).
    + rewrite filter_keeps_all by reflexivity. apply order_by_perm.
    + apply order_by_perm.
    + rewrite filter_keeps_all by reflexivity. apply order_by_perm.
Qed.
End LegacyRoutes.

(** ** The properties above on the sample session *)

Lemma alice_only_reachable : reachable Scenario.alice_only.
Proof.
  apply run_trace_reachable; [constructor|]. repeat constructor.
Qed.

Lemma store_in_own_projects : tasks_in_own_projects Scenario.store = true.
Proof. vm_compute. reflexivity. Qed.

(** Alice registers on the empty database and logs in. *)
Lemma register_then_login_witness :
  let creds := Scenario.credentials "alice" "Alice" "pw1" in
  let s1 := snd (handle Scenario.alice_world (Register creds) init) in
  caller (snd (handle Scenario.alice_world
                 (Login [("username", JStr "alice"); ("password", JStr "pw1")]) s1))
         Scenario.as_alice
  = Some Scenario.alice.
Proof.
  pose proof (register_then_login Scenario.alice_world Scenario.alice_world init
                (Scenario.credentials "alice" "Alice" "pw1") "alice" "pw1"
                eq_refl eq_refl eq_refl ltac:(vm_compute; reflexivity)) as H.
  cbv zeta in H. destruct H as (_ & H & _). exact H.
Defined.

(** A login as Alice with a wrong password. *)
Lemma login_outcomes_witness :
  handle Scenario.bob_world
    (Login (Scenario.credentials "alice" "Alice" "guess")) Scenario.alice_only
  = (fail 401 "Invalid credentials", Scenario.alice_only).
Proof.
  pose proof (login_outcomes Scenario.bob_world
                (Scenario.credentials "alice" "Alice" "guess") Scenario.alice_only
                (reachable_consistent _ alice_only_reachable)) as H.
  cbv zeta in H. destruct H as (_ & _ & _ & _ & H). apply H.
  intros u Hu _.
  assert (users Scenario.alice_only =
          [{| u_id := SText "u1000"; u_username := SText "alice";
              u_nickname := SText "Alice"; u_password := SText "pw1";
              u_created_at := SText "2025-06-01 10:00:00" |}]) as Husers
    by (vm_compute; reflexivity).
  rewrite Husers in Hu. destruct Hu as [<- | []]. reflexivity.
Defined.

(** Alice logs out; her token is refused afterwards. *)
Lemma logout_revokes_witness :
  let result := handle Scenario.alice_world
                  (Protected Scenario.as_alice Logout) Scenario.store in
  fst result = json success /\
  caller (snd result) Scenario.as_alice = None /\
  handle Scenario.alice_world (Protected Scenario.as_alice Export) (snd result)
  = (fail 401 "Unauthorized", snd result).
Proof.
  destruct store_tables as (_ & _ & Hcaller & _).
  pose proof (logout_revokes Scenario.alice_world Scenario.alice_world
                Scenario.store Scenario.as_alice Scenario.alice Hcaller) as H.
  cbv zeta in H. destruct H as (H1 & H2 & H3 & _).
  cbv zeta. split; [exact H1|]. split; [exact H2|]. apply H3.
Defined.

(** Alice changes nickname and password; her row stays the first one. *)
Lemma users_never_removed_witness :
  exists u',
    nth_error
      (users (snd (handle Scenario.alice_world
                     (Protected Scenario.as_alice
                        (Profile [("nickname", JStr "Ally");
                                  ("password", JStr "pw3")]))
                     Scenario.store))) 0 = Some u' /\
    u_id u' = SText "u1000" /\ u_username u' = SText "alice" /\
    u_created_at u' = SText "2025-06-01 10:00:00".
Proof.
  apply (users_never_removed Scenario.alice_world
           (Protected Scenario.as_alice
              (Profile [("nickname", JStr "Ally"); ("password", JStr "pw3")]))
           Scenario.store 0
           {| u_id := SText "u1000"; u_username := SText "alice";
              u_nickname := SText "Alice"; u_password := SText "pw1";
              u_created_at := SText "2025-06-01 10:00:00" |}).
  vm_compute. reflexivity.
Defined.

(** Bob asks for his profile. *)
Lemma me_returns_own_profile_witness :
  exists u, In u (users Scenario.store) /\
            Scenario.bob = to_js (u_id u) /\
            handle Scenario.bob_world (Protected Scenario.as_bob Me) Scenario.store
              = (json (JObj [("id", to_js (u_id u));
                             ("username", to_js (u_username u));
                             ("nickname", to_js (u_nickname u))]), Scenario.store).
Proof.
  destruct store_tables as (_ & _ & _ & Hcaller).
  exact (me_returns_own_profile Scenario.bob_world Scenario.store
           Scenario.as_bob Scenario.bob store_reachable Hcaller).
Defined.

(** Alice lists her projects. *)
Lemma list_projects_scoped_witness :
  exists rows,
    handle Scenario.alice_world (Protected Scenario.as_alice ListProjects)
      Scenario.store
      = (json (JArr (map project_json rows)), Scenario.store) /\
    Permutation rows
      (List.filter (fun p => sql_eq (p_user_id p) (bind_text Scenario.alice))
                   (projects Scenario.store)) /\
    (forall p, In p rows <->
               In p (projects Scenario.store) /\
               sql_eq (p_user_id p) (bind_text Scenario.alice) = true) /\
    Sorted newest_first rows.
Proof.
  destruct store_tables as (_ & _ & Hcaller & _).
  exact (list_projects_scoped Scenario.alice_world Scenario.store
           Scenario.as_alice Scenario.alice Hcaller).
Defined.

(** Alice lists the tasks of Bob's project [p2000]: none of his is shown. *)
Lemma list_tasks_scoped_witness :
  exists rows,
    handle Scenario.alice_world
      (Protected Scenario.as_alice (ListTasks (Some "p2000"))) Scenario.store
      = (json (JArr (map task_json rows)), Scenario.store) /\
    (forall t, In t rows ->
               sql_eq (t_user_id t) (bind_text Scenario.alice) = true) /\
    Sorted soonest_first rows.
Proof.
  destruct store_tables as (_ & _ & Hcaller & _).
  pose proof (list_tasks_scoped Scenario.alice_world Scenario.store
                Scenario.as_alice Scenario.alice (Some "p2000") Hcaller) as H.
  cbv zeta in H. destruct H as (rows & H1 & _ & H3 & H4).
  exists rows. auto.
Defined.

(** Alice creates a second project in the millisecond of her first one. *)
Lemma create_project_outcomes_witness :
  handle Scenario.alice_world
    (Protected Scenario.as_alice (CreateProject [("name", JStr "Garden")]))
    Scenario.store
  = (fail 500 "SQLITE_CONSTRAINT: UNIQUE constraint failed: projects.id",
     Scenario.store).
Proof.
  destruct store_tables as (Hp & _ & Hcaller & _).
  pose proof (create_project_outcomes Scenario.alice_world Scenario.store
                Scenario.as_alice Scenario.alice [("name", JStr "Garden")]
                store_reachable Hcaller) as H.
  cbv zeta in H. destruct H as [H _]. rewrite H, Hp. reflexivity.
Defined.

(** Alice's token with [Bearer ] after its first two digits. *)
Lemma bearer_cut_anywhere_witness :
  requireAuth (Some ("0a" +:+ "Bearer " +:+ to_hex (repeat Byte.x0a 31)))
    me Scenario.store
  = me Scenario.alice Scenario.store.
Proof.
  pose proof (bearer_cut_anywhere Scenario.store "0a" (to_hex (repeat Byte.x0a 31))
                Scenario.alice me store_reachable
                ltac:(vm_compute; reflexivity)) as (_ & H & _).
  exact H.
Defined.

(** Bob updates his task [t1] with a name only: of the two columns that
    are missing, [project_id] is the one reported. *)
Lemma put_task_outcomes_witness :
  handle Scenario.bob_world
    (Protected Scenario.as_bob (UpdateTask "t1" [("name", JStr "Report, final")]))
    Scenario.store
  = (fail 500 "SQLITE_CONSTRAINT: NOT NULL constraint failed: tasks.project_id",
     Scenario.store).
Proof.
  destruct store_tables as (_ & Ht & _ & Hcaller).
  assert (In Scenario.report (tasks Scenario.store)) as Hin
    by (rewrite Ht; simpl; auto).
  pose proof (put_task_outcomes Scenario.bob_world Scenario.store
                Scenario.as_bob Scenario.bob "t1" [("name", JStr "Report, final")]
                Scenario.report (reachable_consistent _ store_reachable)
                Hcaller Hin eq_refl) as H.
  cbv zeta in H. rewrite H. reflexivity.
Defined.

(** Alice deletes Bob's task [t1]. *)
Lemma remove_task_outcomes_witness :
  handle Scenario.alice_world
    (Protected Scenario.as_alice (DeleteTask "t1")) Scenario.store
  = (fail 404 "Task not found", Scenario.store).
Proof.
  destruct store_tables as (_ & Ht & Hcaller & _).
  pose proof (remove_task_outcomes Scenario.alice_world Scenario.store
                Scenario.as_alice Scenario.alice "t1"
                (reachable_consistent _ store_reachable) Hcaller) as H.
  cbv zeta in H. destruct H as [H _]. apply H.
  intros t Hin _. rewrite Ht in Hin. destruct Hin as [<- | []].
  vm_compute. reflexivity.
Defined.

(** Alice creates a task in her own project under the id of Bob's task. *)
Lemma create_task_outcomes_witness :
  handle Scenario.alice_world
    (Protected Scenario.as_alice (CreateTask (Scenario.new_task "t1" "p1000")))
    Scenario.store
  = (fail 500 "SQLITE_CONSTRAINT: UNIQUE constraint failed: tasks.id",
     Scenario.store).
Proof.
  destruct store_tables as (Hp & Ht & Hcaller & _).
  pose proof (create_task_outcomes Scenario.alice_world Scenario.store
                Scenario.as_alice Scenario.alice (Scenario.new_task "t1" "p1000")
                store_reachable Hcaller) as H.
  cbv zeta in H. rewrite H. unfold owns_project. rewrite Hp, Ht. reflexivity.
Defined.

(** Bob deletes his project [p2000]: Alice's rows are those of before. *)
Lemma requests_spare_other_users_witness :
  spared Scenario.bob Scenario.store
    (snd (handle Scenario.bob_world
            (Protected Scenario.as_bob (DeleteProject "p2000")) Scenario.store)).
Proof.
  destruct store_tables as (_ & _ & _ & Hcaller).
  exact (requests_spare_other_users Scenario.bob_world Scenario.store
           Scenario.as_bob (DeleteProject "p2000") Scenario.bob
           (reachable_consistent _ store_reachable) store_in_own_projects Hcaller).
Defined.

(** Alice renames her project without giving a name. *)
Lemma rename_project_outcomes_witness :
  handle Scenario.alice_world
    (Protected Scenario.as_alice (UpdateProject "p1000" [])) Scenario.store
  = (fail 500 "SQLITE_CONSTRAINT: NOT NULL constraint failed: projects.name",
     Scenario.store).
Proof.
  destruct store_tables as (Hp & _ & Hcaller & _).
  assert (In Scenario.home (projects Scenario.store)) as Hin
    by (rewrite Hp; simpl; auto).
  pose proof (rename_project_outcomes Scenario.alice_world Scenario.store
                Scenario.as_alice Scenario.alice "p1000" [] Scenario.home
                (reachable_consistent _ store_reachable)
                Hcaller Hin eq_refl) as H.
  cbv zeta in H. rewrite H. reflexivity.
Defined.

Lemma reachable_store_invariants_witness :
  consistent Scenario.store /\ sessions_known Scenario.store.
Proof. exact (reachable_store_invariants Scenario.store store_reachable). Defined.

(** Bob creates a second task in his project. *)
Lemma ownership_kept_without_task_update_witness :
  tasks_in_own_projects
    (snd (handle Scenario.bob_world
            (Protected Scenario.as_bob (CreateTask (Scenario.new_task "t2" "p2000")))
            Scenario.store)) = true.
Proof.
  exact (ownership_kept_without_task_update Scenario.bob_world
           (Protected Scenario.as_bob (CreateTask (Scenario.new_task "t2" "p2000")))
           Scenario.store eq_refl store_in_own_projects).
Defined.

(** Bob updates his task [t1] and leaves it in his project [p2000]. *)
Lemma ownership_kept_by_update_into_own_project_witness :
  tasks_in_own_projects
    (snd (handle Scenario.bob_world
            (Protected Scenario.as_bob
               (UpdateTask "t1" [("name", JStr "Report, final");
                                 ("deadline", JStr "2026-01-15");
                                 ("project_id", JStr "p2000")]))
            Scenario.store)) = true.
Proof.
  destruct store_tables as (_ & _ & _ & Hcaller).
  exact (ownership_kept_by_update_into_own_project Scenario.bob_world Scenario.store
           Scenario.as_bob Scenario.bob "t1"
           [("name", JStr "Report, final"); ("deadline", JStr "2026-01-15");
            ("project_id", JStr "p2000")]
           (reachable_consistent _ store_reachable) Hcaller
           ltac:(vm_compute; reflexivity) store_in_own_projects).
Defined.

(** Bob deletes his project [p2000], which holds his one task. *)
Lemma remove_project_cascade_witness :
  let result := handle Scenario.bob_world
                  (Protected Scenario.as_bob (DeleteProject "p2000"))
                  Scenario.store in
  fst result = json success /\
  ~ In Scenario.work (projects (snd result)) /\
  length (tasks Scenario.store)
  = (length (tasks (snd result)) +
     count (in_project (SText "p2000")) (tasks Scenario.store))%nat.
Proof.
  destruct store_tables as (Hp & _ & _ & Hcaller).
  assert (In Scenario.work (projects Scenario.store)) as Hin
    by (rewrite Hp; simpl; auto).
  pose proof (remove_project_cascade Scenario.bob_world Scenario.store
                Scenario.as_bob Scenario.bob "p2000" Scenario.work
                (reachable_consistent _ store_reachable) Hcaller Hin eq_refl
                ltac:(vm_compute; reflexivity)) as H.
  cbv zeta in H. destruct H as (H1 & H2 & _ & _ & _ & H6 & _).
  cbv zeta. split; [exact H1|]. split; [exact H2 | exact H6].
Defined.

(** A task update, a delete and a toggle for an id no task has. *)
Lemma legacy_unknown_task_id_witness :
  Legacy.handle Scenario.legacy_world (Legacy.UpdateTask "t9" [])
    Scenario.legacy_store
  = (json (JObj [("id", JStr "t9"); ("project_id", JUndefined);
                 ("name", JUndefined); ("description", JUndefined);
                 ("priority", JUndefined); ("deadline", JUndefined);
                 ("completed", JNum 0)]), Scenario.legacy_store) /\
  Legacy.handle Scenario.legacy_world (Legacy.DeleteTask "t9")
    Scenario.legacy_store
  = (json success, Scenario.legacy_store).
Proof.
  pose proof (legacy_unknown_task_id Scenario.legacy_world Scenario.legacy_store
                "t9" []) as H.
  cbv zeta in H. destruct H as (H1 & H2 & _).
  - intros t [<- | [<- | []]]; reflexivity.
  - split; [exact H1 | exact H2].
Defined.

(** An import whose second project has no name: the first one is all the
    store holds afterwards. *)
Lemma legacy_import_keeps_prefix_witness :
  let body := [("projects", JArr [JObj [("id", JStr "p7"); ("name", JStr "Garden")];
                                  JObj [("id", JStr "p8")]]);
               ("tasks", JArr [])] in
  let result := Legacy.handle Scenario.legacy_world (Legacy.Import body)
                  Scenario.legacy_store in
  status (fst result) = 500 /\
  exists n m : nat,
    Legacy.projects (snd result)
      = map (Legacy.project_row_of Scenario.legacy_world)
            (firstn n [JObj [("id", JStr "p7"); ("name", JStr "Garden")];
                       JObj [("id", JStr "p8")]]) /\
    Legacy.tasks (snd result)
      = map (Legacy.task_row_of Scenario.legacy_world) (firstn m []) /\
    (n < 2)%nat.
Proof.
  pose proof (legacy_import_keeps_prefix Scenario.legacy_world
                [("projects", JArr [JObj [("id", JStr "p7"); ("name", JStr "Garden")];
                                    JObj [("id", JStr "p8")]]);
                 ("tasks", JArr [])]
                [JObj [("id", JStr "p7"); ("name", JStr "Garden")];
                 JObj [("id", JStr "p8")]] [] Scenario.legacy_store
                eq_refl eq_refl) as H.
  cbv zeta in H.
  destruct H as (n & m & Hn & Hm & Hprojects & Htasks & _ & Hok & _).
  cbv zeta.
  assert (status (fst (Legacy.handle Scenario.legacy_world
            (Legacy.Import
               [("projects", JArr [JObj [("id", JStr "p7"); ("name", JStr "Garden")];
                                   JObj [("id", JStr "p8")]]);
                ("tasks", JArr [])]) Scenario.legacy_store)) = 500) as Hstatus
    by (vm_compute; reflexivity).
  split; [exact Hstatus|].
  exists n, m. split; [exact Hprojects|]. split; [exact Htasks|].
  simpl in Hn, Hm.
  destruct (Nat.eq_dec n 2%nat) as [E|E]; [|lia].
  exfalso. assert (m = 0%nat) as Em by lia.
  rewrite Hstatus in Hok. destruct Hok as [_ Hok].
  specialize (Hok (conj E Em)). discriminate Hok.
Defined.

(** An import into the sample store keeps the schema's constraints. *)
Lemma legacy_handle_schema_ok_witness :
  Legacy.schema_ok
    (snd (Legacy.handle Scenario.legacy_world
            (Legacy.CreateTask [("id", JStr "t7"); ("project_id", JStr "p2");
                                ("name", JStr "Plan"); ("deadline", JStr "2025-08-01")])
            Scenario.legacy_store)) = true.
Proof.
  exact (legacy_handle_schema_ok Scenario.legacy_world
           (Legacy.CreateTask [("id", JStr "t7"); ("project_id", JStr "p2");
                               ("name", JStr "Plan"); ("deadline", JStr "2025-08-01")])
           Scenario.legacy_store eq_refl).
Defined.
